(** * Space Shooter: the entity simulation and collision engine

    A shallow embedding of [src/Space Shooter/space_shooter.js].

    - JavaScript numbers that hold positions, velocities, sizes and
      times are rationals ([Q]) and their arithmetic is exact: the
      rounding of binary64 is not modelled.  A statement that depends on
      which side of a threshold a sum or a difference falls is made
      with a margin that covers the rounding of the source (the ticks
      of a frame, the periods of the fire and of the spawner, the score
      and the top of [randomInt]).  Counters, health and the
      results of [randomInt] are integers ([Z]); body identities and
      the loop counter are naturals.  The statement about the length of
      the player's velocity reads the same velocity rule over the
      reals.
    - Bodies are JavaScript objects: they live in a store ([heap]) keyed
      by their identity, and the [entities] array, the [player] global
      and [this] hold references (identities) into that store, so that a
      mutation through one reference is seen through every other.
    - [Math.random] is an oracle: a stream of numbers and a cursor.
    - The browser is a sequence of events: key presses, key releases and
      animation frames. *)

From Stdlib Require Import Reals Lra.
From Stdlib Require Import ZArith Lia QArith Qround Qabs Lqa.
From stdpp Require Import base gmap list.

Local Open Scope Q_scope.

(** ** Numbers *)

Definition Qltb (a b : Q) : bool := negb (Qle_bool b a).

(** [Math.SQRT1_2] is the binary64 number [0x1.6a09e667f3bcdp-1]. *)
Definition SQRT1_2 : Q := 6369051672525773 # 9007199254740992.

(** [Math.min] and [Math.max] on two numbers. *)
Definition Math_max (a b : Q) : Q := if Qltb a b then b else a.
Definition Math_min (a b : Q) : Q := if Qltb b a then b else a.

(** The oracle behind [Math.random]: [rand_src n] is the [n]-th number
    it returns. *)
Record Rng := mkRng { rand_src : nat -> Q; rand_pos : nat }.

Definition Math_random (g : Rng) : Q * Rng :=
  (rand_src g (rand_pos g), mkRng (rand_src g) (S (rand_pos g))).

(** [randomInt(min, max)]:
    [Math.floor(Math.random() * (max - min + 1) + min)], with the product
    and the sum exact. *)
Definition randomInt (min max : Z) (g : Rng) : Z * Rng :=
  let (r, g') := Math_random g in
  (Qfloor (r * inject_Z (max - min + 1) + inject_Z min), g').

(** ** Configuration *)

Module config.
Definition canvas_width : Z := 300.
Definition canvas_height : Z := 500.
Definition fps : Q := 60.
(** [config.update_rate.seconds = 1 / config.update_rate.fps] *)
Definition seconds : Q := 1 / fps.
End config.

(** ** Bodies *)

Inductive BodyType := Player | Projectile | Mob.

Definition BodyType_eqb (a b : BodyType) : bool :=
  match a, b with
  | Player, Player | Projectile, Projectile | Mob, Mob => true
  | _, _ => false
  end.

Record Vec := mkVec { x : Q; y : Q }.
Record Size := mkSize { width : Q; height : Q }.
Record Controller :=
  mkController { move_x : Z; move_y : Z; action_1 : bool }.

(** One record for the three classes: the fields of [Body], then the
    fields only [Player], [Projectile] or [Mob] set.  [speed] and
    [accumulator] exist on both [Player] and [Mob]. *)
Record Body := mkBody {
  id : nat;
  type : BodyType;
  position : Vec;
  velocity : Vec;
  size : Size;
  health : Z;
  speed : Q;
  accumulator : Q;
  (* Player *)
  controller : Controller;
  raw_input : gset nat;
  mobsKilled : Z;
  lifeTime : Q;
  mobCount : Z;
  (* Projectile *)
  acceleration : Z;
  (* Mob *)
  switchTime : Q
}.

Definition set_type (t : BodyType) (b : Body) : Body :=
  mkBody (id b) t (position b) (velocity b) (size b) (health b) (speed b)
    (accumulator b) (controller b) (raw_input b) (mobsKilled b) (lifeTime b)
    (mobCount b) (acceleration b) (switchTime b).
Definition set_position (p : Vec) (b : Body) : Body :=
  mkBody (id b) (type b) p (velocity b) (size b) (health b) (speed b)
    (accumulator b) (controller b) (raw_input b) (mobsKilled b) (lifeTime b)
    (mobCount b) (acceleration b) (switchTime b).
Definition set_velocity (v : Vec) (b : Body) : Body :=
  mkBody (id b) (type b) (position b) v (size b) (health b) (speed b)
    (accumulator b) (controller b) (raw_input b) (mobsKilled b) (lifeTime b)
    (mobCount b) (acceleration b) (switchTime b).
Definition set_size (s : Size) (b : Body) : Body :=
  mkBody (id b) (type b) (position b) (velocity b) s (health b) (speed b)
    (accumulator b) (controller b) (raw_input b) (mobsKilled b) (lifeTime b)
    (mobCount b) (acceleration b) (switchTime b).
Definition set_health (h : Z) (b : Body) : Body :=
  mkBody (id b) (type b) (position b) (velocity b) (size b) h (speed b)
    (accumulator b) (controller b) (raw_input b) (mobsKilled b) (lifeTime b)
    (mobCount b) (acceleration b) (switchTime b).
Definition set_speed (s : Q) (b : Body) : Body :=
  mkBody (id b) (type b) (position b) (velocity b) (size b) (health b) s
    (accumulator b) (controller b) (raw_input b) (mobsKilled b) (lifeTime b)
    (mobCount b) (acceleration b) (switchTime b).
Definition set_accumulator (a : Q) (b : Body) : Body :=
  mkBody (id b) (type b) (position b) (velocity b) (size b) (health b)
    (speed b) a (controller b) (raw_input b) (mobsKilled b) (lifeTime b)
    (mobCount b) (acceleration b) (switchTime b).
Definition set_controller (c : Controller) (b : Body) : Body :=
  mkBody (id b) (type b) (position b) (velocity b) (size b) (health b)
    (speed b) (accumulator b) c (raw_input b) (mobsKilled b) (lifeTime b)
    (mobCount b) (acceleration b) (switchTime b).
Definition set_raw_input (r : gset nat) (b : Body) : Body :=
  mkBody (id b) (type b) (position b) (velocity b) (size b) (health b)
    (speed b) (accumulator b) (controller b) r (mobsKilled b) (lifeTime b)
    (mobCount b) (acceleration b) (switchTime b).
Definition set_mobsKilled (k : Z) (b : Body) : Body :=
  mkBody (id b) (type b) (position b) (velocity b) (size b) (health b)
    (speed b) (accumulator b) (controller b) (raw_input b) k (lifeTime b)
    (mobCount b) (acceleration b) (switchTime b).
Definition set_lifeTime (t : Q) (b : Body) : Body :=
  mkBody (id b) (type b) (position b) (velocity b) (size b) (health b)
    (speed b) (accumulator b) (controller b) (raw_input b) (mobsKilled b) t
    (mobCount b) (acceleration b) (switchTime b).
Definition set_mobCount (c : Z) (b : Body) : Body :=
  mkBody (id b) (type b) (position b) (velocity b) (size b) (health b)
    (speed b) (accumulator b) (controller b) (raw_input b) (mobsKilled b)
    (lifeTime b) c (acceleration b) (switchTime b).
Definition set_acceleration (a : Z) (b : Body) : Body :=
  mkBody (id b) (type b) (position b) (velocity b) (size b) (health b)
    (speed b) (accumulator b) (controller b) (raw_input b) (mobsKilled b)
    (lifeTime b) (mobCount b) a (switchTime b).
Definition set_switchTime (s : Q) (b : Body) : Body :=
  mkBody (id b) (type b) (position b) (velocity b) (size b) (health b)
    (speed b) (accumulator b) (controller b) (raw_input b) (mobsKilled b)
    (lifeTime b) (mobCount b) (acceleration b) s.

(** The field initialisers of [class Body] (and zero for the fields a
    subclass adds), for the body with identity [i].  [type] is assigned
    by the constructor of every subclass right after [super()]; what it
    holds before that is never read. *)
Definition Body_fields (i : nat) : Body :=
  {| id := i; type := Player;
     position := mkVec 0 0; velocity := mkVec 0 0;
     size := mkSize 10 10; health := 100;
     speed := 0; accumulator := 0;
     controller := mkController 0 0 false; raw_input := ∅;
     mobsKilled := 0; lifeTime := 0; mobCount := 0;
     acceleration := 0; switchTime := 0 |}.

(** [get half_size()] *)
Definition half_size (b : Body) : Size :=
  mkSize (width (size b) / 2) (height (size b) / 2).

(** [isDead()] *)
Definition isDead (b : Body) : bool := (health b <=? 0)%Z.

(** ** The world: the globals of the script *)

Record World := mkWorld {
  running_id : nat;
  heap : gmap nat Body;
  entities : list (option nat);
  queued_entities_for_removal : list nat;
  player : nat;
  enemy_spawner : Q;
  last_time : option Q;
  loop_count : nat;
  rng : Rng
}.

Definition set_running_id (n : nat) (w : World) : World :=
  mkWorld n (heap w) (entities w) (queued_entities_for_removal w) (player w)
    (enemy_spawner w) (last_time w) (loop_count w) (rng w).
Definition set_heap (h : gmap nat Body) (w : World) : World :=
  mkWorld (running_id w) h (entities w) (queued_entities_for_removal w)
    (player w) (enemy_spawner w) (last_time w) (loop_count w) (rng w).
Definition set_entities (e : list (option nat)) (w : World) : World :=
  mkWorld (running_id w) (heap w) e (queued_entities_for_removal w)
    (player w) (enemy_spawner w) (last_time w) (loop_count w) (rng w).
Definition set_queue (q : list nat) (w : World) : World :=
  mkWorld (running_id w) (heap w) (entities w) q (player w)
    (enemy_spawner w) (last_time w) (loop_count w) (rng w).
Definition set_player (p : nat) (w : World) : World :=
  mkWorld (running_id w) (heap w) (entities w)
    (queued_entities_for_removal w) p (enemy_spawner w) (last_time w)
    (loop_count w) (rng w).
Definition set_enemy_spawner (a : Q) (w : World) : World :=
  mkWorld (running_id w) (heap w) (entities w)
    (queued_entities_for_removal w) (player w) a (last_time w)
    (loop_count w) (rng w).
Definition set_last_time (t : option Q) (w : World) : World :=
  mkWorld (running_id w) (heap w) (entities w)
    (queued_entities_for_removal w) (player w) (enemy_spawner w) t
    (loop_count w) (rng w).
Definition set_loop_count (n : nat) (w : World) : World :=
  mkWorld (running_id w) (heap w) (entities w)
    (queued_entities_for_removal w) (player w) (enemy_spawner w)
    (last_time w) n (rng w).
Definition set_rng (g : Rng) (w : World) : World :=
  mkWorld (running_id w) (heap w) (entities w)
    (queued_entities_for_removal w) (player w) (enemy_spawner w)
    (last_time w) (loop_count w) g.

(** Mutation of the object behind a reference. *)
Definition modify (r : nat) (f : Body -> Body) (w : World) : World :=
  set_heap (alter f r (heap w)) w.

(** [a[i] = v] on a JavaScript array: an index past the end extends the
    array with holes. *)
Definition array_set (i : nat) (v : nat) (a : list (option nat))
  : list (option nat) :=
  if decide (i < length a)%nat then <[i := Some v]> a
  else a ++ replicate (i - length a) None ++ [Some v].

(** [delete a[i]]: leaves a hole, never changes the length. *)
Definition array_delete (i : nat) (a : list (option nat))
  : list (option nat) := <[i := None]> a.

(** [Object.values(a)]: the elements that are there, by ascending
    index. *)
Definition Object_values (a : list (option nat)) : list nat := omap (λ r, r) a.

(** The body [i] is in the registry: [entities[i]] is that body. *)
Definition live (w : World) (i : nat) : Prop := entities w !! i = Some (Some i).

(** ** Input: [class InputHandler] *)

Inductive AxisState := st_move_x | st_move_y.

(** [key_code_mappings], as [Object.entries] lists them (integer keys
    by ascending value). *)
Definition button_mappings : list nat := [32%nat].
Definition axis_mappings : list (nat * (AxisState * Z)) :=
  [ (65%nat, (st_move_x, -1)%Z); (68%nat, (st_move_x, 1)%Z);
    (83%nat, (st_move_y, 1)%Z); (87%nat, (st_move_y, -1)%Z) ].

Definition resetController (c : Controller) : Controller :=
  mkController 0 0 false.

Definition poll_button (raw : gset nat) (c : Controller) (key_code : nat)
  : Controller :=
  if bool_decide (key_code ∈ raw)
  then mkController (move_x c) (move_y c) true else c.

Definition poll_axis (raw : gset nat) (c : Controller)
    (m : nat * (AxisState * Z)) : Controller :=
  let '(key_code, (state, mod_)) := m in
  if bool_decide (key_code ∈ raw) then
    match state with
    | st_move_x => mkController (move_x c + mod_) (move_y c) (action_1 c)
    | st_move_y => mkController (move_x c) (move_y c + mod_) (action_1 c)
    end
  else c.

(** [pollController()], on the player the handler is bound to. *)
Definition pollController (b : Body) : Body :=
  let c0 := resetController (controller b) in
  let c1 := foldl (poll_button (raw_input b)) c0 button_mappings in
  let c2 := foldl (poll_axis (raw_input b)) c1 axis_mappings in
  set_controller c2 b.

(** Every [Player] ever constructed registered its own listeners on the
    window, and they are never removed: a key event reaches them all. *)
Definition keydown (key_code : nat) (w : World) : World :=
  set_heap
    ((λ b, match type b with
           | Player => set_raw_input ({[key_code]} ∪ raw_input b) b
           | _ => b
           end) <$> heap w) w.

Definition keyup (key_code : nat) (w : World) : World :=
  set_heap
    ((λ b, match type b with
           | Player => set_raw_input (raw_input b ∖ {[key_code]}) b
           | _ => b
           end) <$> heap w) w.

(** ** [class Body] *)

(** [constructor()]: [this.id = running_id++; entities[this.id] = this].
    Returns the reference to the new body. *)
Definition Body_new (w : World) : nat * World :=
  let i := running_id w in
  (i, set_entities (array_set i i (entities w))
        (set_heap (<[i := Body_fields i]> (heap w))
           (set_running_id (S i) w))).

(** [update(delta_time)] *)
Definition Body_update (delta_time : Q) (b : Body) : Body :=
  set_position
    (mkVec (x (position b) + delta_time * x (velocity b))
           (y (position b) + delta_time * y (velocity b))) b.

(** [remove()]: [queued_entities_for_removal.push(this.id)]; a
    reference is the identity of the body behind it. *)
Definition Body_remove (this : nat) (w : World) : World :=
  set_queue (queued_entities_for_removal w ++ [this]) w.

(** ** [class Projectile] *)

(** [constructor()].  It reads the global [player], which [start()]
    assigned before any projectile can be made. *)
Definition Projectile_new (w : World) : nat * World :=
  let (this, w1) := Body_new w in
  let (a, g) := randomInt 0 6 (rng w1) in
  let at_player (b : Body) : Body :=
    match heap w1 !! player w1 with
    | Some p =>
        set_position
          (mkVec (x (position p))
                 (y (position p) - height (size p) - 3)) b
    | None => b
    end in
  (this,
   set_rng g
     (modify this
        (λ b, set_size (mkSize 3 12)
                (at_player
                   (set_acceleration a
                      (set_velocity (mkVec (x (velocity b)) (-100))
                         (set_type Projectile b))))) w1)).

(** The part of [update] that acts on the projectile itself. *)
Definition Projectile_step (delta_time : Q) (b : Body) : Body :=
  Body_update delta_time
    (set_velocity
       (mkVec (x (velocity b)) (y (velocity b) - inject_Z (acceleration b)))
       b).

(** [update(delta_time)] *)
Definition Projectile_update (delta_time : Q) (this : nat) (w : World)
  : World :=
  match heap w !! this with
  | Some b =>
      let w1 := if Qle_bool (y (position b)) (-5)
                then Body_remove this w else w in
      modify this (Projectile_step delta_time) w1
  | None => w
  end.

(** ** [class Player] *)

Section Steering.
(** The velocity rule of [Player.update], for any kind of number. *)
Context {N : Type} (mul : N -> N -> N) (of_Z : Z -> N) (sqrt1_2 : N).

Definition steer (speed_ : N) (c : Controller) : N * N :=
  let vx := mul speed_ (of_Z (move_x c)) in
  let vy := mul speed_ (of_Z (move_y c)) in
  if negb (move_x c =? 0)%Z && negb (move_y c =? 0)%Z
  then (mul vx sqrt1_2, mul vy sqrt1_2)
  else (vx, vy).
End Steering.

(** [constructor()] *)
Definition Player_new (w : World) : nat * World :=
  let (this, w1) := Body_new w in
  (this,
   modify this
     (λ b, set_size (mkSize 11 (height (size b)))
             (set_position
                (mkVec (inject_Z config.canvas_width / 2)
                       (inject_Z config.canvas_height - 100))
                (set_type Player (set_speed 120 b)))) w1).

(** [update], up to the decision to fire. *)
Definition Player_steer (delta_time : Q) (b : Body) : Body :=
  let b1 := set_lifeTime (lifeTime b + delta_time) b in
  let b2 := set_accumulator (accumulator b1 + delta_time) b1 in
  let (vx, vy) := steer Qmult inject_Z SQRT1_2 (speed b2) (controller b2) in
  set_velocity (mkVec vx vy) b2.

Definition Player_fires (b : Body) : bool :=
  action_1 (controller b) && Qle_bool 1 (accumulator b).

(** [update], from [super.update] on: move, then clip to the screen. *)
Definition Player_move (delta_time : Q) (b : Body) : Body :=
  let b1 := Body_update delta_time b in
  set_position
    (mkVec
       (Math_min (Math_max 0 (x (position b1)))
          (inject_Z config.canvas_width))
       (Math_min (Math_max 0 (y (position b1)))
          (inject_Z config.canvas_height))) b1.

(** [update(delta_time)] *)
Definition Player_update (delta_time : Q) (this : nat) (w : World) : World :=
  let w1 := modify this (Player_steer delta_time) w in
  let w2 :=
    match heap w1 !! this with
    | Some b =>
        if Player_fires b
        then modify this (set_accumulator 0) (snd (Projectile_new w1))
        else w1
    | None => w1
    end in
  modify this (Player_move delta_time) w2.

(** ** [class Mob] *)

(** [constructor()] *)
Definition Mob_new (w : World) : nat * World :=
  let (this, w1) := Body_new w in
  let (rx, g) := randomInt 20 (config.canvas_width - 20) (rng w1) in
  (this,
   set_rng g
     (modify this
        (λ b, set_size (mkSize 10 (height (size b)))
                (set_velocity (mkVec (x (velocity b)) 100)
                   (set_speed 100
                      (set_position (mkVec (inject_Z rx) (-12))
                         (set_type Mob
                            (set_switchTime (1 # 10)
                               (set_accumulator 0 b))))))) w1)).

(** The bounce off the left and right edges. *)
Definition Mob_bounce (b : Body) : Body :=
  if Qle_bool (inject_Z config.canvas_width - 5) (x (position b))
  then set_velocity (mkVec (- speed b) (y (velocity b))) b
  else if Qle_bool (x (position b)) 5
       then set_velocity (mkVec (speed b) (y (velocity b))) b
       else b.

(** [switch()] *)
Definition Mob_switch (b : Body) (g : Rng) : Body * Rng :=
  let (n, g1) := randomInt 1 3 g in
  let b1 :=
    match n with
    | 1%Z => set_velocity (mkVec (speed b * SQRT1_2) (speed b * SQRT1_2)) b
    | 2%Z => set_velocity (mkVec (- speed b * SQRT1_2) (speed b * SQRT1_2)) b
    | 3%Z => set_velocity (mkVec 0 (speed b)) b
    | _ => b
    end in
  let (t, g2) := randomInt 0 2 g1 in
  (set_accumulator 0 (set_switchTime (inject_Z t) b1), g2).

(** [update], on the mob and the oracle; the boolean tells whether
    [remove()] was called. *)
Definition Mob_step (delta_time : Q) (b : Body) (g : Rng)
  : Body * Rng * bool :=
  let b1 := set_accumulator (accumulator b + delta_time) b in
  let gone := Qle_bool (inject_Z config.canvas_height + 5) (y (position b1)) in
  let b2 := Body_update delta_time (Mob_bounce b1) in
  if Qle_bool (switchTime b2) (accumulator b2)
  then (Mob_switch b2 g, gone)
  else (b2, g, gone).

(** [update(delta_time)] *)
Definition Mob_update (delta_time : Q) (this : nat) (w : World) : World :=
  match heap w !! this with
  | Some b =>
      let '(b', g, gone) := Mob_step delta_time b (rng w) in
      let w1 := if gone then Body_remove this w else w in
      set_rng g (modify this (λ _, b') w1)
  | None => w
  end.

(** [entity.update(delta_time)]: the method of the body's class. *)
Definition entity_update (delta_time : Q) (this : nat) (w : World) : World :=
  match heap w !! this with
  | Some b =>
      match type b with
      | Player => Player_update delta_time this w
      | Projectile => Projectile_update delta_time this w
      | Mob => Mob_update delta_time this w
      end
  | None => w
  end.

(** ** [class Enemy_Spawner] *)

(** [update(delta_time)]; the spawner's only field is its accumulator. *)
Definition Enemy_Spawner_update (delta_time : Q) (w : World) : World :=
  let acc := enemy_spawner w + delta_time in
  if Qle_bool 5 acc then
    let w1 := snd (Mob_new (set_enemy_spawner acc w)) in
    set_enemy_spawner 0
      (modify (player w1) (λ p, set_mobCount (mobCount p + 1) p) w1)
  else set_enemy_spawner acc w.

(** ** [class CollissionChecker] *)

(** The rectangle test of the scan. *)
Definition overlaps (rect1 rect2 : Body) : bool :=
  Qltb (x (position rect1)) (x (position rect2) + width (size rect2)) &&
  Qltb (x (position rect2)) (x (position rect1) + width (size rect1)) &&
  Qltb (y (position rect1)) (y (position rect2) + height (size rect2)) &&
  Qltb (y (position rect2)) (y (position rect1) + height (size rect1)).

(** What the scan does with the ordered pair [(rect1, rect2)]. *)
Definition collide (r1 r2 : nat) (w : World) : World :=
  match heap w !! r1, heap w !! r2 with
  | Some rect1, Some rect2 =>
      if overlaps rect1 rect2 then
        if BodyType_eqb (type rect1) (type rect2) then w
        else
          match type rect1, type rect2 with
          | Player, Mob =>
              Body_remove r2
                (modify r1 (λ b, set_health (health b - 20) b) w)
          | Projectile, Mob =>
              modify (player w)
                (λ p, set_mobsKilled (mobsKilled p + 1) p)
                (Body_remove r1 (Body_remove r2 w))
          | _, _ => w
          end
      else w
  | _, _ => w
  end.

(** The inner loop, for a given [rect1]. *)
Definition scan_row (r1 : nat) (w : World) : World :=
  foldl (λ w j, match entities w !! j with
                | Some (Some r2) => collide r1 r2 w
                | _ => w
                end)
    w (seq 0 (length (entities w))).

(** [update(delta_time)] *)
Definition CollissionChecker_update (delta_time : Q) (w : World) : World :=
  foldl (λ w i, match entities w !! i with
                | Some (Some r1) => scan_row r1 w
                | _ => w
                end)
    w (seq 0 (length (entities w))).

(** ** The main section *)

(** [start()] *)
Definition start (w : World) : World :=
  let (p, w1) := Player_new (set_queue [] (set_entities [] w)) in
  set_enemy_spawner 0 (set_player p w1).

(** The phases of [update(delta_time)]. *)
Definition poll_input (w : World) : World :=
  modify (player w) pollController w.

Definition move_entities (delta_time : Q) (w : World) : World :=
  foldl (λ w r, entity_update delta_time r w) w (Object_values (entities w)).

Definition purge (w : World) : World :=
  set_queue []
    (set_entities
       (foldl (λ a i, array_delete i a) (entities w)
          (queued_entities_for_removal w)) w).

Definition restart_if_asked (w : World) : World :=
  match heap w !! player w with
  | Some p => if isDead p && action_1 (controller p) then start w else w
  | None => w
  end.

(** [update(delta_time)] *)
Definition update (delta_time : Q) (w : World) : World :=
  let w1 := poll_input w in
  let w2 := move_entities delta_time w1 in
  let w3 := CollissionChecker_update delta_time w2 in
  let w4 := purge w3 in
  let w5 := Enemy_Spawner_update delta_time w4 in
  restart_if_asked w5.

(** [draw(graphics)]: what it does to the world (the rest is drawing). *)
Definition draw (w : World) : World :=
  match heap w !! player w with
  | Some p => if isDead p then Body_remove (player w) w else w
  | None => w
  end.

(** The [while] loop of [loop]: the world and the local [delta_time]
    when the loop is left, or when [fuel] iterations were made.  The
    tick is the exact 1/60 and the subtraction is exact. *)
Fixpoint loop_while (fuel : nat) (curr_time delta_time : Q) (w : World)
  : World * Q :=
  match fuel with
  | O => (w, delta_time)
  | S fuel' =>
      if Qltb config.seconds delta_time then
        let w1 := draw (update config.seconds w) in
        loop_while fuel' curr_time (delta_time - config.seconds)
          (set_loop_count (S (loop_count w1))
             (set_last_time (Some curr_time) w1))
      else (w, delta_time)
  end.

(** Iterations after which [delta_time] is certainly no longer above one
    tick. *)
Definition loop_fuel (delta_time : Q) : nat :=
  Z.to_nat (Qceiling (delta_time / config.seconds)).

(** [loop(curr_time)], [curr_time] in milliseconds; the division and
    the difference are exact. *)
Definition loop (curr_time : Q) (w : World) : World :=
  let curr_time := curr_time / 1000 in
  let w1 := match last_time w with
            | None => set_last_time (Some curr_time) w
            | Some _ => w
            end in
  let delta_time :=
    curr_time - match last_time w1 with Some l => l | None => 0 end in
  fst (loop_while (loop_fuel delta_time) curr_time delta_time w1).

(** ** The page in the browser *)

Inductive Event :=
| KeyDown (key_code : nat)
| KeyUp (key_code : nat)
| Frame (curr_time : Q).

Definition step (w : World) (e : Event) : World :=
  match e with
  | KeyDown k => keydown k w
  | KeyUp k => keyup k w
  | Frame t => loop t w
  end.

Definition run (w : World) (es : list Event) : World := foldl step w es.

(** The globals as the script declares them, with [random] the oracle. *)
Definition globals (random : nat -> Q) : World :=
  {| running_id := 0; heap := ∅; entities := [];
     queued_entities_for_removal := []; player := 0; enemy_spawner := 0;
     last_time := None; loop_count := 0; rng := mkRng random 0 |}.

(** The script: the declarations, then [start()]. *)
Definition boot (random : nat -> Q) : World := start (globals random).

(** ** Vocabulary of the statements *)

(** The ordered pairs [(rect1, rect2)] the scan visits, in its order,
    when the bodies there are [l]. *)
Definition ordered_pairs (l : list nat) : list (nat * nat) :=
  flat_map (λ r1, map (pair r1) l) l.

Definition collide_pair (w : World) (p : nat * nat) : World :=
  collide p.1 p.2 w.

(** [rect1] of class [t1] and [rect2] of class [t2] overlap. *)
Definition hit (t1 t2 : BodyType) (w : World) (p : nat * nat) : bool :=
  match heap w !! p.1, heap w !! p.2 with
  | Some rect1, Some rect2 =>
      overlaps rect1 rect2 &&
      BodyType_eqb (type rect1) t1 && BodyType_eqb (type rect2) t2
  | _, _ => false
  end.

(** A body after [n] blows of 20 and [k] kills credited to it. *)
Definition hurt (n k : Z) (b : Body) : Body :=
  set_mobsKilled (mobsKilled b + k) (set_health (health b - 20 * n) b).

(** What one ordered pair adds to the removal queue. *)
Definition queued_by (w : World) (p : nat * nat) : list nat :=
  if hit Player Mob w p then [p.2]
  else if hit Projectile Mob w p then [p.2; p.1]
  else [].

(** The blows the body behind [r] takes from the pairs [ps]. *)
Definition blows (w : World) (r : nat) (ps : list (nat * nat)) : nat :=
  length (filter (λ p, p.1 = r ∧ hit Player Mob w p = true) ps).

(** The kills among the pairs [ps]. *)
Definition kills (w : World) (ps : list (nat * nat)) : nat :=
  length (filter (λ p, hit Projectile Mob w p = true) ps).

(** The store after the pairs [ps] were scanned from the world [w]. *)
Definition scanned_heap (w : World) (ps : list (nat * nat)) : gmap nat Body :=
  map_imap
    (λ r b, Some (hurt (Z.of_nat (blows w r ps))
                    (if decide (r = player w) then Z.of_nat (kills w ps)
                     else 0) b))
    (heap w).

(** A mob heads down: its speed is 100 and its vertical velocity is the
    speed or the speed times [SQRT1_2]. *)
Definition heads_down (b : Body) : Prop :=
  match type b with
  | Mob => speed b == 100 /\
           (y (velocity b) == 100 \/ y (velocity b) == 100 * SQRT1_2)
  | _ => True
  end.

(** A change to a body that keeps its identity, class, speed and
    vertical velocity. *)
Definition harmless (f : Body -> Body) : Prop :=
  ∀ b, id (f b) = id b ∧ type (f b) = type b ∧ speed (f b) = speed b ∧
       y (velocity (f b)) = y (velocity b).

(** What the store may hold: a body for every identity the counter has
    passed and for no other, each under its own identity, and mobs that
    head down. *)
Record wf_store (w : World) : Prop := {
  wf_heap : ∀ r b, heap w !! r = Some b →
            (r < running_id w)%nat ∧ id b = r ∧ heads_down b;
  wf_dense : ∀ r, (r < running_id w)%nat → is_Some (heap w !! r)
}.

(** The registry and the queue only know identities that the counter has
    passed, and a body sits in the slot of its identity.  [wf0] holds
    before [start()] has set [player]. *)
Record wf0 (w : World) : Prop := {
  wf_bodies : wf_store w;
  wf_slot : ∀ j r, entities w !! j = Some (Some r) →
            j = r ∧ (r < running_id w)%nat;
  wf_queue : Forall (λ r, (r < running_id w)%nat)
               (queued_entities_for_removal w)
}.

Definition wf (w : World) : Prop := wf0 w ∧ (player w < running_id w)%nat.

(** The clock of the main loop. *)
Definition clock (w : World) : option Q * nat := (last_time w, loop_count w).

(** [n] calls of [Projectile.update] on a projectile. *)
Fixpoint Projectile_steps (n : nat) (delta_time : Q) (b : Body) : Body :=
  match n with
  | O => b
  | S n' => Projectile_steps n' delta_time (Projectile_step delta_time b)
  end.

(** [n] calls of [Mob.update] on a mob. *)
Fixpoint Mob_steps (n : nat) (delta_time : Q) (b : Body) (g : Rng)
  : Body * Rng :=
  match n with
  | O => (b, g)
  | S n' => let '(b', g', _) := Mob_step delta_time b g in
            Mob_steps n' delta_time b' g'
  end.

(** The velocity rule over the reals, with the real [1/√2]. *)
Definition steer_R (c : Controller) : R * R :=
  steer Rmult IZR (/ sqrt 2)%R 120%R c.

Definition magnitude (v : R * R) : R := sqrt (v.1 * v.1 + v.2 * v.2)%R.

(** The frames of a session, at the times [ts] (milliseconds). *)
Definition frames (ts : list Q) : list Event := map Frame ts.

(** The times of the animation frames among the events [es]. *)
Definition frame_times (es : list Event) : list Q :=
  omap (λ e, match e with Frame t => Some t | _ => None end) es.

(** The times [ts] never go back, starting from [t]. *)
Fixpoint nondecreasing (t : Q) (ts : list Q) : Prop :=
  match ts with
  | [] => True
  | t' :: ts' => t <= t' ∧ nondecreasing t' ts'
  end.

(** A moment of a game: the player (body 0) has just fired a projectile
    (body 1), and a mob (body 2) has come down onto both of them. *)
Definition arena : World :=
  let w1 := boot (λ _, 1 # 2) in
  let w2 := snd (Projectile_new w1) in
  let w3 := snd (Mob_new w2) in
  modify 2 (set_position (mkVec 150 395)) w3.

(** The body behind the reference [r]. *)
Definition body_at (w : World) (r : nat) : Body :=
  default (Body_fields r) (heap w !! r).

(** ** Vocabulary of the further properties *)

(** [1] when the key is down, [0] when it is not. *)
Definition key (b : Body) (key_code : nat) : Z :=
  if bool_decide (key_code ∈ raw_input b) then 1%Z else 0%Z.

(** The score [draw] shows:
    [Math.floor(30 * player.mobsKilled + player.lifeTime)], with the sum
    exact. *)
Definition score (p : Body) : Z :=
  Qfloor (30 * inject_Z (mobsKilled p) + lifeTime p).

(** The test under which the [update] of a body calls [remove()]. *)
Definition leaves (b : Body) : bool :=
  match type b with
  | Player => false
  | Projectile => Qle_bool (y (position b)) (-5)
  | Mob => Qle_bool (inject_Z config.canvas_height + 5) (y (position b))
  end.

(** The horizontal lane of a mob when the ticks last [delta_time]: its
    speed is 100, it goes sideways at the speed at most, and it is at
    most one tick of travel past the walls at 5 and [width - 5]. *)
Definition in_lane (delta_time : Q) (b : Body) : Prop :=
  speed b == 100 ∧ -100 <= x (velocity b) <= 100 ∧
  5 - delta_time * 100 <= x (position b)
    <= inject_Z config.canvas_width - 5 + delta_time * 100.


(** What a body can become: it keeps its identity, class, size and
    speed, its health does not rise, and its kill count and life time do
    not fall. *)
Definition evolves (b b' : Body) : Prop :=
  id b' = id b ∧ type b' = type b ∧ size b' = size b ∧ speed b' = speed b ∧
  (health b' <= health b)%Z ∧ (mobsKilled b <= mobsKilled b')%Z ∧
  lifeTime b <= lifeTime b'.

(** Every body of [w] is still there in [w'], evolved. *)
Definition extends (w w' : World) : Prop :=
  ∀ r b, heap w !! r = Some b -> ∃ b', heap w' !! r = Some b' ∧ evolves b b'.

(** The removal queue between two ticks: empty, or just [player], who
    is dead. *)
Definition settled (w : World) : Prop :=
  queued_entities_for_removal w = [] ∨
  (queued_entities_for_removal w = [player w] ∧
   ∃ p, heap w !! player w = Some p ∧ isDead p = true).

(** [player] is a body of the store, of class Player. *)
Definition player_there (w : World) : Prop :=
  ∃ p, heap w !! player w = Some p ∧ type p = Player.

(** One turn of the [while] loop of [loop], in the frame at
    [curr_time]: a tick of the game, drawn, and counted. *)
Definition one_tick (curr_time : Q) (w : World) : World :=
  let w1 := draw (update config.seconds w) in
  set_loop_count (S (loop_count w1)) (set_last_time (Some curr_time) w1).

(** No Player is in the registry but [player]. *)
Definition one_player (w : World) : Prop :=
  ∀ r b, live w r -> heap w !! r = Some b -> type b = Player -> r = player w.

(** [player] is a Player of the store with the speed its class gives it,
    120. *)
Definition player_fast (w : World) : Prop :=
  ∃ p, heap w !! player w = Some p ∧ type p = Player ∧ speed p = 120.

(** * Properties *)

Ltac crush_field :=
  intros; repeat (case_match; simplify_eq/=); try reflexivity.

Ltac evolve_fields :=
  unfold evolves; cbn; repeat split; try done; try lia; try lra.

(** ** Numbers *)

Lemma Qltb_lt a b : Qltb a b = true <-> a < b.
Proof.
  unfold Qltb. rewrite negb_true_iff, <- not_true_iff_false, Qle_bool_iff.
  split; [apply Qnot_le_lt | apply Qlt_not_le].
Qed.

Lemma Qltb_ge a b : Qltb a b = false <-> b <= a.
Proof.
  unfold Qltb. rewrite negb_false_iff. apply Qle_bool_iff.
Qed.

Lemma Math_max_spec a b :
  (a < b /\ Math_max a b = b) \/ (b <= a /\ Math_max a b = a).
Proof.
  unfold Math_max. destruct (Qltb a b) eqn:E.
  - left. split; [by apply Qltb_lt | done].
  - right. split; [by apply Qltb_ge | done].
Qed.

Lemma Math_min_spec a b :
  (b < a /\ Math_min a b = b) \/ (a <= b /\ Math_min a b = a).
Proof.
  unfold Math_min. destruct (Qltb b a) eqn:E.
  - left. split; [by apply Qltb_lt | done].
  - right. split; [by apply Qltb_ge | done].
Qed.

Lemma randomInt_range lo hi g :
  (lo <= hi)%Z -> 0 <= rand_src g (rand_pos g) < 1 ->
  (lo <= (randomInt lo hi g).1 <= hi)%Z.
Proof.
  intros Hlh [H0 H1]. set (r := rand_src g (rand_pos g)) in *.
  change (randomInt lo hi g).1
    with (Qfloor (r * inject_Z (hi - lo + 1) + inject_Z lo)).
  assert (Hn : 0 < inject_Z (hi - lo + 1)).
  { change 0 with (inject_Z 0). rewrite <- Zlt_Qlt. lia. }
  assert (Hs : inject_Z (Z.succ hi) == inject_Z (hi - lo + 1) + inject_Z lo).
  { replace (Z.succ hi) with (hi - lo + 1 + lo)%Z by lia.
    rewrite inject_Z_plus. reflexivity. }
  set (n := inject_Z (hi - lo + 1)) in *. clearbody n r.
  assert (0 <= r * n) by (apply Qmult_le_0_compat; lra).
  assert (r * n < 1 * n) by (apply Qmult_lt_compat_r; lra).
  split.
  - rewrite <- (Qfloor_Z lo) at 1. apply Qfloor_resp_le. lra.
  - apply Z.lt_succ_r. rewrite Zlt_Qlt.
    eapply Qle_lt_trans; [apply Qfloor_le|]. lra.
Qed.

(** ** The shape of the collision scan *)

Lemma foldl_preserves {A B} (proj : World -> B) (f : World -> A -> World) l :
  (∀ w a, proj (f w a) = proj w) -> ∀ w, proj (foldl f w l) = proj w.
Proof.
  intros Hf. induction l as [|a l IH]; intros w; simpl; [done|].
  by rewrite IH, Hf.
Qed.

Lemma collide_entities r1 r2 w : entities (collide r1 r2 w) = entities w.
Proof. unfold collide. repeat case_match; reflexivity. Qed.

Lemma collide_pair_entities w p : entities (collide_pair w p) = entities w.
Proof. apply collide_entities. Qed.

(** A [for] loop over the indices of [entities] that skips the holes is
    a loop over [Object.values(entities)], when its body leaves the
    array alone. *)
Lemma index_loop_from (f : nat -> World -> World) :
  (∀ r w, entities (f r w) = entities w) ->
  ∀ (E2 E1 : list (option nat)) w, entities w = E1 ++ E2 ->
    foldl (λ w j, match entities w !! j with
                  | Some (Some r) => f r w
                  | _ => w
                  end) w (seq (length E1) (length E2))
    = foldl (λ w r, f r w) w (Object_values E2).
Proof.
  intros Hf. induction E2 as [|s E2 IH]; intros E1 w HE; [done|].
  cbn [length seq foldl].
  assert (Hs : entities w !! length E1 = Some s).
  { rewrite HE. by rewrite list_lookup_middle. }
  rewrite Hs.
  specialize (IH (E1 ++ [s])). rewrite length_app in IH. simpl in IH.
  replace (length E1 + 1)%nat with (S (length E1)) in IH by lia.
  destruct s as [r|]; unfold Object_values; simpl.
  - apply IH. rewrite Hf, HE. by rewrite <- app_assoc.
  - apply IH. rewrite HE. by rewrite <- app_assoc.
Qed.

Lemma index_loop (f : nat -> World -> World) w :
  (∀ r w, entities (f r w) = entities w) ->
  foldl (λ w j, match entities w !! j with
                | Some (Some r) => f r w
                | _ => w
                end) w (seq 0 (length (entities w)))
  = foldl (λ w r, f r w) w (Object_values (entities w)).
Proof.
  intros Hf. by apply (index_loop_from f Hf (entities w) []).
Qed.

Lemma scan_row_values r1 w :
  scan_row r1 w
  = foldl (λ w r2, collide r1 r2 w) w (Object_values (entities w)).
Proof. apply (index_loop (collide r1)). apply collide_entities. Qed.

Lemma scan_row_entities r1 w : entities (scan_row r1 w) = entities w.
Proof.
  rewrite scan_row_values. apply foldl_preserves.
  intros. apply collide_entities.
Qed.

Lemma foldl_collide_pairs w l :
  entities (foldl collide_pair w l) = entities w.
Proof. apply foldl_preserves. apply collide_pair_entities. Qed.

(** The scan is the pair rule applied to every ordered pair of bodies
    of the registry, the first component varying slowest. *)
Lemma scan_ordered_pairs delta_time w :
  CollissionChecker_update delta_time w
  = foldl collide_pair w (ordered_pairs (Object_values (entities w))).
Proof.
  unfold CollissionChecker_update.
  rewrite (index_loop scan_row) by apply scan_row_entities.
  unfold ordered_pairs.
  set (L := Object_values (entities w)).
  assert (HL : Object_values (entities w) = L) by done.
  clearbody L. revert HL. generalize L at 2 4.
  intros l. revert w. induction l as [|r1 l IH]; intros w HL; [done|].
  cbn [foldl flat_map]. rewrite foldl_app.
  assert (Hrow : scan_row r1 w = foldl collide_pair w (map (pair r1) L)).
  { rewrite scan_row_values, HL.
    clear. revert w. induction L as [|r2 L IH]; intros w; [done|].
    simpl. apply IH. }
  rewrite <- Hrow. apply IH. by rewrite scan_row_entities.
Qed.

Lemma CollissionChecker_entities delta_time w :
  entities (CollissionChecker_update delta_time w) = entities w.
Proof. rewrite scan_ordered_pairs. apply foldl_collide_pairs. Qed.

(** ** The effect of the collision scan *)

Lemma collide_pair_hit w p :
  collide_pair w p =
  if hit Player Mob w p then
    Body_remove p.2 (modify p.1 (λ b, set_health (health b - 20) b) w)
  else if hit Projectile Mob w p then
    modify (player w) (λ b, set_mobsKilled (mobsKilled b + 1) b)
      (Body_remove p.1 (Body_remove p.2 w))
  else w.
Proof.
  unfold collide_pair, collide, hit.
  destruct (heap w !! p.1) as [a|]; [|done].
  destruct (heap w !! p.2) as [b|]; [|done].
  destruct (overlaps a b); [|done].
  by destruct (type a), (type b).
Qed.

Lemma hit_scanned t1 t2 w w' p :
  (∀ r, ∃ n k, heap w' !! r = hurt n k <$> heap w !! r) ->
  hit t1 t2 w' p = hit t1 t2 w p.
Proof.
  intros H. unfold hit.
  destruct (H p.1) as (n1 & k1 & ->), (H p.2) as (n2 & k2 & ->).
  destruct (heap w !! p.1) as [a|]; [|done].
  by destruct (heap w !! p.2) as [b|].
Qed.

Lemma scanned_heap_lookup w ps r :
  scanned_heap w ps !! r
  = hurt (Z.of_nat (blows w r ps))
      (if decide (r = player w) then Z.of_nat (kills w ps) else 0)
    <$> heap w !! r.
Proof.
  unfold scanned_heap. rewrite map_lookup_imap.
  by destruct (heap w !! r).
Qed.

Lemma blows_snoc w r ps p :
  blows w r (ps ++ [p])
  = (blows w r ps
     + if decide (p.1 = r ∧ hit Player Mob w p = true) then 1 else 0)%nat.
Proof.
  unfold blows. rewrite filter_app, length_app. f_equal.
  rewrite filter_cons, filter_nil. by case_decide.
Qed.

Lemma kills_snoc w ps p :
  kills w (ps ++ [p])
  = (kills w ps + if hit Projectile Mob w p then 1 else 0)%nat.
Proof.
  unfold kills. rewrite filter_app, length_app. f_equal.
  rewrite filter_cons, filter_nil.
  destruct (hit Projectile Mob w p); by case_decide.
Qed.

Lemma hit_exclusive w p :
  hit Player Mob w p = true -> hit Projectile Mob w p = false.
Proof.
  unfold hit. destruct (heap w !! p.1) as [a|]; [|done].
  destruct (heap w !! p.2) as [b|]; [|done].
  destruct (overlaps a b), (type a), (type b); done.
Qed.

Lemma hurt_health n k b :
  set_health (health (hurt n k b) - 20) (hurt n k b) = hurt (n + 1) k b.
Proof. unfold hurt, set_health, set_mobsKilled. simpl. f_equal. lia. Qed.

Lemma hurt_kill n k b :
  set_mobsKilled (mobsKilled (hurt n k b) + 1) (hurt n k b)
  = hurt n (k + 1) b.
Proof. unfold hurt, set_health, set_mobsKilled. simpl. f_equal. lia. Qed.

(** The world after any run of ordered pairs: only the store and the
    queue change; every pair with a Player first and an overlapping Mob
    second costs that Player 20 health, every pair with a Projectile
    first and an overlapping Mob second credits one kill to [player]. *)
Lemma scanned_world w ps :
  foldl collide_pair w ps
  = set_queue (queued_entities_for_removal w ++ flat_map (queued_by w) ps)
      (set_heap (scanned_heap w ps) w).
Proof.
  induction ps as [|p ps IH] using rev_ind.
  - simpl. destruct w as [rid h e q pl sp lt lc g]. unfold set_queue, set_heap.
    simpl. rewrite app_nil_r. f_equal.
    apply map_eq. intros r. rewrite scanned_heap_lookup. simpl.
    destruct (h !! r) as [b|]; [|done]. simpl. f_equal.
    destruct b. unfold hurt, set_mobsKilled, set_health, blows, kills. simpl.
    f_equal; [lia | case_decide; lia].
  - rewrite foldl_app. cbn [foldl]. rewrite IH.
    set (wm := set_queue _ _).
    assert (Hwm : ∀ r, ∃ n k, heap wm !! r = hurt n k <$> heap w !! r).
    { intros r. eexists _, _. apply scanned_heap_lookup. }
    rewrite collide_pair_hit.
    rewrite !(hit_scanned _ _ w wm) by done.
    rewrite flat_map_app. cbn [flat_map]. rewrite app_nil_r.
    unfold queued_by.
    destruct (hit Player Mob w p) eqn:EP.
    + unfold wm, Body_remove, modify, set_queue, set_heap. simpl.
      rewrite <- app_assoc. f_equal.
      apply map_eq. intros r. rewrite scanned_heap_lookup, lookup_alter.
      rewrite kills_snoc, blows_snoc, (hit_exclusive _ _ EP), Nat.add_0_r.
      destruct (decide (p.1 = r)) as [Hr|Hr].
      * subst r. rewrite scanned_heap_lookup.
        rewrite (decide_True (P := _ ∧ _)) by (split; auto).
        destruct (heap w !! p.1) as [b|]; [|done].
        cbn [fmap option_fmap option_map]. f_equal.
        rewrite hurt_health. f_equal. lia.
      * rewrite scanned_heap_lookup.
        rewrite (decide_False (P := _ ∧ _)) by (intros [? _]; done).
        by rewrite Nat.add_0_r.
    + assert (Hno : ∀ r, ¬ (p.1 = r ∧ hit Player Mob w p = true))
        by (intros r [_ ?]; congruence).
      destruct (hit Projectile Mob w p) eqn:EK.
      * unfold wm, Body_remove, modify, set_queue, set_heap. simpl.
        rewrite <- !app_assoc. f_equal.
        apply map_eq. intros r. rewrite scanned_heap_lookup, lookup_alter.
        rewrite kills_snoc, blows_snoc, EK.
        rewrite (decide_False (P := _ ∧ _)) by apply Hno.
        rewrite Nat.add_0_r.
        destruct (decide (player w = r)) as [Hr|Hr].
        -- subst r. rewrite scanned_heap_lookup.
           rewrite decide_True by done.
           destruct (heap w !! player w) as [b|]; [|done].
           cbn [fmap option_fmap option_map]. f_equal.
           rewrite hurt_kill, decide_True by done. f_equal. lia.
        -- rewrite scanned_heap_lookup.
           by rewrite !decide_False by congruence.
      * unfold wm, set_queue, set_heap. simpl. rewrite app_nil_r. f_equal.
        apply map_eq. intros r. rewrite !scanned_heap_lookup.
        rewrite kills_snoc, blows_snoc, EK.
        rewrite (decide_False (P := _ ∧ _)) by apply Hno.
        by rewrite !Nat.add_0_r.
Qed.

(** The reverse of a pair that a rule fires on fires no rule. *)
Lemma hit_reverse_silent w p :
  hit Player Mob w p = true ∨ hit Projectile Mob w p = true ->
  queued_by w (p.2, p.1) = [] ∧
  hit Player Mob w (p.2, p.1) = false ∧
  hit Projectile Mob w (p.2, p.1) = false.
Proof.
  unfold queued_by, hit. simpl.
  destruct (heap w !! p.1) as [a|], (heap w !! p.2) as [b|];
    try (intros [?|?]; done).
  destruct (overlaps a b), (overlaps b a), (type a), (type b); simpl;
    intros [?|?]; done.
Qed.

Lemma blows_rows w r inner l :
  NoDup l -> r ∈ l ->
  length (filter (λ p, p.1 = r ∧ hit Player Mob w p = true)
            (flat_map (λ r1, map (pair r1) inner) l))
  = length (filter (λ m, hit Player Mob w (r, m) = true) inner).
Proof.
  intros Hnd Hr. induction Hnd as [|r1 l Hnotin Hnd IH].
  - by apply elem_of_nil in Hr.
  - cbn [flat_map]. rewrite filter_app, length_app.
    assert (Hrow : ∀ a, a ≠ r ->
      length (filter (λ p, p.1 = r ∧ hit Player Mob w p = true)
                (map (pair a) inner)) = 0%nat).
    { clear. intros a Ha. induction inner as [|m inner IH]; [done|].
      cbn [map]. rewrite filter_cons.
      by rewrite decide_False by (intros [? _]; done). }
    assert (Hrest : r ∉ l ->
      length (filter (λ p, p.1 = r ∧ hit Player Mob w p = true)
                (flat_map (λ r1, map (pair r1) inner) l)) = 0%nat).
    { clear -Hrow. intros Hn. induction l as [|a l IH]; [done|].
      cbn [flat_map]. rewrite filter_app, length_app, IH by set_solver.
      rewrite Hrow by set_solver. done. }
    apply elem_of_cons in Hr as [->|Hr].
    + rewrite Hrest by done. rewrite Nat.add_0_r. clear.
      induction inner as [|m inner IH]; [done|].
      cbn [map]. rewrite !filter_cons.
      destruct (hit Player Mob w (r1, m)) eqn:E.
      * rewrite !decide_True by (try split; done). simpl. by rewrite IH.
      * rewrite !decide_False
          by first [congruence | intros [_ ?]; simpl in *; congruence].
        done.
    + rewrite IH by done. rewrite Hrow; [done|]. by intros ->.
Qed.

(** In a registry without repetition, the blows a body takes are the
    mobs of the registry that overlap it, counted once each. *)
Lemma blows_ordered_pairs w r l :
  NoDup l -> r ∈ l ->
  blows w r (ordered_pairs l)
  = length (filter (λ m, hit Player Mob w (r, m) = true) l).
Proof. apply blows_rows. Qed.

(** ** Collision rules *)

(** C3.  When the scan reaches an ordered pair of overlapping bodies
    [(rect1, rect2)]: a Player first and a Mob second costs the Player
    exactly 20 health and queues the Mob for removal; a Projectile first
    and a Mob second queues the Mob and the Projectile and adds one to
    the kill count of [player]; every other combination of classes (the
    same class twice, the two orders of Player and Projectile, and the
    reverse orders Mob/Player and Mob/Projectile) changes nothing.  The
    scan applies this, and nothing else, to every ordered pair of bodies
    of the registry. *)
Theorem C3_collision_rules (delta_time : Q) (w : World) (r1 r2 : nat)
    (rect1 rect2 : Body) :
  heap w !! r1 = Some rect1 ->
  heap w !! r2 = Some rect2 ->
  overlaps rect1 rect2 = true ->
  CollissionChecker_update delta_time w
    = foldl collide_pair w (ordered_pairs (Object_values (entities w)))
  ∧ match type rect1, type rect2 with
    | Player, Mob =>
        collide r1 r2 w
        = set_queue (queued_entities_for_removal w ++ [r2])
            (set_heap
               (<[r1 := set_health (health rect1 - 20) rect1]> (heap w)) w)
    | Projectile, Mob =>
        collide r1 r2 w
        = set_queue (queued_entities_for_removal w ++ [r2; r1])
            (set_heap
               (alter (λ p, set_mobsKilled (mobsKilled p + 1) p) (player w)
                  (heap w)) w)
    | _, _ => collide r1 r2 w = w
    end.
Proof.
  intros H1 H2 Ho. split; [apply scan_ordered_pairs|].
  unfold collide. rewrite H1, H2, Ho.
  destruct (type rect1), (type rect2); simpl; try reflexivity.
  - unfold Body_remove, modify, set_queue, set_heap. simpl. f_equal.
    apply map_eq. intros r. rewrite lookup_alter, lookup_insert.
    case_decide; [subst; by rewrite H1 | done].
  - unfold Body_remove, modify, set_queue, set_heap. simpl.
    by rewrite <- app_assoc.
Qed.

(** The rules at work in [arena]: the player and the mob. *)
Lemma C3_collision_rules_witness :
  let rect1 := body_at arena 0 in
  let rect2 := body_at arena 2 in
  (type rect1 = Player ∧ type rect2 = Mob ∧ overlaps rect1 rect2 = true) ∧
  collide 0 2 arena
  = set_queue (queued_entities_for_removal arena ++ [2%nat])
      (set_heap
         (<[0%nat := set_health (health rect1 - 20) rect1]> (heap arena))
         arena).
Proof.
  intros rect1 rect2. split; [by vm_compute|].
  apply (C3_collision_rules 0 arena 0 2 rect1 rect2); by vm_compute.
Defined.

(** The registry of a well-formed world holds no body twice. *)
Lemma registry_NoDup w : wf w -> NoDup (Object_values (entities w)).
Proof.
  intros [[_ Hs _] _].
  assert (Hs' : ∀ j r, entities w !! j = Some (Some r) -> j = r)
    by (intros j r H; by apply Hs).
  clear Hs. revert Hs'. generalize (entities w) as E. clear w.
  intros E. unfold Object_values.
  assert (∀ E : list (option nat),
            (∀ j r, E !! j = Some (Some r) -> j = r) ->
            NoDup (omap (λ r, r) E) ∧
            ∀ r, r ∈ omap (λ r, r) E -> (r < length E)%nat) as H;
    [|intros; by apply H].
  clear E. induction E as [|s E IH] using rev_ind; intros Hs.
  - split; [apply NoDup_nil_2|]. intros r Hr. by apply elem_of_nil in Hr.
  - destruct IH as [Hnd Hlt].
    { intros j r Hj. apply Hs. rewrite lookup_app_l; [done|].
      by eapply lookup_lt_Some. }
    rewrite omap_app, length_app. cbn [omap length].
    destruct s as [r|]; cbn [app].
    + assert (r = length E) as ->.
      { symmetry. apply Hs. by rewrite list_lookup_middle. }
      split.
      * apply NoDup_app. split; [done|]. split; [|apply NoDup_singleton].
        intros x Hx Hx'. apply list_elem_of_singleton in Hx' as ->.
        apply Hlt in Hx. lia.
      * intros x Hx. apply elem_of_app in Hx as [Hx|Hx].
        -- apply Hlt in Hx. lia.
        -- apply list_elem_of_singleton in Hx as ->. lia.
    + rewrite app_nil_r. split; [done|]. intros x Hx. apply Hlt in Hx. lia.
Qed.

(** C1, as stated, fails.  In [arena] the player overlaps the mob and
    the projectile overlaps the mob, all three stay in the registry
    through the scan, and one scan takes 20 health from the player (not
    40) and counts one kill (not two). *)
Lemma C1_counterexample :
  let w' := CollissionChecker_update config.seconds arena in
  Object_values (entities arena) = [0; 1; 2]%nat ∧
  entities w' = entities arena ∧
  hit Player Mob arena (0, 2)%nat = true ∧
  hit Projectile Mob arena (1, 2)%nat = true ∧
  health (body_at w' 0) = (health (body_at arena 0) - 20)%Z ∧
  health (body_at w' 0) ≠ (health (body_at arena 0) - 40)%Z ∧
  mobsKilled (body_at w' 0) = (mobsKilled (body_at arena 0) + 1)%Z ∧
  mobsKilled (body_at w' 0) ≠ (mobsKilled (body_at arena 0) + 2)%Z.
Proof. by vm_compute. Qed.

(** C1, amended.  The scan visits both orders of every pair, but a rule
    fires only on the order with the Player, or the Projectile, first:
    the reverse order of a pair that fired is silent.  So with a
    registry [l] without repetition (as every well-formed world has it,
    [registry_NoDup]) one scan leaves the registry as it
    was, takes from every body 20 health for each mob of the registry
    that overlaps it while it is a Player, once per mob, and adds to the
    kill count of [player] one for each ordered pair of an overlapping
    Projectile and Mob, whose reverse never counts. *)
Theorem C1_scan_applies_once (delta_time : Q) (w : World) :
  let l := Object_values (entities w) in
  let w' := CollissionChecker_update delta_time w in
  NoDup l ->
  entities w' = entities w
  ∧ (∀ r b, r ∈ l -> heap w !! r = Some b ->
       ∃ b', heap w' !! r = Some b' ∧
         health b' =
           (health b - 20 * Z.of_nat
              (length (filter (λ m, hit Player Mob w (r, m) = true) l)))%Z)
  ∧ (∀ p, heap w !! player w = Some p ->
       ∃ p', heap w' !! player w = Some p' ∧
         mobsKilled p' =
           (mobsKilled p + Z.of_nat
              (length (filter (λ q, hit Projectile Mob w q = true)
                         (ordered_pairs l))))%Z)
  ∧ (∀ q, hit Player Mob w q = true ∨ hit Projectile Mob w q = true ->
       hit Player Mob w (q.2, q.1) = false ∧
       hit Projectile Mob w (q.2, q.1) = false ∧
       collide q.1 q.2 (collide q.2 q.1 w) = collide q.1 q.2 w).
Proof.
  intros l w' Hnd. subst w'. rewrite scan_ordered_pairs, scanned_world.
  fold l. split; [done|]. split; [|split].
  - intros r b Hr Hb. simpl. rewrite scanned_heap_lookup, Hb.
    eexists. split; [done|]. simpl.
    by rewrite blows_ordered_pairs.
  - intros p Hp. simpl. rewrite scanned_heap_lookup, Hp.
    eexists. split; [done|]. simpl. by rewrite decide_True.
  - intros q Hq. destruct (hit_reverse_silent w q Hq) as (_ & H1 & H2).
    split; [done|]. split; [done|].
    f_equal. change (collide q.2 q.1 w) with (collide_pair w (q.2, q.1)).
    by rewrite collide_pair_hit, H1, H2.
Qed.

(** The amended statement at work in [arena]. *)
Lemma C1_scan_applies_once_witness :
  let w' := CollissionChecker_update config.seconds arena in
  NoDup (Object_values (entities arena)) ∧
  ∃ b', heap w' !! 0%nat = Some b' ∧
        health b' = (health (body_at arena 0) - 20 * 1)%Z.
Proof.
  intros w'.
  assert (Hnd : NoDup (Object_values (entities arena)))
    by (apply (bool_decide_unpack _); by vm_compute).
  split; [exact Hnd|].
  destruct (C1_scan_applies_once config.seconds arena Hnd) as (_ & H & _).
  destruct (H 0%nat (body_at arena 0)) as (b' & Hb' & Hh).
  - apply (bool_decide_unpack _). by vm_compute.
  - by vm_compute.
  - exists b'. split; [exact Hb'|]. rewrite Hh. by vm_compute.
Defined.

(** ** The player *)

Lemma modify_lookup r f w : heap (modify r f w) !! r = f <$> heap w !! r.
Proof. unfold modify. simpl. by rewrite lookup_alter_eq. Qed.

Lemma modify_lookup_ne r r' f w :
  r ≠ r' -> heap (modify r f w) !! r' = heap w !! r'.
Proof. intros. unfold modify. simpl. by rewrite lookup_alter_ne. Qed.

Lemma clip_spec (p hi : Q) :
  0 <= hi ->
  let c := Math_min (Math_max 0 p) hi in
  0 <= c <= hi ∧ (p < 0 -> c == 0) ∧ (hi < p -> c == hi) ∧
  (0 <= p <= hi -> c == p).
Proof.
  intros Hhi c. subst c.
  destruct (Math_max_spec 0 p) as [[? ->]|[? ->]];
    [destruct (Math_min_spec p hi) as [[? ->]|[? ->]]
    |destruct (Math_min_spec 0 hi) as [[? ->]|[? ->]]];
    repeat split; intros; lra.
Qed.

(** ** Projectiles *)

Lemma Body_new_heap w r :
  heap (Body_new w).2 !! r
  = if decide (running_id w = r) then Some (Body_fields (running_id w))
    else heap w !! r.
Proof. unfold Body_new. simpl. by rewrite lookup_insert. Qed.

(** The body [Projectile]'s constructor leaves behind [this]. *)
Lemma Projectile_new_body w :
  heap (Projectile_new w).2 !! (Projectile_new w).1
  = Some
      (set_size (mkSize 3 12)
         (match heap (Body_new w).2 !! player w with
          | Some p =>
              set_position
                (mkVec (x (position p))
                       (y (position p) - height (size p) - 3))
          | None => λ b, b
          end
            (set_acceleration (randomInt 0 6 (rng w)).1
               (set_velocity (mkVec 0 (-100))
                  (set_type Projectile (Body_fields (running_id w))))))).
Proof.
  unfold Projectile_new.
  set (w1 := (Body_new w).2).
  change (Body_new w) with (running_id w, w1).
  cbv beta iota.
  change (rng w1) with (rng w). change (player w1) with (player w).
  destruct (randomInt 0 6 (rng w)) as [a g].
  cbn [fst snd]. unfold set_rng. cbn [heap]. rewrite modify_lookup.
  assert (Hl : heap w1 !! running_id w = Some (Body_fields (running_id w))).
  { unfold w1. rewrite Body_new_heap. by rewrite decide_True. }
  rewrite Hl. cbn [fmap option_fmap option_map]. f_equal.
  by destruct (heap w1 !! player w).
Qed.

(** C6, as stated, fails.  The first projectile of a game: the player is
    at (150, 400) and 10 high; the projectile is made at x = 150 and
    y = 387, which is the player's y less its height and 3, and not the
    player's y less half its height and 3 (that is 392): the offset, 13,
    is more than the whole height of the player. *)
Lemma C6_counterexample :
  let w := boot (λ _, 1 # 2) in
  let p := body_at w (player w) in
  let b := body_at (Projectile_new w).2 (Projectile_new w).1 in
  type b = Projectile ∧
  x (position b) == x (position p) ∧
  y (position p) == 400 ∧ height (size p) == 10 ∧
  height (half_size p) == 5 ∧
  y (position b) == 387 ∧
  y (position p) - y (position b) == height (size p) + 3 ∧
  ¬ y (position b) == y (position p) - height (half_size p) - 3 ∧
  height (size p) < y (position p) - y (position b).
Proof. by vm_compute. Qed.

(** C6, amended.  A projectile is made at the player's x, at the
    player's y less the player's height (the whole [size.height], not
    [half_size.height]) less 3. *)
Theorem C6_projectile_spawn_position (w : World) (p : Body) :
  heap w !! player w = Some p ->
  player w ≠ running_id w ->
  ∃ b, heap (Projectile_new w).2 !! (Projectile_new w).1 = Some b ∧
       type b = Projectile ∧
       position b
       = mkVec (x (position p)) (y (position p) - height (size p) - 3).
Proof.
  intros Hp Hne. eexists. split; [apply Projectile_new_body|].
  rewrite Body_new_heap, decide_False, Hp by done. done.
Qed.

Lemma C6_projectile_spawn_position_witness :
  let w := boot (λ _, 1 # 2) in
  ∃ b, heap (Projectile_new w).2 !! (Projectile_new w).1 = Some b ∧
       type b = Projectile ∧
       position b
       = mkVec (x (position (body_at w 0)))
           (y (position (body_at w 0)) - height (size (body_at w 0)) - 3).
Proof.
  intros w.
  apply (C6_projectile_spawn_position w (body_at w 0)); by vm_compute.
Defined.

Lemma Projectile_update_body delta_time this w :
  heap (Projectile_update delta_time this w) !! this
  = Projectile_step delta_time <$> heap w !! this.
Proof.
  unfold Projectile_update. destruct (heap w !! this) as [b|] eqn:E.
  - rewrite modify_lookup. by destruct (Qle_bool _ _); simpl; rewrite E.
  - by rewrite E.
Qed.

Lemma Projectile_steps_velocity n delta_time b :
  acceleration (Projectile_steps n delta_time b) = acceleration b ∧
  y (velocity (Projectile_steps n delta_time b))
  == y (velocity b) - inject_Z (Z.of_nat n * acceleration b).
Proof.
  revert b. induction n as [|n IH]; intros b.
  - split; [done|]. cbn [Projectile_steps]. rewrite Z.mul_0_l.
    change (inject_Z 0) with 0. lra.
  - cbn [Projectile_steps]. destruct (IH (Projectile_step delta_time b))
      as [-> ->].
    change (acceleration (Projectile_step delta_time b))
      with (acceleration b).
    change (y (velocity (Projectile_step delta_time b)))
      with (y (velocity b) - inject_Z (acceleration b)).
    split; [done|].
    replace (Z.of_nat (S n) * acceleration b)%Z
      with (acceleration b + Z.of_nat n * acceleration b)%Z by lia.
    rewrite inject_Z_plus. lra.
Qed.

(** C4, as stated, fails.  The first projectile of a game whose oracle
    says 1/2: it starts at -100 with [acceleration] 3, and its first
    update makes its vertical velocity -103: the vertical speed went up
    from 100 to 103, it did not go down. *)
Lemma C4_counterexample :
  let w := (Projectile_new (boot (λ _, 1 # 2))).2 in
  let w' := Projectile_update config.seconds 1 w in
  type (body_at w 1) = Projectile ∧
  acceleration (body_at w 1) = 3%Z ∧
  y (velocity (body_at w 1)) == -100 ∧
  y (velocity (body_at w' 1)) == -103 ∧
  Qabs (y (velocity (body_at w 1))) < Qabs (y (velocity (body_at w' 1))) ∧
  ¬ Qabs (y (velocity (body_at w' 1))) < Qabs (y (velocity (body_at w 1))).
Proof. by vm_compute. Qed.

(** C4, amended.  A projectile starts with velocity (0, -100) and an
    integer [acceleration] in [0, 6] (when [Math.random] answers in
    [0, 1)).  Each update takes [acceleration] off the vertical velocity
    once, so after [n] updates the velocity is [-100 - n * acceleration]:
    the vertical speed grows by [acceleration] per update (it is constant
    when [acceleration] is 0), the shot speeds up in its own direction. *)
Theorem C4_projectile_accelerates (w : World) (n : nat) (delta_time : Q) :
  0 <= rand_src (rng w) (rand_pos (rng w)) < 1 ->
  (∀ this w0, heap (Projectile_update delta_time this w0) !! this
              = Projectile_step delta_time <$> heap w0 !! this) ∧
  ∃ b, heap (Projectile_new w).2 !! (Projectile_new w).1 = Some b ∧
       type b = Projectile ∧
       velocity b = mkVec 0 (-100) ∧
       (0 <= acceleration b <= 6)%Z ∧
       y (velocity (Projectile_steps n delta_time b))
       == -100 - inject_Z (Z.of_nat n * acceleration b) ∧
       Qabs (y (velocity (Projectile_steps n delta_time b)))
       == 100 + inject_Z (Z.of_nat n * acceleration b).
Proof.
  intros Hr. split; [intros; apply Projectile_update_body|].
  eexists. split; [apply Projectile_new_body|].
  set (a := (randomInt 0 6 (rng w)).1).
  assert (Ha : (0 <= a <= 6)%Z) by (by apply randomInt_range).
  set (b := set_size _ _).
  assert (Hb : type b = Projectile ∧ velocity b = mkVec 0 (-100)
               ∧ acceleration b = a).
  { unfold b. by destruct (heap (Body_new w).2 !! player w). }
  destruct Hb as (Ht & Hv & Hacc).
  split; [done|]. split; [done|]. split; [by rewrite Hacc|].
  destruct (Projectile_steps_velocity n delta_time b) as [_ Hy].
  rewrite Hv, Hacc in Hy. simpl in Hy. rewrite Hacc.
  split; [exact Hy|]. rewrite Hy.
  assert (0 <= inject_Z (Z.of_nat n * a)).
  { change 0 with (inject_Z 0). rewrite <- Zle_Qle. lia. }
  rewrite Qabs_neg by lra. lra.
Qed.

Lemma C4_projectile_accelerates_witness :
  let w := boot (λ _, 1 # 2) in
  0 <= rand_src (rng w) (rand_pos (rng w)) < 1 ∧
  ∃ b, heap (Projectile_new w).2 !! (Projectile_new w).1 = Some b ∧
       type b = Projectile ∧
       velocity b = mkVec 0 (-100) ∧
       (0 <= acceleration b <= 6)%Z ∧
       y (velocity (Projectile_steps 5 config.seconds b))
       == -100 - inject_Z (Z.of_nat 5 * acceleration b) ∧
       Qabs (y (velocity (Projectile_steps 5 config.seconds b)))
       == 100 + inject_Z (Z.of_nat 5 * acceleration b).
Proof.
  intros w.
  assert (H : 0 <= rand_src (rng w) (rand_pos (rng w)) < 1) by (by vm_compute).
  split; [exact H|].
  exact (proj2 (C4_projectile_accelerates w 5 config.seconds H)).
Defined.

(** ** Steering *)

(** Whatever keys are down, [pollController] leaves each axis at -1, 0
    or 1. *)
Lemma pollController_axes b :
  let c := controller (pollController b) in
  (move_x c = -1 ∨ move_x c = 0 ∨ move_x c = 1)%Z ∧
  (move_y c = -1 ∨ move_y c = 0 ∨ move_y c = 1)%Z.
Proof.
  unfold pollController, button_mappings, axis_mappings.
  cbn [foldl controller set_controller].
  unfold poll_button, poll_axis, resetController.
  destruct (bool_decide (32%nat ∈ raw_input b)),
    (bool_decide (65%nat ∈ raw_input b)),
    (bool_decide (68%nat ∈ raw_input b)),
    (bool_decide (83%nat ∈ raw_input b)),
    (bool_decide (87%nat ∈ raw_input b)); cbn [move_x move_y]; lia.
Qed.

Lemma inv_sqrt2_sqr : (/ sqrt 2 * / sqrt 2 = / 2)%R.
Proof.
  rewrite <- Rinv_mult. f_equal. apply sqrt_sqrt. Lra.lra.
Qed.

Lemma sqrt_120 (v : R) : (v = 120 * 120 -> sqrt v = 120)%R.
Proof. intros ->. apply sqrt_square. Lra.lra. Qed.

(** The rational velocity the code computes, with [Math.SQRT1_2] the
    binary64 constant and the arithmetic exact: its square is 120² when
    one axis is zero, and within 10^-11 of 120² on a diagonal. *)
Lemma steer_Q_close (c : Controller) :
  (move_x c = -1 ∨ move_x c = 0 ∨ move_x c = 1)%Z ->
  (move_y c = -1 ∨ move_y c = 0 ∨ move_y c = 1)%Z ->
  (move_x c ≠ 0 ∨ move_y c ≠ 0)%Z ->
  let v := steer Qmult inject_Z SQRT1_2 120 c in
  Qabs (v.1 * v.1 + v.2 * v.2 - 120 * 120) < 1 # 100000000000.
Proof.
  destruct c as [mx my a]. cbn [move_x move_y].
  intros [-> | [-> | ->]] [-> | [-> | ->]] Hnz; try (by vm_compute).
  by destruct Hnz.
Qed.

Lemma Player_steer_velocity delta_time b :
  (x (velocity (Player_steer delta_time b)),
   y (velocity (Player_steer delta_time b)))
  = steer Qmult inject_Z SQRT1_2 (speed b) (controller b).
Proof.
  unfold Player_steer. cbn [speed controller set_accumulator set_lifeTime].
  by destruct (steer _ _ _ _ _).
Qed.

(** ** The clock of the main loop *)

Lemma Projectile_new_clock w : clock (Projectile_new w).2 = clock w.
Proof. unfold Projectile_new, Body_new. crush_field. Qed.

Lemma Mob_new_clock w : clock (Mob_new w).2 = clock w.
Proof. unfold Mob_new, Body_new. crush_field. Qed.

Lemma Player_new_clock w : clock (Player_new w).2 = clock w.
Proof. unfold Player_new, Body_new. crush_field. Qed.

Lemma entity_update_clock delta_time this w :
  clock (entity_update delta_time this w) = clock w.
Proof.
  unfold entity_update, Player_update, Projectile_update, Mob_update.
  destruct (heap w !! this) as [b|]; [|done].
  destruct (type b).
  - change (clock (modify this (Player_steer delta_time) w)) with (clock w).
    set (w1 := modify this (Player_steer delta_time) w).
    change (clock w) with (clock w1).
    destruct (heap w1 !! this) as [b1|]; [|done].
    destruct (Player_fires b1); [|done].
    apply (Projectile_new_clock w1).
  - by destruct (Qle_bool _ _).
  - destruct (Mob_step delta_time b (rng w)) as [[b' g] gone].
    by destruct gone.
Qed.

Lemma start_clock w : clock (start w) = clock w.
Proof.
  unfold start.
  pose proof (Player_new_clock (set_queue [] (set_entities [] w))) as H.
  by destruct (Player_new _).
Qed.

Lemma update_clock delta_time w : clock (update delta_time w) = clock w.
Proof.
  unfold update, restart_if_asked, Enemy_Spawner_update, purge, poll_input.
  set (w3 := CollissionChecker_update _ _).
  assert (H3 : clock w3 = clock w).
  { unfold w3. rewrite scan_ordered_pairs, scanned_world.
    change (clock (set_queue ?q (set_heap ?h ?w0))) with (clock w0).
    unfold move_entities.
    rewrite (foldl_preserves clock)
      by (intros; apply entity_update_clock).
    done. }
  clearbody w3.
  set (w4 := set_queue _ _). change (clock w3) with (clock w4) in H3.
  clearbody w4.
  set (w5 := if Qle_bool _ _ then _ else _).
  assert (H5 : clock w5 = clock w).
  { unfold w5. destruct (Qle_bool _ _); [|done].
    rewrite <- H3.
    apply (Mob_new_clock (set_enemy_spawner (enemy_spawner w4 + delta_time) w4)). }
  clearbody w5.
  destruct (heap w5 !! player w5) as [p|]; [|done].
  destruct (isDead p && action_1 (controller p)); [|done].
  by rewrite start_clock.
Qed.

Lemma draw_clock w : clock (draw w) = clock w.
Proof.
  unfold draw. destruct (heap w !! player w) as [p|]; [|done].
  by destruct (isDead p).
Qed.

Lemma tick_positive : 0 < config.seconds.
Proof. done. Qed.

(** What the [while] loop does to the clock, when it has the fuel to end
    by itself: it makes [k] ticks, [delta_time] ends at most one tick
    long, and either no tick was made and the clock is as it was, or
    [last_time] is now [curr_time] and what is left of [delta_time],
    more than nothing, is dropped. *)
Lemma loop_while_clock fuel curr_time :
  ∀ delta_time w,
    delta_time <= inject_Z (Z.of_nat fuel) * config.seconds ->
    let r := loop_while fuel curr_time delta_time w in
    ∃ k : nat,
      loop_count r.1 = (loop_count w + k)%nat ∧
      r.2 == delta_time - inject_Z (Z.of_nat k) * config.seconds ∧
      r.2 <= config.seconds ∧
      ((k = 0%nat ∧ last_time r.1 = last_time w) ∨
       ((0 < k)%nat ∧ 0 < r.2 ∧ last_time r.1 = Some curr_time)).
Proof.
  pose proof tick_positive as Ht.
  induction fuel as [|fuel IH]; intros d w Hd.
  - exists 0%nat. cbn [loop_while fst snd].
    change (inject_Z (Z.of_nat 0)) with 0 in *.
    repeat split; [lia | lra | lra | by left].
  - cbn [loop_while]. destruct (Qltb config.seconds d) eqn:E.
    + apply Qltb_lt in E.
      set (w1 := set_loop_count _ _).
      assert (Hd' : d - config.seconds
                    <= inject_Z (Z.of_nat fuel) * config.seconds).
      { rewrite Nat2Z.inj_succ, <- Z.add_1_r, inject_Z_plus in Hd.
        change (inject_Z 1) with 1 in Hd. lra. }
      destruct (IH (d - config.seconds) w1 Hd') as (k & Hc & Hr & Hle & Hk).
      exists (S k). split; [|split; [|split]].
      * rewrite Hc. unfold w1. cbn [loop_count set_loop_count].
        pose proof (update_clock config.seconds w) as Hu.
        pose proof (draw_clock (update config.seconds w)) as Hdr.
        unfold clock in Hu, Hdr. injection Hu as _ Hu.
        injection Hdr as _ Hdr. lia.
      * rewrite Hr, Nat2Z.inj_succ, <- Z.add_1_r, inject_Z_plus.
        change (inject_Z 1) with 1. lra.
      * exact Hle.
      * right. split; [lia|].
        destruct Hk as [[-> Hl] | (_ & Hp & Hl)].
        -- split; [|by rewrite Hl].
           change (inject_Z (Z.of_nat 0)) with 0 in Hr. lra.
        -- by split.
    + apply Qltb_ge in E. exists 0%nat. cbn [fst snd].
      change (inject_Z (Z.of_nat 0)) with 0.
      repeat split; [lia | lra | lra | by left].
Qed.

Lemma div_tick (q : Q) : q / config.seconds == q * 60.
Proof. unfold config.seconds, config.fps. field. Qed.

Lemma tick_60 : config.seconds * 60 == 1.
Proof. done. Qed.

Lemma ms_le (a b : Q) : a <= b -> a / 1000 <= b / 1000.
Proof. intros. apply Qmult_le_compat_r; [assumption | discriminate]. Qed.

Lemma last_default {A} (l : list A) (a d d' : A) :
  List.last (a :: l) d = List.last (a :: l) d'.
Proof.
  revert a. induction l as [|b l IH]; intros a; [done|].
  change (List.last (b :: l) d = List.last (b :: l) d'). apply IH.
Qed.

Lemma loop_fuel_enough delta_time :
  delta_time <= inject_Z (Z.of_nat (loop_fuel delta_time)) * config.seconds.
Proof.
  unfold loop_fuel. pose proof (Qle_ceiling (delta_time / config.seconds)) as H.
  set (c := Qceiling _) in *. clearbody c. rewrite div_tick in H.
  pose proof tick_60 as H60. set (tick := config.seconds) in *. clearbody tick.
  destruct (Z.le_gt_cases 0 c) as [Hc|Hc].
  - rewrite Z2Nat.id by done. nra.
  - replace (Z.to_nat c) with 0%nat by lia.
    assert (inject_Z c <= inject_Z (-1)) by (rewrite <- Zle_Qle; lia).
    change (inject_Z (Z.of_nat 0)) with 0. change (inject_Z (-1)) with (-1) in *.
    lra.
Qed.

(** With the fuel to end by itself, the [while] loop does not depend on
    the fuel. *)
Lemma loop_while_enough curr_time f1 :
  ∀ f2 delta_time w,
    delta_time <= inject_Z (Z.of_nat f1) * config.seconds ->
    (f1 <= f2)%nat ->
    loop_while f2 curr_time delta_time w
    = loop_while f1 curr_time delta_time w.
Proof.
  pose proof tick_positive as Ht.
  induction f1 as [|f1 IH]; intros f2 d w Hd Hf.
  - change (inject_Z (Z.of_nat 0)) with 0 in Hd.
    destruct f2 as [|f2]; [done|]. cbn [loop_while].
    replace (Qltb config.seconds d) with false; [done|].
    symmetry. apply Qltb_ge. lra.
  - destruct f2 as [|f2]; [lia|]. cbn [loop_while].
    destruct (Qltb config.seconds d); [|done].
    apply IH; [|lia].
    rewrite Nat2Z.inj_succ, <- Z.add_1_r, inject_Z_plus in Hd.
    change (inject_Z 1) with 1 in Hd. lra.
Qed.

(** The fuel [loop] gives the [while] loop is enough: the loop is left
    because its test fails, and more fuel changes nothing. *)
Lemma loop_while_ends curr_time delta_time w fuel :
  (loop_fuel delta_time <= fuel)%nat ->
  loop_while fuel curr_time delta_time w
  = loop_while (loop_fuel delta_time) curr_time delta_time w ∧
  Qltb config.seconds
    (loop_while (loop_fuel delta_time) curr_time delta_time w).2 = false.
Proof.
  intros Hf. split.
  - apply loop_while_enough; [apply loop_fuel_enough | done].
  - destruct (loop_while_clock (loop_fuel delta_time) curr_time delta_time w
                (loop_fuel_enough delta_time)) as (k & _ & _ & Hle & _).
    by apply Qltb_ge.
Qed.

(** One animation frame, once [last_time] is set: with [d] the time
    since [last_time], the frame makes [k] ticks; [k] is 0 when [d] is
    at most one tick, and then [last_time] stays; otherwise
    [k * tick < d <= (k + 1) * tick] and [last_time] becomes the time of
    the frame. *)
Lemma loop_clock t w l :
  last_time w = Some l ->
  let d := t / 1000 - l in
  ∃ k : nat,
    loop_count (loop t w) = (loop_count w + k)%nat ∧
    ((k = 0%nat ∧ d <= config.seconds ∧ last_time (loop t w) = Some l) ∨
     ((0 < k)%nat ∧
      inject_Z (Z.of_nat k) * config.seconds < d
        <= inject_Z (Z.of_nat k + 1) * config.seconds ∧
      last_time (loop t w) = Some (t / 1000))).
Proof.
  intros Hl d. unfold loop. rewrite Hl. cbv beta iota zeta.
  rewrite Hl. fold d.
  destruct (loop_while_clock (loop_fuel d) (t / 1000) d w
              (loop_fuel_enough d)) as (k & Hc & Hr & Hle & Hk).
  exists k. split; [exact Hc|].
  rewrite inject_Z_plus. change (inject_Z 1) with 1.
  destruct Hk as [[-> Hk] | (Hk & Hp & Hlast)].
  - left. change (inject_Z (Z.of_nat 0)) with 0 in Hr.
    split; [done|]. split; [lra|]. etrans; [exact Hk | exact Hl].
  - right. split; [done|]. split; [lra | exact Hlast].
Qed.

(** The first animation frame only sets [last_time]. *)
Lemma loop_first t w :
  last_time w = None -> clock (loop t w) = (Some (t / 1000), loop_count w).
Proof.
  intros Hl. unfold loop. rewrite Hl. cbv beta iota zeta.
  cbn [last_time set_last_time].
  set (d := t / 1000 - t / 1000).
  assert (Hd : d == 0) by (unfold d; lra).
  pose proof tick_positive.
  destruct (loop_fuel d) as [|f]; [done|]. cbn [loop_while].
  replace (Qltb config.seconds d) with false; [done|].
  symmetry. apply Qltb_ge. lra.
Qed.

Lemma step_key_clock w e :
  match e with Frame _ => True | _ => clock (step w e) = clock w end.
Proof. by destruct e. Qed.

(** Along a session whose frame times never go back, the ticks made,
    times the tick, never exceed [last_time] less the time of the first
    frame, and [last_time] is never ahead of the last frame. *)
Lemma run_clock_bound (B : Q) :
  ∀ es w tl l,
    last_time w = Some l -> l <= tl / 1000 ->
    inject_Z (Z.of_nat (loop_count w)) * config.seconds <= B + l ->
    nondecreasing tl (frame_times es) ->
    ∃ l', last_time (run w es) = Some l' ∧
          l' <= List.last (frame_times es) tl / 1000 ∧
          (loop_count w <= loop_count (run w es))%nat ∧
          inject_Z (Z.of_nat (loop_count (run w es))) * config.seconds
          <= B + l'.
Proof.
  induction es as [|e es IH]; intros w tl l Hl Hle HB Hnd.
  - exists l. by repeat split.
  - destruct e as [k|k|t].
    + apply (IH (keydown k w) tl l); done.
    + apply (IH (keyup k w) tl l); done.
    + cbn [frame_times omap] in Hnd |- *. fold (frame_times es) in *.
      destruct Hnd as [Htl Hnd]. cbn [run foldl step].
      destruct (loop_clock t w l Hl) as (k & Hc & Hk).
      apply ms_le in Htl.
      assert (∃ l1, last_time (loop t w) = Some l1 ∧ l1 <= t / 1000 ∧
                inject_Z (Z.of_nat (loop_count (loop t w))) * config.seconds
                <= B + l1) as (l1 & Hl1 & Hle1 & HB1).
      { set (s := t / 1000) in *. set (sl := tl / 1000) in *.
        set (tick := config.seconds) in *. clearbody s sl tick. clear IH.
        destruct Hk as [(-> & _ & Hlast) | (_ & [Hlo _] & Hlast)].
        - exists l. split; [done|]. split; [lra|].
          by rewrite Hc, Nat.add_0_r.
        - exists s. split; [done|]. split; [lra|].
          rewrite Hc, Nat2Z.inj_add, inject_Z_plus. lra. }
      destruct (IH (loop t w) t l1 Hl1 Hle1 HB1 Hnd) as (l' & H1 & H2 & H3 & H4).
      exists l'. split; [exact H1|].
      split; [|split; [etrans; [|exact H3]; lia | exact H4]].
      change (frame_times (Frame t :: es)) with (t :: frame_times es).
      destruct (frame_times es) as [|q qs]; [exact H2|].
      change (List.last (t :: q :: qs) tl) with (List.last (q :: qs) tl).
      by rewrite (last_default qs q tl t).
Qed.

(** C2, as stated, fails.  Frames every 25 ms, from 0 to 200 ms: every
    frame after the first comes 25 ms after [last_time], makes one tick
    of 1/60 s and moves [last_time] to its own time, so the 8.33 ms left
    are dropped each time.  After 200 ms the loop has made 8 ticks, and
    floor(0.2 / (1/60)) is 12. *)
Lemma C2_counterexample :
  let w0 := boot (λ _, 1 # 2) in
  let w := run w0 (frames [0; 25; 50; 75; 100; 125; 150; 175; 200]) in
  let elapsed := (200 - 0) / 1000 in
  loop_count w0 = 0%nat ∧
  loop_count (run w0 (frames [0; 25])) = 1%nat ∧
  last_time (run w0 (frames [0; 25])) = Some (25 / 1000) ∧
  loop_count w = 8%nat ∧
  Qfloor (elapsed / config.seconds) = 12%Z ∧
  ¬ (Z.abs (Z.of_nat (loop_count w) - Qfloor (elapsed / config.seconds))
     <= 1)%Z.
Proof. by vm_compute. Qed.

(** C2, amended.  A frame that comes [d] seconds after [last_time] makes
    [k] ticks, with [k] between [d / tick - 2] and [d / tick + 1]: none
    only if [d] is less than two ticks, and [k > 0] only if
    [(k - 1) * tick < d < (k + 2) * tick].  A frame that makes a tick
    sets [last_time] to its own time: what is left of [d] after the
    ticks is dropped.  Only a frame that makes no tick leaves
    [last_time] as it was, so that its time carries over to the next
    frame.  So, over a session whose frame times never go back, the
    ticks made are at most floor(total_elapsed / tick) + 1, and can be
    fewer.

    In the exact arithmetic of this development [k] is the whole number
    with [k * tick < d <= (k + 1) * tick] ([loop_clock]) and the ticks
    of a session are at most floor(total_elapsed / tick).  The source
    computes [d] and the subtractions in binary64: when [d] is at, or
    within a rounding of, a whole number of ticks it can make one tick
    more or less (three ticks in a frame of 50 ms, where the exact loop
    makes two).  The statement leaves a margin of one tick for that, and
    is made for frame times within an hour of time 0, where the
    roundings stay far below the margin. *)
Theorem C2_ticks_bounded (w : World) (t0 : Q) (es : list Event) :
  last_time w = None ->
  nondecreasing t0 (frame_times es) ->
  0 <= t0 -> List.last (frame_times es) t0 <= 3600000 ->
  let w' := run w (Frame t0 :: es) in
  let elapsed := (List.last (frame_times es) t0 - t0) / 1000 in
  (loop_count w <= loop_count w')%nat ∧
  (Z.of_nat (loop_count w' - loop_count w)
   <= Qfloor (elapsed / config.seconds) + 1)%Z ∧
  (∀ t w1 l, last_time w1 = Some l -> 0 <= l -> t <= 3600000 ->
     let d := t / 1000 - l in
     ∃ k : nat,
       loop_count (loop t w1) = (loop_count w1 + k)%nat ∧
       ((k = 0%nat ∧ d < 2 * config.seconds ∧
         last_time (loop t w1) = Some l) ∨
        ((0 < k)%nat ∧
         inject_Z (Z.of_nat k - 1) * config.seconds < d
           < inject_Z (Z.of_nat k + 2) * config.seconds ∧
         last_time (loop t w1) = Some (t / 1000)))).
Proof.
  intros Hnone Hnd _ _ w' elapsed.
  split; [|split].
  3:{ intros t w1 l Hl _ _ d.
      destruct (loop_clock t w1 l Hl) as (k & Hc & Hk). fold d in Hk.
      exists k. split; [exact Hc|].
      pose proof tick_positive as Ht.
      rewrite inject_Z_plus in Hk. unfold Zminus.
      rewrite !inject_Z_plus, inject_Z_opp.
      change (inject_Z 1) with 1 in *. change (inject_Z 2) with 2.
      set (m := inject_Z (Z.of_nat k)) in *.
      set (tick := config.seconds) in *. clearbody d m tick.
      destruct Hk as [(Hk & Hd & Hlast) | (Hk & [Hlo Hhi] & Hlast)];
        [left | right]; (split; [exact Hk|]); (split; [|exact Hlast]).
      - lra.
      - split; lra. }
  all: pose proof (loop_first t0 w Hnone) as Hf; unfold clock in Hf;
    injection Hf as Hl Hc;
    destruct (run_clock_bound
                (inject_Z (Z.of_nat (loop_count w)) * config.seconds
                 - t0 / 1000)
                es (loop t0 w) t0 (t0 / 1000) Hl)
      as (l' & Hl' & Hle & Hmono & HB);
    [apply Qle_refl | rewrite Hc; lra | exact Hnd | ].
  - unfold w'. cbn [run foldl step]. fold (run (loop t0 w) es). lia.
  - unfold w'. cbn [run foldl step]. fold (run (loop t0 w) es).
    rewrite Hc in Hmono.
    set (n := loop_count (run (loop t0 w) es)) in *.
    apply Z.le_trans with (Qfloor (elapsed / config.seconds)); [|lia].
    rewrite <- (Qfloor_Z (Z.of_nat (n - loop_count w))).
    apply Qfloor_resp_le. rewrite div_tick.
    assert (He : elapsed == List.last (frame_times es) t0 / 1000 - t0 / 1000)
      by (unfold elapsed; field).
    rewrite He.
    replace (Z.of_nat (n - loop_count w))
      with (Z.of_nat n - Z.of_nat (loop_count w))%Z by lia.
    unfold Zminus. rewrite inject_Z_plus, inject_Z_opp.
    pose proof tick_60 as H60.
    set (a := inject_Z (Z.of_nat n)) in *.
    set (c := inject_Z (Z.of_nat (loop_count w))) in *.
    set (s := List.last (frame_times es) t0 / 1000) in *.
    set (s0 := t0 / 1000) in *. set (tick := config.seconds) in *.
    clearbody a c s s0 tick. clear -HB Hle H60. nra.
Qed.

(** Frames every 25 ms from 0 to 100 ms: 4 ticks, where
    floor(0.1 / (1/60)) + 1 is 7. *)
Lemma C2_ticks_bounded_witness :
  let w := boot (λ _, 1 # 2) in
  let w' := run w (Frame 0 :: frames [25; 50; 75; 100]) in
  (last_time w = None ∧ nondecreasing 0 [25; 50; 75; 100] ∧
   0 <= 0 ∧ 100 <= 3600000) ∧
  (Z.of_nat (loop_count w' - loop_count w) <= 7)%Z.
Proof.
  intros w w'.
  assert (H1 : last_time w = None) by reflexivity.
  assert (H2 : nondecreasing 0 (frame_times (frames [25; 50; 75; 100])))
    by (by vm_compute).
  assert (H3 : 0 <= 0) by done.
  assert (H4 : List.last (frame_times (frames [25; 50; 75; 100])) 0
               <= 3600000) by (by vm_compute).
  split; [by repeat split|].
  exact (proj1 (proj2 (C2_ticks_bounded w 0 (frames [25; 50; 75; 100])
                         H1 H2 H3 H4))).
Defined.

(** ** Well-formed worlds *)

Lemma heads_down_harmless f b : harmless f -> heads_down b -> heads_down (f b).
Proof.
  intros Hf. destruct (Hf b) as (_ & Ht & Hs & Hv).
  unfold heads_down. by rewrite Ht, Hs, Hv.
Qed.

Lemma heads_down_other b : type b ≠ Mob -> heads_down b.
Proof. unfold heads_down. by destruct (type b). Qed.

Lemma wf_store_frame w w' :
  running_id w' = running_id w -> heap w' = heap w ->
  wf_store w -> wf_store w'.
Proof. intros Hr Hh [H1 H2]. split; rewrite Hr, Hh; done. Qed.

Lemma wf0_modify r f w :
  wf0 w ->
  (∀ b, heap w !! r = Some b -> id (f b) = id b ∧ heads_down (f b)) ->
  wf0 (modify r f w).
Proof.
  intros [[Hh Hd] Hs Hq] Hf. split; [split|exact Hs|exact Hq].
  - intros r' b'. cbn [modify heap set_heap running_id]. rewrite lookup_alter.
    case_decide as Hr; [subst r'|apply Hh].
    destruct (heap w !! r) as [b|] eqn:E; [|done]. intros [= <-].
    destruct (Hh r b E) as (? & ? & ?), (Hf b eq_refl) as [Hi Hd'].
    by rewrite Hi.
  - intros r' Hr'. cbn [modify heap set_heap running_id] in *.
    rewrite lookup_alter. case_decide; [subst r'|by apply Hd].
    by apply fmap_is_Some, Hd.
Qed.

Lemma wf_modify r f w :
  wf w ->
  (∀ b, heap w !! r = Some b -> id (f b) = id b ∧ heads_down (f b)) ->
  wf (modify r f w).
Proof. intros [H0 Hp] Hf. split; [by apply wf0_modify | exact Hp]. Qed.

Lemma wf_modify_harmless r f w : wf w -> harmless f -> wf (modify r f w).
Proof.
  intros Hw Hf. apply wf_modify; [done|]. intros b Hb.
  split; [apply Hf|]. apply heads_down_harmless; [done|].
  destruct Hw as [[[Hh _] _ _] _]. by apply (Hh r b).
Qed.

Lemma wf_Body_remove this w :
  wf w -> (this < running_id w)%nat -> wf (Body_remove this w).
Proof.
  intros [[Hh Hs Hq] Hp] Ht.
  split; [split; [by apply (wf_store_frame w) | exact Hs |] | exact Hp].
  cbn [Body_remove queued_entities_for_removal set_queue running_id].
  apply Forall_app. split; [done|]. by apply Forall_singleton.
Qed.

Lemma array_set_lookup_eq i v a : array_set i v a !! i = Some (Some v).
Proof.
  unfold array_set. case_decide as H.
  - by apply list_lookup_insert_eq.
  - rewrite lookup_app_r by lia. rewrite lookup_app_r; rewrite length_replicate;
      [|lia].
    by replace (i - length a - (i - length a))%nat with 0%nat by lia.
Qed.

Lemma array_set_lookup_ne i v a j s :
  j ≠ i -> array_set i v a !! j = Some (Some s) -> a !! j = Some (Some s).
Proof.
  intros Hne. unfold array_set. case_decide as H.
  - by rewrite list_lookup_insert_ne.
  - destruct (decide (j < length a)%nat) as [Hj|Hj].
    + by rewrite lookup_app_l.
    + rewrite lookup_app_r by lia.
      destruct (decide (j - length a < i - length a)%nat) as [Hk|Hk].
      * rewrite lookup_app_l by (by rewrite length_replicate).
        rewrite lookup_replicate_2 by done. done.
      * rewrite lookup_app_r by (rewrite length_replicate; lia).
        rewrite length_replicate.
        destruct (j - length a - (i - length a))%nat as [|n] eqn:E; [lia|].
        done.
Qed.

Lemma array_set_keeps i v a j s :
  j ≠ i -> a !! j = Some s -> array_set i v a !! j = Some s.
Proof.
  intros Hne Hj. unfold array_set. case_decide as H.
  - by rewrite list_lookup_insert_ne.
  - rewrite lookup_app_l; [done|]. by eapply lookup_lt_Some.
Qed.

Lemma wf0_Body_new w : wf0 w -> wf0 (Body_new w).2.
Proof.
  intros [[Hh Hd] Hs Hq]. split; [split|..].
  - intros r b. rewrite Body_new_heap. cbn [Body_new snd running_id
      set_entities set_heap set_running_id].
    case_decide as Hr.
    + intros [= <-]. subst r. split; [lia|]. split; [done|].
      by apply heads_down_other.
    + intros Hb. destruct (Hh r b Hb) as (? & ? & ?). split; [lia|done].
  - intros r Hr. rewrite Body_new_heap.
    cbn [Body_new snd running_id set_entities set_heap set_running_id] in Hr.
    case_decide; [done|]. apply Hd. lia.
  - intros j r. cbn [Body_new snd running_id entities set_entities set_heap
      set_running_id].
    destruct (decide (j = running_id w)) as [->|Hj].
    + rewrite array_set_lookup_eq. intros [= <-]. split; [done|lia].
    + intros H. apply array_set_lookup_ne in H; [|done].
      destruct (Hs j r H). split; [done|lia].
  - cbn [Body_new snd running_id queued_entities_for_removal set_entities
      set_heap set_running_id].
    eapply Forall_impl; [exact Hq|]. intros; simpl in *; lia.
Qed.

Lemma wf_Body_new w : wf w -> wf (Body_new w).2.
Proof.
  intros [H0 Hp]. split; [by apply wf0_Body_new|].
  cbn [Body_new snd running_id player set_entities set_heap set_running_id].
  lia.
Qed.

Lemma wf_frame w w' :
  running_id w' = running_id w -> heap w' = heap w ->
  entities w' = entities w ->
  queued_entities_for_removal w' = queued_entities_for_removal w ->
  player w' = player w -> wf w -> wf w'.
Proof.
  intros Hr Hh He Hq Hp [[H1 H2 H3] H4].
  split; [split; [by apply (wf_store_frame w)|..]|];
    rewrite ?Hr, ?Hh, ?He, ?Hq, ?Hp; done.
Qed.

Lemma wf_set_rng g w : wf w -> wf (set_rng g w).
Proof. by apply wf_frame. Qed.

Lemma wf_set_enemy_spawner a w : wf w -> wf (set_enemy_spawner a w).
Proof. by apply wf_frame. Qed.

Lemma Projectile_new_wf w :
  wf w ->
  wf (Projectile_new w).2 ∧
  running_id (Projectile_new w).2 = S (running_id w) ∧
  (Projectile_new w).1 = running_id w.
Proof.
  intros Hw. unfold Projectile_new.
  set (w1 := (Body_new w).2). change (Body_new w) with (running_id w, w1).
  cbv beta iota. destruct (randomInt 0 6 (rng w1)) as [a g].
  cbn [fst snd]. split; [|done].
  apply wf_set_rng, wf_modify; [by apply wf_Body_new|].
  intros b _. destruct (heap w1 !! player w1); split;
    try apply heads_down_other; done.
Qed.

Lemma Mob_new_wf w :
  wf w ->
  wf (Mob_new w).2 ∧
  running_id (Mob_new w).2 = S (running_id w) ∧
  (Mob_new w).1 = running_id w.
Proof.
  intros Hw. unfold Mob_new.
  set (w1 := (Body_new w).2). change (Body_new w) with (running_id w, w1).
  cbv beta iota.
  destruct (randomInt 20 (config.canvas_width - 20) (rng w1)) as [rx g].
  cbn [fst snd]. split; [|done].
  apply wf_set_rng, wf_modify; [by apply wf_Body_new|].
  intros b _. split; [done|]. unfold heads_down. simpl.
  split; [reflexivity | left; reflexivity].
Qed.

Lemma Player_new_wf0 w :
  wf0 w ->
  wf0 (Player_new w).2 ∧
  running_id (Player_new w).2 = S (running_id w) ∧
  (Player_new w).1 = running_id w.
Proof.
  intros Hw. unfold Player_new.
  set (w1 := (Body_new w).2). change (Body_new w) with (running_id w, w1).
  cbv beta iota. cbn [fst snd]. split; [|done].
  apply wf0_modify; [by apply wf0_Body_new|].
  intros b _. split; [done|]. by apply heads_down_other.
Qed.

(** Steps of bodies keep what [wf] asks of them. *)
Lemma Player_steer_keeps delta_time b :
  id (Player_steer delta_time b) = id b ∧
  type (Player_steer delta_time b) = type b.
Proof.
  unfold Player_steer. by destruct (steer _ _ _ _ _).
Qed.

Lemma Player_move_harmless delta_time : harmless (Player_move delta_time).
Proof. by intros b. Qed.

Lemma pollController_harmless : harmless pollController.
Proof. by intros b. Qed.

Lemma Mob_bounce_keeps b :
  id (Mob_bounce b) = id b ∧ type (Mob_bounce b) = type b ∧
  speed (Mob_bounce b) = speed b ∧
  y (velocity (Mob_bounce b)) = y (velocity b) ∧
  position (Mob_bounce b) = position b ∧
  accumulator (Mob_bounce b) = accumulator b ∧
  switchTime (Mob_bounce b) = switchTime b.
Proof. unfold Mob_bounce. by repeat case_match. Qed.

Lemma Mob_switch_keeps b g :
  type b = Mob -> speed b == 100 ->
  (y (velocity b) == 100 ∨ y (velocity b) == 100 * SQRT1_2) ->
  let b' := (Mob_switch b g).1 in
  id b' = id b ∧ type b' = Mob ∧ speed b' = speed b ∧
  position b' = position b ∧
  (y (velocity b') == 100 ∨ y (velocity b') == 100 * SQRT1_2).
Proof.
  intros Ht Hs Hv. unfold Mob_switch.
  destruct (randomInt 1 3 g) as [n g1].
  destruct (randomInt 0 2 g1) as [t g2]. cbn [fst].
  repeat split; try (by repeat case_match).
  assert (Hss : speed b * SQRT1_2 == 100 * SQRT1_2) by (by rewrite Hs).
  repeat case_match; simpl; auto.
Qed.

(** After [Mob.update] a mob is a mob that heads down, and it has moved
    by [delta_time] times the velocity it came with. *)
Lemma Mob_step_keeps delta_time b g :
  type b = Mob -> heads_down b ->
  let b' := (Mob_step delta_time b g).1.1 in
  id b' = id b ∧ type b' = Mob ∧ heads_down b' ∧
  y (position b') = y (position b) + delta_time * y (velocity b).
Proof.
  intros Ht Hd. unfold heads_down in Hd. rewrite Ht in Hd.
  destruct Hd as [Hs Hv]. unfold Mob_step.
  set (b1 := set_accumulator _ b).
  destruct (Mob_bounce_keeps b1) as (Hi & Hty & Hsp & Hvy & Hpos & _).
  set (b2 := Body_update delta_time (Mob_bounce b1)).
  assert (H2 : id b2 = id b ∧ type b2 = Mob ∧ speed b2 = speed b ∧
               y (velocity b2) = y (velocity b) ∧
               y (position b2) = y (position b) + delta_time * y (velocity b)).
  { unfold b2, Body_update. simpl. rewrite Hi, Hty, Hsp, Hvy, Hpos. done. }
  destruct H2 as (H2i & H2t & H2s & H2v & H2p).
  destruct (Qle_bool (switchTime b2) (accumulator b2)); cbn [fst].
  - destruct (Mob_switch_keeps b2 g) as (Ki & Kt & Ks & Kp & Kv);
      [done | by rewrite H2s | by rewrite H2v |].
    split; [congruence|]. split; [done|]. split.
    + unfold heads_down. rewrite Kt, Ks, H2s. done.
    + by rewrite Kp.
  - split; [done|]. split; [done|]. split; [|done].
    unfold heads_down. by rewrite H2t, H2s, H2v.
Qed.

Lemma wf_lookup w r b :
  wf w -> heap w !! r = Some b ->
  (r < running_id w)%nat ∧ id b = r ∧ heads_down b.
Proof. intros [[[Hh _] _ _] _]. apply Hh. Qed.

Lemma Player_update_wf delta_time this w b :
  wf w -> heap w !! this = Some b -> type b = Player ->
  wf (Player_update delta_time this w) ∧
  (running_id w <= running_id (Player_update delta_time this w))%nat.
Proof.
  intros Hw Hb Ht. unfold Player_update.
  set (w1 := modify this (Player_steer delta_time) w).
  assert (Hw1 : wf w1).
  { apply wf_modify; [done|]. intros b0 Hb0.
    destruct (Player_steer_keeps delta_time b0) as [Hi Hty].
    split; [done|]. apply heads_down_other. rewrite Hty.
    replace b0 with b by congruence. by rewrite Ht. }
  change (running_id w) with (running_id w1).
  destruct (heap w1 !! this) as [b1|].
  - destruct (Player_fires b1).
    + destruct (Projectile_new_wf w1 Hw1) as (Hw2 & Hr & _).
      split; [|cbn [modify running_id set_heap]; lia].
      apply wf_modify_harmless; [|done].
      apply wf_modify_harmless; done.
    + split; [|done]. by apply wf_modify_harmless.
  - split; [|done]. by apply wf_modify_harmless.
Qed.

Lemma Projectile_update_wf delta_time this w b :
  wf w -> heap w !! this = Some b -> type b = Projectile ->
  wf (Projectile_update delta_time this w) ∧
  (running_id w <= running_id (Projectile_update delta_time this w))%nat.
Proof.
  intros Hw Hb Ht. unfold Projectile_update. rewrite Hb.
  destruct (wf_lookup w this b Hw Hb) as (Hlt & _ & _).
  assert (Hstep : ∀ w0, wf w0 -> heap w0 !! this = Some b ->
                        wf (modify this (Projectile_step delta_time) w0)).
  { intros w0 Hw0 Hb0. apply wf_modify; [done|]. intros b0 Hb0'.
    replace b0 with b by congruence. split; [done|].
    apply heads_down_other. simpl. by rewrite Ht. }
  destruct (Qle_bool _ _); (split; [|done]).
  - apply Hstep; [by apply wf_Body_remove | done].
  - by apply Hstep.
Qed.

Lemma Mob_update_wf delta_time this w b :
  wf w -> heap w !! this = Some b -> type b = Mob ->
  wf (Mob_update delta_time this w) ∧
  (running_id w <= running_id (Mob_update delta_time this w))%nat.
Proof.
  intros Hw Hb Ht. unfold Mob_update. rewrite Hb.
  destruct (wf_lookup w this b Hw Hb) as (Hlt & Hid & Hd).
  destruct (Mob_step_keeps delta_time b (rng w) Ht Hd) as (Ki & Kt & Kd & _).
  destruct (Mob_step delta_time b (rng w)) as [[b' g] gone].
  cbn [fst] in *.
  assert (Hput : ∀ w0, wf w0 -> wf (set_rng g (modify this (λ _, b') w0))).
  { intros w0 Hw0. apply wf_set_rng, wf_modify; [done|]. intros b0 Hb0.
    destruct (wf_lookup w0 this b0 Hw0 Hb0) as (_ & Hid0 & _).
    split; [congruence | done]. }
  destruct gone; (split; [|done]).
  - by apply Hput, wf_Body_remove.
  - by apply Hput.
Qed.

Lemma entity_update_wf delta_time this w :
  wf w ->
  wf (entity_update delta_time this w) ∧
  (running_id w <= running_id (entity_update delta_time this w))%nat.
Proof.
  intros Hw. unfold entity_update.
  destruct (heap w !! this) as [b|] eqn:Hb; [|done].
  destruct (type b) eqn:Ht.
  - by apply (Player_update_wf _ _ _ b).
  - by apply (Projectile_update_wf _ _ _ b).
  - by apply (Mob_update_wf _ _ _ b).
Qed.

Lemma move_entities_wf delta_time w :
  wf w ->
  wf (move_entities delta_time w) ∧
  (running_id w <= running_id (move_entities delta_time w))%nat.
Proof.
  unfold move_entities. generalize (Object_values (entities w)) as l.
  intros l. revert w. induction l as [|r l IH]; intros w Hw; [done|].
  cbn [foldl]. destruct (entity_update_wf delta_time r w Hw) as [H1 H2].
  destruct (IH _ H1) as [H3 H4]. split; [done | lia].
Qed.

Lemma collide_wf r1 r2 w : wf w -> wf (collide r1 r2 w).
Proof.
  intros Hw. unfold collide.
  destruct (heap w !! r1) as [a|] eqn:Ha; [|done].
  destruct (heap w !! r2) as [b|] eqn:Hb; [|done].
  destruct (wf_lookup w r1 a Hw Ha) as (H1 & _ & _).
  destruct (wf_lookup w r2 b Hw Hb) as (H2 & _ & _).
  destruct (overlaps a b); [|done].
  destruct (BodyType_eqb _ _); [done|].
  destruct (type a), (type b); try done.
  - apply wf_Body_remove; [|done]. by apply wf_modify_harmless.
  - apply wf_modify_harmless; [|done].
    apply wf_Body_remove; [|done]. by apply wf_Body_remove.
Qed.

Lemma CollissionChecker_wf delta_time w :
  wf w ->
  wf (CollissionChecker_update delta_time w) ∧
  running_id (CollissionChecker_update delta_time w) = running_id w.
Proof.
  intros Hw. rewrite scan_ordered_pairs. split.
  - generalize (ordered_pairs (Object_values (entities w))) as ps.
    intros ps. revert w Hw. induction ps as [|p ps IH]; intros w Hw; [done|].
    cbn [foldl]. apply IH. by apply collide_wf.
  - by rewrite scanned_world.
Qed.

Lemma deleted_lookup q : ∀ (a : list (option nat)) j r,
  foldl (λ a i, array_delete i a) a q !! j = Some (Some r) ->
  a !! j = Some (Some r) ∧ j ∉ q.
Proof.
  induction q as [|i q IH]; intros a j r H.
  - split; [done | apply not_elem_of_nil].
  - cbn [foldl] in H. apply IH in H as [H Hq]. unfold array_delete in H.
    destruct (decide (i = j)) as [->|Hne].
    + destruct (decide (j < length a)%nat).
      * by rewrite list_lookup_insert_eq in H.
      * rewrite list_insert_ge in H by lia.
        apply lookup_lt_Some in H. lia.
    + rewrite list_lookup_insert_ne in H by done.
      split; [done|]. rewrite not_elem_of_cons. done.
Qed.

Lemma purge_wf w : wf w -> wf (purge w) ∧ running_id (purge w) = running_id w.
Proof.
  intros [[Hh Hs Hq] Hp]. split; [|done].
  split; [split; [by apply (wf_store_frame w) | | by apply Forall_nil]
         | exact Hp].
  intros j r H. cbn [purge entities set_queue set_entities running_id] in *.
  apply deleted_lookup in H as [H _]. by apply Hs.
Qed.

Lemma Enemy_Spawner_wf delta_time w :
  wf w ->
  wf (Enemy_Spawner_update delta_time w) ∧
  (running_id w <= running_id (Enemy_Spawner_update delta_time w))%nat.
Proof.
  intros Hw. unfold Enemy_Spawner_update.
  destruct (Qle_bool _ _).
  - set (w0 := set_enemy_spawner _ w).
    destruct (Mob_new_wf w0) as (H1 & H2 & _);
      [by apply wf_set_enemy_spawner|].
    split.
    + by apply wf_set_enemy_spawner, wf_modify_harmless.
    + cbn [set_enemy_spawner modify set_heap running_id]. rewrite H2.
      unfold w0. cbn [set_enemy_spawner running_id]. lia.
  - split; [by apply wf_set_enemy_spawner | done].
Qed.

(** [start()] needs nothing of the registry, the queue or [player] it
    replaces, and leaves the counter one further. *)
Lemma start_wf w :
  wf_store w ->
  wf (start w) ∧ running_id (start w) = S (running_id w) ∧
  player (start w) = running_id w.
Proof.
  intros Hh. unfold start.
  set (w0 := set_queue [] (set_entities [] w)).
  assert (H0 : wf0 w0).
  { split; [by apply (wf_store_frame w) | | by apply Forall_nil].
    intros j r H. by destruct j. }
  destruct (Player_new_wf0 w0 H0) as (H1 & H2 & H3).
  destruct (Player_new w0) as [p w1]. cbn [fst snd] in *. subst p.
  split; [|done]. split.
  - destruct H1 as [A B C].
    split; [by apply (wf_store_frame w1) | exact B | exact C].
  - cbn [set_enemy_spawner set_player player running_id]. rewrite H2.
    unfold w0. cbn [set_queue set_entities running_id]. lia.
Qed.

Lemma restart_wf w :
  wf w ->
  wf (restart_if_asked w) ∧
  (running_id w <= running_id (restart_if_asked w))%nat.
Proof.
  intros Hw. unfold restart_if_asked.
  destruct (heap w !! player w) as [p|]; [|done].
  destruct (isDead p && action_1 (controller p)); [|done].
  destruct Hw as [[Hh _ _] _].
  destruct (start_wf w Hh) as (H1 & H2 & _). split; [done | lia].
Qed.

Lemma poll_input_wf w : wf w -> wf (poll_input w).
Proof.
  intros. apply wf_modify_harmless; [done | apply pollController_harmless].
Qed.

Lemma update_wf delta_time w :
  wf w ->
  wf (update delta_time w) ∧
  (running_id w <= running_id (update delta_time w))%nat.
Proof.
  intros Hw. unfold update.
  pose proof (poll_input_wf w Hw) as H1.
  destruct (move_entities_wf delta_time _ H1) as [H2 R2].
  destruct (CollissionChecker_wf delta_time _ H2) as [H3 R3].
  destruct (purge_wf _ H3) as [H4 R4].
  destruct (Enemy_Spawner_wf delta_time _ H4) as [H5 R5].
  destruct (restart_wf _ H5) as [H6 R6].
  split; [done|].
  change (running_id (poll_input w)) with (running_id w) in R2. lia.
Qed.

Lemma draw_wf w : wf w -> wf (draw w) ∧ running_id (draw w) = running_id w.
Proof.
  intros Hw. unfold draw.
  destruct (heap w !! player w) as [p|]; [|done].
  destruct (isDead p); [|done].
  split; [|done]. apply wf_Body_remove; [done|]. by destruct Hw.
Qed.

Lemma loop_while_wf fuel curr_time :
  ∀ delta_time w,
    wf w ->
    wf (loop_while fuel curr_time delta_time w).1 ∧
    (running_id w
     <= running_id (loop_while fuel curr_time delta_time w).1)%nat.
Proof.
  induction fuel as [|fuel IH]; intros d w Hw; [done|].
  cbn [loop_while]. destruct (Qltb config.seconds d); [|done].
  destruct (update_wf config.seconds w Hw) as [H1 R1].
  destruct (draw_wf _ H1) as [H2 R2].
  set (w1 := set_loop_count _ _).
  assert (Hw1 : wf w1) by (by eapply wf_frame; [..|exact H2]).
  destruct (IH (d - config.seconds) w1 Hw1) as [H3 R3].
  split; [done|].
  change (running_id w1) with (running_id (draw (update config.seconds w)))
    in R3. lia.
Qed.

Lemma loop_wf t w :
  wf w -> wf (loop t w) ∧ (running_id w <= running_id (loop t w))%nat.
Proof.
  intros Hw. unfold loop.
  set (w1 := match last_time w with None => _ | Some _ => w end).
  assert (Hw1 : wf w1 ∧ running_id w1 = running_id w).
  { unfold w1. destruct (last_time w); [done|].
    split; [|done]. by eapply wf_frame; [..|exact Hw]. }
  destruct Hw1 as [Hw1 <-]. apply loop_while_wf, Hw1.
Qed.

Lemma key_wf (f : Body -> Body) w :
  harmless f -> wf w ->
  wf (set_heap ((λ b, match type b with Player => f b | _ => b end)
                  <$> heap w) w).
Proof.
  intros Hf [[[Hh Hd] Hs Hq] Hp]. split; [split; [split|..]|]; try done.
  - intros r b'. cbn [heap set_heap running_id]. rewrite lookup_fmap.
    destruct (heap w !! r) as [b|] eqn:E; [|done]. intros [= <-].
    destruct (Hh r b E) as (? & ? & Hd'). split; [done|].
    destruct (type b) eqn:Ht; [|done..].
    destruct (Hf b) as (Hi & _). split; [congruence|].
    by apply heads_down_harmless.
  - intros r Hr. cbn [heap set_heap running_id] in *. rewrite lookup_fmap.
    by apply fmap_is_Some, Hd.
Qed.

Lemma step_wf w e :
  wf w -> wf (step w e) ∧ (running_id w <= running_id (step w e))%nat.
Proof.
  intros Hw. destruct e as [k|k|t]; cbn [step].
  - split; [|done]. by apply (key_wf (λ b, set_raw_input _ b)).
  - split; [|done]. by apply (key_wf (λ b, set_raw_input _ b)).
  - by apply loop_wf.
Qed.

Lemma run_wf es :
  ∀ w, wf w -> wf (run w es) ∧ (running_id w <= running_id (run w es))%nat.
Proof.
  induction es as [|e es IH]; intros w Hw; [done|].
  cbn [run foldl]. destruct (step_wf w e Hw) as [H1 R1].
  destruct (IH _ H1) as [H2 R2]. split; [done | unfold run in R2; lia].
Qed.

Lemma boot_wf random : wf (boot random).
Proof.
  unfold boot. apply start_wf. split.
  - intros r b H. cbn [globals heap] in H. by rewrite lookup_empty in H.
  - intros r Hr. cbn [globals running_id] in Hr. lia.
Qed.

(** ** Identities *)

(** C9.  In every world of a session, whatever the events, restarts
    included: the bodies made so far are exactly those with an identity
    below the counter, each under its own identity; the next body gets
    the value of the counter, which moves one up; [start()] does not
    reset the counter, the new player gets the next identity; no event
    lowers the counter, and the bodies an event makes get the identities
    from the old value of the counter up to the new one, all above those
    of the bodies made before. *)
Theorem C9_identities_increase (random : nat -> Q) (es : list Event) :
  let w := run (boot random) es in
  (∀ r, is_Some (heap w !! r) ↔ (r < running_id w)%nat) ∧
  (∀ r b, heap w !! r = Some b -> id b = r) ∧
  ((Body_new w).1 = running_id w ∧
   heap w !! running_id w = None ∧
   (id <$> heap (Body_new w).2 !! running_id w) = Some (running_id w) ∧
   running_id (Body_new w).2 = S (running_id w)) ∧
  (running_id (start w) = S (running_id w) ∧
   player (start w) = running_id w ∧
   (id <$> heap (start w) !! player (start w)) = Some (running_id w)) ∧
  (∀ e, (running_id w <= running_id (step w e))%nat ∧
        ∀ r, is_Some (heap (step w e) !! r) -> ¬ is_Some (heap w !! r) ->
             (running_id w <= r < running_id (step w e))%nat).
Proof.
  intros w.
  assert (Hdense : ∀ w0, wf w0 ->
            ∀ r, is_Some (heap w0 !! r) ↔ (r < running_id w0)%nat).
  { intros w0 [[[Hh Hd] _ _] _] r. split; [|apply Hd].
    intros [b Hb]. by apply (Hh r b). }
  assert (Hw : wf w) by (apply run_wf, boot_wf).
  split; [by apply Hdense|]. split; [|split; [|split]].
  - intros r b Hb. by apply (wf_lookup w r b Hw).
  - split; [done|]. split; [|split; [|done]].
    + apply eq_None_not_Some. rewrite (Hdense w Hw). lia.
    + rewrite Body_new_heap. by rewrite decide_True.
  - destruct Hw as [[Hs _ _] _].
    destruct (start_wf w Hs) as (Hst & Hr & Hp).
    split; [done|]. split; [done|]. rewrite Hp.
    destruct (proj2 (Hdense _ Hst (running_id w))) as [b Hb]; [lia|].
    rewrite Hb. simpl. f_equal. by apply (wf_lookup _ _ _ Hst Hb).
  - intros e. destruct (step_wf w e Hw) as [Hw' Hr]. split; [done|].
    intros r H1 H2. rewrite (Hdense _ Hw') in H1. rewrite (Hdense _ Hw) in H2.
    lia.
Qed.

(** ** Mobs *)

Lemma Mob_new_body w :
  heap (Mob_new w).2 !! (Mob_new w).1
  = Some
      (set_size (mkSize 10 10)
         (set_velocity (mkVec 0 100)
            (set_speed 100
               (set_position
                  (mkVec (inject_Z
                            (randomInt 20 (config.canvas_width - 20)
                               (rng w)).1) (-12))
                  (set_type Mob
                     (set_switchTime (1 # 10)
                        (set_accumulator 0
                           (Body_fields (running_id w))))))))).
Proof.
  unfold Mob_new.
  set (w1 := (Body_new w).2).
  change (Body_new w) with (running_id w, w1).
  cbv beta iota. change (rng w1) with (rng w).
  destruct (randomInt 20 (config.canvas_width - 20) (rng w)) as [rx g].
  cbn [fst snd]. unfold set_rng. cbn [heap]. rewrite modify_lookup.
  assert (Hl : heap w1 !! running_id w = Some (Body_fields (running_id w))).
  { unfold w1. rewrite Body_new_heap. by rewrite decide_True. }
  by rewrite Hl.
Qed.

Lemma Mob_update_body delta_time this w b :
  heap w !! this = Some b ->
  heap (Mob_update delta_time this w) !! this
  = Some (Mob_step delta_time b (rng w)).1.1.
Proof.
  intros Hb. unfold Mob_update. rewrite Hb.
  destruct (Mob_step delta_time b (rng w)) as [[b' g] gone].
  cbn [set_rng heap fst]. rewrite modify_lookup.
  destruct gone; cbn [Body_remove set_queue heap]; by rewrite Hb.
Qed.

Lemma slow_heading : 0 < 100 * SQRT1_2 ∧ 100 * SQRT1_2 <= 100.
Proof. split; by vm_compute. Qed.

Lemma heads_down_velocity b :
  type b = Mob -> heads_down b ->
  100 * SQRT1_2 <= y (velocity b) ∧ 0 < y (velocity b).
Proof.
  intros Ht Hd. unfold heads_down in Hd. rewrite Ht in Hd.
  destruct Hd as [_ Hv]. destruct slow_heading as [H1 H2].
  set (c := 100 * SQRT1_2) in *. clearbody c.
  destruct Hv as [-> | ->]; split; lra.
Qed.

(** A mob that is updated [n] times is still a mob that heads down, and
    is lower by at least [n] times the slowest descent. *)
Lemma Mob_steps_descend delta_time n :
  0 <= delta_time ->
  ∀ b g, type b = Mob -> heads_down b ->
    let b' := (Mob_steps n delta_time b g).1 in
    type b' = Mob ∧ heads_down b' ∧
    y (position b)
      + inject_Z (Z.of_nat n) * (delta_time * (100 * SQRT1_2))
    <= y (position b').
Proof.
  intros Hdt. induction n as [|n IH]; intros b g Ht Hd.
  - cbn [Mob_steps fst]. split; [done|]. split; [done|].
    change (inject_Z (Z.of_nat 0)) with 0. lra.
  - cbn [Mob_steps].
    destruct (Mob_step_keeps delta_time b g Ht Hd) as (_ & Kt & Kd & Kp).
    destruct (Mob_step delta_time b g) as [[b1 g1] gone]. cbn [fst] in *.
    destruct (IH b1 g1 Kt Kd) as (It & Id & Ip).
    split; [done|]. split; [done|].
    rewrite Kp in Ip.
    destruct (heads_down_velocity b Ht Hd) as [Hv _].
    rewrite Nat2Z.inj_succ, <- Z.add_1_r, inject_Z_plus.
    change (inject_Z 1) with 1.
    set (c := 100 * SQRT1_2) in *. set (m := inject_Z (Z.of_nat n)) in *.
    set (v := y (velocity b)) in *. set (p := y (position b)) in *.
    set (p' := y (position (Mob_steps n delta_time b1 g1).1)) in *.
    clearbody c m v p p'. clear -Hdt Hv Ip.
    assert (0 <= delta_time * (v - c)) by (apply Qmult_le_0_compat; lra).
    lra.
Qed.

Lemma rounds_enough (c target : Q) :
  0 < c -> ∃ n : nat, target <= inject_Z (Z.of_nat n) * c.
Proof.
  intros Hc. exists (Z.to_nat (Qceiling (target / c))).
  pose proof (Qle_ceiling (target / c)) as H.
  set (z := Qceiling _) in *. clearbody z.
  assert (Hz : inject_Z z <= inject_Z (Z.of_nat (Z.to_nat z)))
    by (rewrite <- Zle_Qle; lia).
  assert (Ht : target == target / c * c) by (field; lra).
  rewrite Ht at 1. apply Qmult_le_compat_r; lra.
Qed.

(** With [Math.random] in [0, 1), [switch()] takes one of its three
    headings: the vertical velocity is the speed times [SQRT1_2], or the
    speed. *)
Lemma Mob_switch_velocity b g :
  0 <= rand_src g (rand_pos g) < 1 ->
  y (velocity (Mob_switch b g).1) = speed b * SQRT1_2 ∨
  y (velocity (Mob_switch b g).1) = speed b.
Proof.
  intros Hr. pose proof (randomInt_range 1 3 g ltac:(lia) Hr) as Hn.
  unfold Mob_switch. destruct (randomInt 1 3 g) as [n g1]. cbn [fst] in Hn.
  destruct (randomInt 0 2 g1) as [t g2]. cbn [fst].
  assert (n = 1 ∨ n = 2 ∨ n = 3)%Z as [-> | [-> | ->]] by lia; auto.
Qed.

(** C10.  In every world of a session every mob has speed 100 and a
    vertical velocity of 100 or 100·[SQRT1_2], strictly positive
    (downward): the constructor sets 100; the bounces only set the
    horizontal velocity; [switch()] sets the vertical one to the speed
    times [SQRT1_2] or to the speed (when [Math.random] answers in
    [0, 1); it would leave it alone otherwise); so [Mob.update] leaves a
    mob that heads down heading down, and moves it by [delta_time] times
    its velocity.  A mob that is updated never goes up, and after enough
    updates it is at the bottom boundary, [height + 5]. *)
Theorem C10_mobs_head_down :
  (∀ random es r b,
     heap (run (boot random) es) !! r = Some b -> type b = Mob ->
     speed b == 100 ∧
     (y (velocity b) == 100 ∨ y (velocity b) == 100 * SQRT1_2) ∧
     0 < y (velocity b)) ∧
  (∀ w, ∃ b, heap (Mob_new w).2 !! (Mob_new w).1 = Some b ∧
             type b = Mob ∧ speed b = 100 ∧ velocity b = mkVec 0 100) ∧
  (∀ b, y (velocity (Mob_bounce b)) = y (velocity b)) ∧
  (∀ b g, 0 <= rand_src g (rand_pos g) < 1 ->
          y (velocity (Mob_switch b g).1) = speed b * SQRT1_2 ∨
          y (velocity (Mob_switch b g).1) = speed b) ∧
  (∀ delta_time this w b,
     heap w !! this = Some b -> type b = Mob -> heads_down b ->
     ∃ b', heap (Mob_update delta_time this w) !! this = Some b' ∧
           b' = (Mob_step delta_time b (rng w)).1.1 ∧
           type b' = Mob ∧ heads_down b' ∧ 0 < y (velocity b') ∧
           y (position b') = y (position b) + delta_time * y (velocity b)) ∧
  (∀ delta_time n b g,
     0 <= delta_time -> type b = Mob -> heads_down b ->
     y (position b) <= y (position (Mob_steps n delta_time b g).1)) ∧
  (∀ delta_time b g,
     0 < delta_time -> type b = Mob -> heads_down b ->
     ∃ n, inject_Z config.canvas_height + 5
          <= y (position (Mob_steps n delta_time b g).1)).
Proof.
  split; [|split; [|split; [|split; [|split; [|split]]]]].
  - intros random es r b Hb Ht.
    destruct (wf_lookup _ r b (proj1 (run_wf es _ (boot_wf random))) Hb)
      as (_ & _ & Hd).
    destruct (heads_down_velocity b Ht Hd) as [_ Hpos].
    unfold heads_down in Hd. rewrite Ht in Hd. destruct Hd. done.
  - intros w. eexists. split; [apply Mob_new_body|]. done.
  - intros b. apply Mob_bounce_keeps.
  - apply Mob_switch_velocity.
  - intros dt this w b Hb Ht Hd. eexists.
    split; [by apply Mob_update_body|]. split; [done|].
    destruct (Mob_step_keeps dt b (rng w) Ht Hd) as (_ & Kt & Kd & Kp).
    split; [done|]. split; [done|]. split; [|done].
    by apply heads_down_velocity.
  - intros dt n b g Hdt Ht Hd.
    destruct (Mob_steps_descend dt n Hdt b g Ht Hd) as (_ & _ & H).
    destruct slow_heading as [Hc _].
    assert (0 <= inject_Z (Z.of_nat n)).
    { change 0 with (inject_Z 0). rewrite <- Zle_Qle. lia. }
    set (c := 100 * SQRT1_2) in *. set (m := inject_Z (Z.of_nat n)) in *.
    set (p := y (position b)) in *.
    set (p' := y (position (Mob_steps n dt b g).1)) in *.
    clearbody c m p p'.
    assert (0 <= m * (dt * c))
      by (apply Qmult_le_0_compat; [lra | apply Qmult_le_0_compat; lra]).
    lra.
  - intros dt b g Hdt Ht Hd. destruct slow_heading as [Hc _].
    destruct (rounds_enough (dt * (100 * SQRT1_2))
                (inject_Z config.canvas_height + 5 - y (position b)))
      as [n Hn].
    { set (c := 100 * SQRT1_2) in *. clearbody c. nra. }
    exists n.
    destruct (Mob_steps_descend dt n (Qlt_le_weak _ _ Hdt) b g Ht Hd)
      as (_ & _ & H).
    lra.
Qed.

(** The first mob of a game: made at y = -12 with velocity (0, 100), it
    is not higher after three updates of 1/60 s, and some number of
    updates takes it to the bottom boundary. *)
Lemma C10_mobs_head_down_witness :
  let w := (Mob_new (boot (λ _, 1 # 2))).2 in
  let b := body_at w 1 in
  (heap w !! 1%nat = Some b ∧ type b = Mob ∧ heads_down b) ∧
  y (position b) <= y (position (Mob_steps 3 config.seconds b (rng w)).1) ∧
  ∃ n, inject_Z config.canvas_height + 5
       <= y (position (Mob_steps n config.seconds b (rng w)).1).
Proof.
  intros w b.
  assert (Hb : heap w !! 1%nat = Some b) by (by vm_compute).
  assert (Ht : type b = Mob) by reflexivity.
  assert (Hd : heads_down b) by (split; [reflexivity | left; reflexivity]).
  assert (H0 : 0 <= config.seconds) by (by vm_compute).
  assert (H1 : 0 < config.seconds) by (by vm_compute).
  destruct C10_mobs_head_down as (_ & _ & _ & _ & _ & Hup & Hbottom).
  split; [done|]. split.
  - exact (Hup config.seconds 3%nat b (rng w) H0 Ht Hd).
  - exact (Hbottom config.seconds b (rng w) H1 Ht Hd).
Defined.

(** ** Deferred removal *)

Lemma array_set_live i a j :
  a !! j = Some (Some j) -> array_set i i a !! j = Some (Some j).
Proof.
  intros H. destruct (decide (j = i)) as [->|Hne].
  - apply array_set_lookup_eq.
  - by apply array_set_keeps.
Qed.

Lemma Projectile_new_registry w :
  entities (Projectile_new w).2
  = array_set (running_id w) (running_id w) (entities w) ∧
  queued_entities_for_removal (Projectile_new w).2
  = queued_entities_for_removal w.
Proof.
  unfold Projectile_new, Body_new. cbv beta iota zeta.
  by destruct (randomInt 0 6 _).
Qed.

Lemma Mob_new_registry w :
  entities (Mob_new w).2
  = array_set (running_id w) (running_id w) (entities w) ∧
  queued_entities_for_removal (Mob_new w).2
  = queued_entities_for_removal w.
Proof.
  unfold Mob_new, Body_new. cbv beta iota zeta.
  by destruct (randomInt 20 _ _).
Qed.

(** An update of a body takes nothing out of the registry, and queues
    nothing but, at most, the body itself. *)
Lemma entity_update_registry delta_time r w :
  (∀ i, live w i -> live (entity_update delta_time r w) i) ∧
  (queued_entities_for_removal (entity_update delta_time r w)
   = queued_entities_for_removal w ∨
   queued_entities_for_removal (entity_update delta_time r w)
   = queued_entities_for_removal w ++ [r]).
Proof.
  unfold entity_update, live.
  destruct (heap w !! r) as [b|] eqn:Hb; [|by split; [|left]].
  destruct (type b).
  - unfold Player_update.
    set (w1 := modify r (Player_steer delta_time) w).
    destruct (heap w1 !! r) as [b1|]; [|by split; [|left]].
    destruct (Player_fires b1); [|by split; [|left]].
    destruct (Projectile_new_registry w1) as [He Hq].
    cbn [modify entities queued_entities_for_removal set_heap].
    rewrite He, Hq. split; [|by left].
    intros i Hi. by apply array_set_live.
  - unfold Projectile_update. rewrite Hb.
    destruct (Qle_bool _ _); split; try done; [by right | by left].
  - unfold Mob_update. rewrite Hb.
    destruct (Mob_step delta_time b (rng w)) as [[b' g] [|]];
      split; try done; [by right | by left].
Qed.

Lemma Object_values_live w r :
  wf w -> r ∈ Object_values (entities w) -> live w r.
Proof.
  intros [[_ Hs _] _] Hr. unfold Object_values in Hr.
  apply list_elem_of_omap in Hr as (s & Hin & Hs').
  destruct s as [r'|]; [|done]. injection Hs' as ->.
  apply list_elem_of_lookup in Hin as [j Hj].
  destruct (Hs j r Hj) as [-> _]. exact Hj.
Qed.

(** The pass over the bodies [l]: nothing leaves the registry, and the
    queue grows by bodies of [l] only. *)
Lemma move_fold delta_time :
  ∀ l w,
    let w' := foldl (λ w r, entity_update delta_time r w) w l in
    (∀ i, live w i -> live w' i) ∧
    ∃ new, queued_entities_for_removal w'
           = queued_entities_for_removal w ++ new ∧
           ∀ i, i ∈ new -> i ∈ l.
Proof.
  induction l as [|r l IH]; intros w.
  - split; [done|]. exists []. split; [by rewrite app_nil_r|].
    intros i Hi. by apply elem_of_nil in Hi.
  - cbn [foldl].
    destruct (entity_update_registry delta_time r w) as [Hlive Hqs].
    destruct (IH (entity_update delta_time r w)) as (Hl & new & Hq & Hnew).
    split; [intros i Hi; by apply Hl, Hlive|].
    destruct Hqs as [Hqs|Hqs]; rewrite Hqs in Hq.
    + exists new. split; [done|]. intros i Hi. apply elem_of_cons. right.
      by apply Hnew.
    + exists (r :: new). split; [by rewrite Hq, <- app_assoc|].
      intros i Hi. apply elem_of_cons in Hi as [->|Hi]; apply elem_of_cons;
        [by left | right; by apply Hnew].
Qed.

Lemma move_entities_registry delta_time w :
  wf w ->
  (∀ i, live w i -> live (move_entities delta_time w) i) ∧
  ∃ new, queued_entities_for_removal (move_entities delta_time w)
         = queued_entities_for_removal w ++ new ∧
         ∀ i, i ∈ new -> live (move_entities delta_time w) i.
Proof.
  intros Hw. unfold move_entities.
  destruct (move_fold delta_time (Object_values (entities w)) w)
    as (Hl & new & Hq & Hnew).
  split; [exact Hl|]. exists new. split; [exact Hq|].
  intros i Hi. by apply Hl, Object_values_live, Hnew.
Qed.

Lemma elem_ordered_pairs (l : list nat) p :
  p ∈ ordered_pairs l -> p.1 ∈ l ∧ p.2 ∈ l.
Proof.
  unfold ordered_pairs. rewrite list_elem_of_In, in_flat_map.
  intros (r1 & H1 & H2). apply in_map_iff in H2 as (r2 & <- & H2).
  by rewrite !list_elem_of_In.
Qed.

(** Whatever the scan queues is in the registry. *)
Lemma scan_queue delta_time w :
  wf w ->
  ∃ new, queued_entities_for_removal (CollissionChecker_update delta_time w)
         = queued_entities_for_removal w ++ new ∧
         ∀ i, i ∈ new -> live w i.
Proof.
  intros Hw. rewrite scan_ordered_pairs, scanned_world.
  cbn [queued_entities_for_removal set_queue]. eexists. split; [done|].
  intros i Hi.
  rewrite list_elem_of_In, in_flat_map in Hi. destruct Hi as (p & Hp & Hi).
  apply list_elem_of_In, elem_ordered_pairs in Hp as [H1 H2].
  apply Object_values_live; [done|].
  unfold queued_by in Hi.
  destruct (hit Player Mob w p); [|destruct (hit Projectile Mob w p)];
    simpl in Hi; intuition (subst; done).
Qed.

Lemma Enemy_Spawner_live delta_time w i :
  live (Enemy_Spawner_update delta_time w) i ->
  live w i ∨ (running_id w <= i)%nat.
Proof.
  unfold Enemy_Spawner_update, live. destruct (Qle_bool _ _); [|by left].
  set (w0 := set_enemy_spawner _ w).
  destruct (Mob_new_registry w0) as [He _].
  cbn [set_enemy_spawner modify set_heap entities]. rewrite He.
  destruct (decide (i = running_id w0)) as [->|Hne]; [by right|].
  intros H. left. by apply array_set_lookup_ne in H.
Qed.

Lemma start_live w i : live (start w) i -> (running_id w <= i)%nat.
Proof.
  unfold start, live, Player_new, Body_new. cbv beta iota zeta.
  cbn [set_enemy_spawner set_player modify set_heap set_entities entities
       set_queue set_running_id running_id].
  destruct (decide (i = running_id w)) as [->|Hne]; [done|].
  intros H. apply array_set_lookup_ne in H; [|done]. by destruct i.
Qed.

Lemma restart_live w i :
  live (restart_if_asked w) i -> live w i ∨ (running_id w <= i)%nat.
Proof.
  unfold restart_if_asked.
  destruct (heap w !! player w) as [p|]; [|by left].
  destruct (isDead p && action_1 (controller p)); [|by left].
  intros H. right. by apply start_live.
Qed.

(** C5.  In a tick, from a well-formed world: the pass over the bodies
    takes nothing out of the registry; the scan, at any point of it,
    leaves the registry as it found it; the bodies that the tick queues
    for removal (in their own update, or in the scan) are in the
    registry when the scan starts, and so throughout the scan; and every
    body in the queue at the end of the scan is out of the registry when
    the tick is over, and [draw] puts nothing back. *)
Theorem C5_removal_is_deferred (delta_time : Q) (w : World) :
  wf w ->
  let w2 := move_entities delta_time (poll_input w) in
  let w3 := CollissionChecker_update delta_time w2 in
  let w' := update delta_time w in
  (∀ i, live w i -> live w2 i) ∧
  (w3 = foldl collide_pair w2 (ordered_pairs (Object_values (entities w2)))
   ∧ ∀ ps, entities (foldl collide_pair w2 ps) = entities w2) ∧
  (∃ new, queued_entities_for_removal w3
          = queued_entities_for_removal w ++ new ∧
          ∀ i, i ∈ new ->
               live w2 i ∧ ∀ ps, live (foldl collide_pair w2 ps) i) ∧
  (∀ i, i ∈ queued_entities_for_removal w3 ->
        ¬ live w' i ∧ ¬ live (draw w') i).
Proof.
  intros Hw w2 w3 w'.
  pose proof (poll_input_wf w Hw) as Hw1.
  destruct (move_entities_wf delta_time _ Hw1) as [Hw2 R2]. fold w2 in Hw2, R2.
  destruct (CollissionChecker_wf delta_time _ Hw2) as [Hw3 R3].
  fold w3 in Hw3, R3.
  destruct (move_entities_registry delta_time _ Hw1)
    as (Hlive & new1 & Hq1 & Hnew1).
  fold w2 in Hlive, Hq1, Hnew1.
  destruct (scan_queue delta_time w2 Hw2) as (new2 & Hq2 & Hnew2).
  fold w3 in Hq2.
  split; [exact Hlive|]. split; [|split].
  - split; [apply scan_ordered_pairs | apply foldl_collide_pairs].
  - exists (new1 ++ new2). split.
    + rewrite Hq2, Hq1. by rewrite <- app_assoc.
    + intros i Hi.
      assert (H2 : live w2 i)
        by (apply elem_of_app in Hi as [Hi|Hi]; auto).
      split; [exact H2|]. intros ps. unfold live.
      by rewrite foldl_collide_pairs.
  - intros i Hi.
    assert (Hlt : (i < running_id w3)%nat).
    { destruct Hw3 as [[_ _ Hq] _]. rewrite Forall_forall in Hq. by apply Hq. }
    assert (Hgone : ¬ live w' i).
    { unfold w', update. fold w2. fold w3. intros H.
      apply restart_live in H as [H|H].
      - apply Enemy_Spawner_live in H as [H|H].
        + unfold live, purge in H. cbn [entities set_queue set_entities] in H.
          by apply deleted_lookup in H as [_ H].
        + change (running_id (purge w3)) with (running_id w3) in H. lia.
      - destruct (Enemy_Spawner_wf delta_time (purge w3)) as [_ R5];
          [by apply purge_wf|].
        change (running_id (purge w3)) with (running_id w3) in R5. lia. }
    split; [exact Hgone|]. intros H. apply Hgone.
    unfold live, draw in *. destruct (heap w' !! player w'); [|done].
    by destruct (isDead _).
Qed.

(** A tick of [arena]: the scan queues the mob (body 2) and the
    projectile (body 1); they are in the registry all through the scan
    and out of it after the tick. *)
Lemma C5_removal_is_deferred_witness :
  let w2 := move_entities config.seconds (poll_input arena) in
  let w3 := CollissionChecker_update config.seconds w2 in
  queued_entities_for_removal arena = [] ∧
  queued_entities_for_removal w3 = [2; 2; 1]%nat ∧
  (live w2 1 ∧ live w3 1 ∧ ¬ live (update config.seconds arena) 1) ∧
  (live w2 2 ∧ live w3 2 ∧ ¬ live (update config.seconds arena) 2).
Proof.
  intros w2 w3.
  assert (Hw : wf arena).
  { unfold arena. apply wf_modify_harmless; [|done].
    apply Mob_new_wf, Projectile_new_wf, boot_wf. }
  assert (H0 : queued_entities_for_removal arena = []) by reflexivity.
  assert (H3 : queued_entities_for_removal w3 = [2; 2; 1]%nat)
    by (by vm_compute).
  destruct (C5_removal_is_deferred config.seconds arena Hw)
    as (_ & _ & (new & Hq & Hin) & Hout).
  fold w2 w3 in Hq. rewrite H0, H3 in Hq. cbn [app] in Hq. subst new.
  assert (Hboth : ∀ i, i ∈ [2; 2; 1]%nat ->
            live w2 i ∧ live w3 i ∧ ¬ live (update config.seconds arena) i).
  { intros i Hi. destruct (Hin i Hi) as [Hl _].
    split; [exact Hl|]. split.
    - unfold live, w3. rewrite CollissionChecker_entities. exact Hl.
    - refine (proj1 (Hout i _)). fold w2 w3. rewrite H3. exact Hi. }
  split; [exact H0|]. split; [exact H3|].
  split; apply Hboth; apply (bool_decide_unpack _); by vm_compute.
Defined.


(** * Further properties *)

(** ** Input *)

Lemma poll_axis_x raw c k m :
  poll_axis raw c (k, (st_move_x, m))
  = mkController (move_x c + if bool_decide (k ∈ raw) then m else 0)
      (move_y c) (action_1 c).
Proof.
  unfold poll_axis. destruct (bool_decide _), c; cbn; f_equal; lia.
Qed.

Lemma poll_axis_y raw c k m :
  poll_axis raw c (k, (st_move_y, m))
  = mkController (move_x c)
      (move_y c + if bool_decide (k ∈ raw) then m else 0) (action_1 c).
Proof.
  unfold poll_axis. destruct (bool_decide _), c; cbn; f_equal; lia.
Qed.

Lemma pollController_controller b :
  controller (pollController b)
  = mkController (key b 68 - key b 65) (key b 83 - key b 87)
      (bool_decide (32%nat ∈ raw_input b)).
Proof.
  unfold pollController, button_mappings, axis_mappings, key.
  cbn [foldl controller set_controller].
  rewrite !poll_axis_y, !poll_axis_x. cbn [move_x move_y action_1].
  unfold poll_button, resetController.
  destruct (bool_decide (32%nat ∈ raw_input b)); cbn [move_x move_y action_1];
    f_equal; repeat case_match; lia.
Qed.

(** X1.  [pollController] reads the controller off the keys that are
    down and off nothing else: [action_1] is the space key, [move_x] is
    right (68) less left (65), [move_y] is down (83) less up (87), so
    opposite keys cancel; what the controller held before is discarded,
    and polling twice is polling once. *)
Theorem X1_pollController_reads_keys (b : Body) :
  let c := controller (pollController b) in
  action_1 c = bool_decide (32%nat ∈ raw_input b) ∧
  move_x c = (key b 68 - key b 65)%Z ∧
  move_y c = (key b 83 - key b 87)%Z ∧
  (∀ c0, pollController (set_controller c0 b) = pollController b) ∧
  pollController (pollController b) = pollController b.
Proof.
  cbv zeta. rewrite pollController_controller. cbn [move_x move_y action_1].
  repeat split.
Qed.

Lemma key_map_compose (f g : Body -> Body) w :
  set_heap (f <$> heap (set_heap (g <$> heap w) w)) (set_heap (g <$> heap w) w)
  = set_heap ((f ∘ g) <$> heap w) w.
Proof.
  unfold set_heap. cbn [heap running_id entities queued_entities_for_removal
    player enemy_spawner last_time loop_count rng].
  by rewrite <- map_fmap_compose.
Qed.

Lemma set_raw_input_same b : set_raw_input (raw_input b) b = b.
Proof. by destruct b. Qed.

Lemma keys_facts (k : nat) (s : gset nat) :
  ({[k]} ∪ s) ∖ {[k]} = s ∖ {[k]} ∧
  {[k]} ∪ ({[k]} ∪ s) = {[k]} ∪ s ∧
  (s ∖ {[k]}) ∖ {[k]} = s ∖ {[k]} ∧
  (k ∉ s -> s ∖ {[k]} = s) ∧
  k ∈ {[k]} ∪ s ∧ k ∉ s ∖ {[k]}.
Proof.
  split; [|split; [|split; [|split; [|split]]]].
  - apply set_eq. intros x.
    rewrite !elem_of_difference, elem_of_union, elem_of_singleton. tauto.
  - apply set_eq. intros x. rewrite !elem_of_union, elem_of_singleton. tauto.
  - apply set_eq. intros x. rewrite !elem_of_difference. tauto.
  - intros H. apply set_eq. intros x.
    rewrite elem_of_difference, elem_of_singleton.
    split; [tauto|]. intros Hx. split; [done|]. by intros ->.
  - rewrite elem_of_union, elem_of_singleton. by left.
  - rewrite elem_of_difference, elem_of_singleton. tauto.
Qed.

(** X2.  Key events only change [raw_input], and only of players.
    Releasing a key that was pressed leaves what releasing it alone
    leaves; pressing or releasing twice is as once; releasing a key
    that no player holds changes nothing; and after a press every
    player holds the key, after a release none does. *)
Theorem X2_key_events (key_code : nat) (w : World) :
  keyup key_code (keydown key_code w) = keyup key_code w ∧
  keydown key_code (keydown key_code w) = keydown key_code w ∧
  keyup key_code (keyup key_code w) = keyup key_code w ∧
  ((∀ r b, heap w !! r = Some b -> key_code ∉ raw_input b) ->
   keyup key_code w = w) ∧
  (∀ r b, heap (keydown key_code w) !! r = Some b -> type b = Player ->
          key_code ∈ raw_input b) ∧
  (∀ r b, heap (keyup key_code w) !! r = Some b -> type b = Player ->
          key_code ∉ raw_input b) ∧
  (∀ r b, heap w !! r = Some b ->
     ∃ b1 b2, heap (keydown key_code w) !! r = Some b1 ∧
              heap (keyup key_code w) !! r = Some b2 ∧
              set_raw_input (raw_input b) b1 = b ∧
              set_raw_input (raw_input b) b2 = b).
Proof.
  assert (Hext : ∀ f g : Body -> Body, (∀ b, f b = g b) ->
            set_heap (f <$> heap w) w = set_heap (g <$> heap w) w).
  { intros f g H. f_equal. apply map_fmap_ext. intros; apply H. }
  assert (Hk : ∀ s : gset nat, _) by (intros s; exact (keys_facts key_code s)).
  split; [|split; [|split; [|split; [|split; [|split]]]]].
  - unfold keyup at 1, keydown. rewrite key_map_compose. apply Hext.
    intros b. unfold compose. destruct b as [i [] p v sz h sp ac c s mk lt mc a st]; try done.
    unfold set_raw_input. cbn. f_equal. apply (Hk s).
  - unfold keydown. rewrite key_map_compose. apply Hext.
    intros b. unfold compose. destruct b as [i [] p v sz h sp ac c s mk lt mc a st]; try done.
    unfold set_raw_input. cbn. f_equal. apply (Hk s).
  - unfold keyup. rewrite key_map_compose. apply Hext.
    intros b. unfold compose. destruct b as [i [] p v sz h sp ac c s mk lt mc a st]; try done.
    unfold set_raw_input. cbn. f_equal. apply (Hk s).
  - intros Hfree. unfold keyup.
    replace ((λ b, match type b with
                   | Player => set_raw_input (raw_input b ∖ {[key_code]}) b
                   | _ => b
                   end) <$> heap w) with (heap w); [by destruct w|].
    apply map_eq. intros r. rewrite lookup_fmap.
    destruct (heap w !! r) as [b|] eqn:E; [|done]. cbn. f_equal.
    destruct (type b); try done.
    destruct (Hk (raw_input b)) as (_ & _ & _ & Hs & _).
    rewrite Hs by (by apply (Hfree r)). symmetry. apply set_raw_input_same.
  - intros r b. unfold keydown. cbn [heap set_heap]. rewrite lookup_fmap.
    destruct (heap w !! r) as [b0|]; [|done]. cbn. intros [= <-].
    destruct b0 as [i [] p v sz h sp ac c s mk lt mc a st]; cbn; try done.
    intros _. apply (Hk s).
  - intros r b. unfold keyup. cbn [heap set_heap]. rewrite lookup_fmap.
    destruct (heap w !! r) as [b0|]; [|done]. cbn. intros [= <-].
    destruct b0 as [i [] p v sz h sp ac c s mk lt mc a st]; cbn; try done.
    intros _. apply (Hk s).
  - intros r b Hb. unfold keydown, keyup. cbn [heap set_heap].
    rewrite !lookup_fmap, Hb. cbn. eexists _, _.
    split; [done|]. split; [done|].
    by destruct b as [i [] p v sz h sp ac c s mk lt mc a st].
Qed.

(** ** The registry *)

Lemma array_set_length i v a :
  length (array_set i v a) = Nat.max (length a) (S i).
Proof.
  unfold array_set. case_decide.
  - rewrite length_insert. lia.
  - rewrite !length_app, length_replicate. simpl. lia.
Qed.

(** X3.  The constructor of [Body] registers the new body under the
    value of the counter: the body is found there, in the store and in
    the registry; every other slot of the registry and of the store is
    as it was; the counter is one further; the array is as long as it
    was, or just long enough for the new slot (with holes in between);
    the removal queue is untouched. *)
Theorem X3_Body_new_registers (w : World) :
  let i := (Body_new w).1 in
  let w' := (Body_new w).2 in
  i = running_id w ∧ running_id w' = S i ∧
  live w' i ∧ heap w' !! i = Some (Body_fields i) ∧
  (∀ j, j ≠ i -> (live w' j ↔ live w j) ∧ heap w' !! j = heap w !! j) ∧
  (∀ j, (length (entities w) <= j < i)%nat ->
        entities w' !! j = Some None) ∧
  length (entities w') = Nat.max (length (entities w)) (S i) ∧
  queued_entities_for_removal w' = queued_entities_for_removal w.
Proof.
  cbv zeta. cbn [Body_new fst snd running_id set_entities set_heap
    set_running_id entities heap queued_entities_for_removal].
  unfold live. cbn [Body_new snd entities set_entities set_heap
    set_running_id].
  split; [done|]. split; [done|].
  split; [apply array_set_lookup_eq|].
  split; [apply lookup_insert_eq|].
  split; [|split; [|split; [apply array_set_length | done]]].
  - intros j Hj. split; [|by rewrite lookup_insert_ne].
    split; [by apply array_set_lookup_ne | by apply array_set_keeps].
  - intros j [H1 H2]. unfold array_set. rewrite decide_False by lia.
    rewrite lookup_app_r by lia.
    rewrite lookup_app_l by (rewrite length_replicate; lia).
    apply lookup_replicate_2. lia.
Qed.

(** What [delete entities[id]], for every queued [id], leaves in a
    slot. *)
Lemma deleted_slot q : ∀ (a : list (option nat)) j,
  foldl (λ a i, array_delete i a) a q !! j
  = if decide (j ∈ q)
    then (if decide (j < length a)%nat then Some None else None)
    else a !! j.
Proof.
  induction q as [|i q IH]; intros a j.
  - cbn [foldl]. rewrite decide_False; [done | apply not_elem_of_nil].
  - cbn [foldl]. rewrite IH. unfold array_delete. rewrite length_insert.
    destruct (decide (j ∈ q)) as [Hq|Hq].
    + rewrite (decide_True (P := j ∈ i :: q));
        [done | by apply elem_of_cons; right].
    + destruct (decide (i = j)) as [->|Hne].
      * rewrite (decide_True (P := j ∈ j :: q))
          by (by apply elem_of_cons; left).
        case_decide.
        -- by apply list_lookup_insert_eq.
        -- rewrite list_insert_ge by lia. apply lookup_ge_None. lia.
      * rewrite list_lookup_insert_ne by done.
        rewrite (decide_False (P := j ∈ i :: q)); [done|].
        rewrite elem_of_cons. intros [->|?]; done.
Qed.

Lemma deleted_length q : ∀ a : list (option nat),
  length (foldl (λ a i, array_delete i a) a q) = length a.
Proof.
  induction q as [|i q IH]; intros a; [done|].
  cbn [foldl]. rewrite IH. apply length_insert.
Qed.

(** X4.  The purge takes out of the registry exactly the queued bodies:
    afterwards a body is in the registry when it was there and was not
    queued.  An identity queued twice, or queued without being in the
    registry, does no harm; the array keeps its length (a removed body
    leaves a hole); the store is untouched; the queue is empty, so a
    second purge does nothing. *)
Theorem X4_purge (w : World) :
  (∀ i, live (purge w) i ↔
        live w i ∧ i ∉ queued_entities_for_removal w) ∧
  (∀ j, j ∈ queued_entities_for_removal w ->
        (j < length (entities w))%nat ->
        entities (purge w) !! j = Some None) ∧
  length (entities (purge w)) = length (entities w) ∧
  heap (purge w) = heap w ∧
  running_id (purge w) = running_id w ∧
  queued_entities_for_removal (purge w) = [] ∧
  purge (purge w) = purge w ∧
  (∀ q, (∀ i, i ∈ q ↔ i ∈ queued_entities_for_removal w) ->
        purge (set_queue q w) = purge w).
Proof.
  split; [|split; [|split; [|split; [|split; [|split; [|split]]]]]];
    try done.
  - intros i. unfold live, purge. cbn [entities set_queue set_entities].
    rewrite deleted_slot. case_decide as Hq.
    + split; [|tauto]. by case_decide.
    + tauto.
  - intros j Hj Hlt. unfold purge. cbn [entities set_queue set_entities].
    rewrite deleted_slot. by rewrite !decide_True.
  - unfold purge. cbn [entities set_queue set_entities].
    apply deleted_length.
  - intros q Hq. unfold purge, set_queue, set_entities.
    cbn [running_id heap entities queued_entities_for_removal player
         enemy_spawner last_time loop_count rng].
    f_equal. apply list_eq. intros j. rewrite !deleted_slot.
    destruct (decide (j ∈ q)) as [H|H].
    + by rewrite (decide_True (P := j ∈ queued_entities_for_removal w))
        by (by apply Hq).
    + by rewrite (decide_False (P := j ∈ queued_entities_for_removal w))
        by (by rewrite <- Hq).
Qed.

(** ** Updates of bodies *)

Lemma Projectile_new_other w r :
  r ≠ running_id w -> heap (Projectile_new w).2 !! r = heap w !! r.
Proof.
  intros Hr. unfold Projectile_new.
  set (w1 := (Body_new w).2). change (Body_new w) with (running_id w, w1).
  cbv beta iota. destruct (randomInt 0 6 (rng w1)) as [a g].
  cbn [fst snd set_rng heap]. rewrite modify_lookup_ne by done.
  unfold w1. rewrite Body_new_heap. by rewrite decide_False.
Qed.

Lemma Projectile_new_type w :
  (type <$> heap (Projectile_new w).2 !! running_id w) = Some Projectile.
Proof.
  pose proof (Projectile_new_body w) as H.
  change (Projectile_new w).1 with (running_id w) in H. rewrite H.
  by destruct (heap (Body_new w).2 !! player w).
Qed.

Lemma Projectile_new_wf_counter w :
  running_id (Projectile_new w).2 = S (running_id w) ∧
  entities (Projectile_new w).2
  = array_set (running_id w) (running_id w) (entities w).
Proof.
  unfold Projectile_new, Body_new. cbv beta iota zeta.
  by destruct (randomInt 0 6 _).
Qed.

(** X5.  The update of a body queues that body, once, exactly when the
    body has left the playfield on its way: a projectile at or above
    y = -5, a mob at or below y = height + 5, both tested before the
    move of that update; the update of a player queues nothing. *)
Theorem X5_self_removal (delta_time : Q) (r : nat) (w : World) (b : Body) :
  heap w !! r = Some b ->
  queued_entities_for_removal (entity_update delta_time r w)
  = queued_entities_for_removal w ++ (if leaves b then [r] else []).
Proof.
  intros Hb. unfold entity_update, leaves. rewrite Hb. destruct (type b).
  - rewrite app_nil_r. unfold Player_update.
    set (w1 := modify r (Player_steer delta_time) w).
    destruct (heap w1 !! r) as [b1|]; [|done].
    destruct (Player_fires b1); [|done].
    cbn [modify set_heap queued_entities_for_removal].
    by destruct (Projectile_new_registry w1) as [_ ->].
  - unfold Projectile_update. rewrite Hb.
    destruct (Qle_bool _ _); [done | by rewrite app_nil_r].
  - unfold Mob_update, Mob_step. rewrite Hb.
    cbn [position set_accumulator].
    destruct (Qle_bool (inject_Z config.canvas_height + 5) _);
      repeat case_match; simplify_eq/=; try done; by rewrite app_nil_r.
Qed.

(** A projectile that has passed y = -5 is queued by its update. *)
Lemma X5_self_removal_witness :
  let w := modify 1 (set_position (mkVec 150 (-6)))
             (Projectile_new (boot (λ _, 1 # 2))).2 in
  leaves (body_at w 1) = true ∧
  queued_entities_for_removal (entity_update config.seconds 1 w)
  = queued_entities_for_removal w ++ [1%nat].
Proof.
  intros w.
  assert (Hb : heap w !! 1%nat = Some (body_at w 1)) by (by vm_compute).
  assert (Hl : leaves (body_at w 1) = true) by (by vm_compute).
  split; [exact Hl|].
  pose proof (X5_self_removal config.seconds 1 w (body_at w 1) Hb) as H.
  rewrite Hl in H. exact H.
Defined.

(** [Player.update] fires exactly when [action_1] is set and the
    accumulator, with this update's [delta_time] added, has reached 1:
    then one projectile is made (the next identity, in the registry),
    no other body but the player changes, and the accumulator restarts
    from 0; otherwise nothing is made, the
    registry and the other bodies are as they were, and the accumulator
    keeps the added time.  Either way [lifeTime] grows by [delta_time]
    and the controller is left alone. *)
Lemma Player_update_effect (delta_time : Q) (this : nat) (w : World) (b : Body) :
  heap w !! this = Some b ->
  this ≠ running_id w ->
  let w' := Player_update delta_time this w in
  let fires :=
    action_1 (controller b) && Qle_bool 1 (accumulator b + delta_time) in
  running_id w' = (if fires then S (running_id w) else running_id w) ∧
  (∃ b', heap w' !! this = Some b' ∧
         accumulator b' = (if fires then 0 else accumulator b + delta_time) ∧
         lifeTime b' = lifeTime b + delta_time ∧
         controller b' = controller b) ∧
  (if fires
   then (type <$> heap w' !! running_id w) = Some Projectile ∧
        live w' (running_id w) ∧
        entities w' = array_set (running_id w) (running_id w) (entities w) ∧
        ∀ r, r ≠ this -> r ≠ running_id w -> heap w' !! r = heap w !! r
   else entities w' = entities w ∧
        ∀ r, r ≠ this -> heap w' !! r = heap w !! r).
Proof.
  intros Hb Hne w' fires. unfold w', Player_update.
  set (w1 := modify this (Player_steer delta_time) w).
  assert (H1 : heap w1 !! this = Some (Player_steer delta_time b))
    by (unfold w1; by rewrite modify_lookup, Hb).
  rewrite H1.
  assert (Hf : Player_fires (Player_steer delta_time b) = fires).
  { unfold Player_fires, Player_steer, fires.
    by destruct (steer _ _ _ _ _). }
  assert (Hs : accumulator (Player_steer delta_time b)
               = accumulator b + delta_time ∧
               lifeTime (Player_steer delta_time b)
               = lifeTime b + delta_time ∧
               controller (Player_steer delta_time b) = controller b).
  { unfold Player_steer. by destruct (steer _ _ _ _ _). }
  destruct Hs as (Ha & Hl & Hc).
  rewrite Hf. destruct fires.
  - destruct (Projectile_new_wf_counter w1) as [Hr He].
    change (running_id w) with (running_id w1) in Hne |- *.
    split; [exact Hr|]. split; [|split; [|split; [|split]]].
    + rewrite !modify_lookup, Projectile_new_other by done.
      rewrite H1. eexists. split; [done|]. cbn. by rewrite Hl, Hc.
    + rewrite !modify_lookup_ne by done. apply Projectile_new_type.
    + unfold live. cbn [modify set_heap entities]. rewrite He.
      apply array_set_lookup_eq.
    + exact He.
    + intros r Hr1 Hr2. rewrite !modify_lookup_ne by done.
      rewrite Projectile_new_other by done. unfold w1.
      by rewrite modify_lookup_ne.
  - split; [done|]. split; [|split; [done|]].
    + rewrite modify_lookup, H1. eexists. split; [done|]. cbn.
      by rewrite Ha, Hl, Hc.
    + intros r Hr. rewrite modify_lookup_ne by done.
      unfold w1. by rewrite modify_lookup_ne.
Qed.

(** X6.  [Player.update] fires exactly when [action_1] is set and the
    accumulator, with this update's [delta_time] added, has reached 1:
    then one projectile is made (the next identity, in the registry),
    no other body but the player changes, and the accumulator restarts
    from 0; otherwise nothing is made, the
    registry and the other bodies are as they were, and the accumulator
    keeps the added time.  Either way [lifeTime] grows by [delta_time]
    and the controller is left alone. *)
Theorem X6_player_fire (delta_time : Q) (this : nat) (w : World) (b : Body) :
  heap w !! this = Some b ->
  this ≠ running_id w ->
  let w' := Player_update delta_time this w in
  let fires :=
    action_1 (controller b) && Qle_bool 1 (accumulator b + delta_time) in
  running_id w' = (if fires then S (running_id w) else running_id w) ∧
  (∃ b', heap w' !! this = Some b' ∧
         accumulator b' = (if fires then 0 else accumulator b + delta_time) ∧
         lifeTime b' = lifeTime b + delta_time ∧
         controller b' = controller b) ∧
  (if fires
   then (type <$> heap w' !! running_id w) = Some Projectile ∧
        live w' (running_id w) ∧
        entities w' = array_set (running_id w) (running_id w) (entities w) ∧
        ∀ r, r ≠ this -> r ≠ running_id w -> heap w' !! r = heap w !! r
   else entities w' = entities w ∧
        ∀ r, r ≠ this -> heap w' !! r = heap w !! r).
Proof. apply Player_update_effect. Qed.

(** Space is down, a second has passed: the first shot. *)
Lemma X6_player_fire_witness :
  let w := poll_input (keydown 32 (boot (λ _, 1 # 2))) in
  let w' := Player_update 1 0 w in
  (heap w !! 0%nat = Some (body_at w 0) ∧ 0%nat ≠ running_id w) ∧
  running_id w' = S (running_id w) ∧
  (type <$> heap w' !! running_id w) = Some Projectile.
Proof.
  intros w w'.
  assert (Hb : heap w !! 0%nat = Some (body_at w 0)) by (by vm_compute).
  assert (Hne : 0%nat ≠ running_id w) by (by vm_compute).
  split; [split; [exact Hb | exact Hne]|].
  pose proof (X6_player_fire 1 0 w (body_at w 0) Hb Hne) as H.
  cbv zeta in H.
  assert (Hf : action_1 (controller (body_at w 0))
               && Qle_bool 1 (accumulator (body_at w 0) + 1) = true)
    by (by vm_compute).
  rewrite Hf in H. destruct H as (H1 & _ & H3 & _).
  split; [exact H1 | exact H3].
Defined.

Lemma tick_count (k : nat) (a : Q) :
  a == inject_Z (Z.of_nat k) * config.seconds ->
  (Qle_bool 1 (a + config.seconds) = true ↔ (59 <= k)%nat) ∧
  (Qle_bool 5 (a + config.seconds) = true ↔ (299 <= k)%nat) ∧
  a + config.seconds == inject_Z (Z.of_nat (S k)) * config.seconds.
Proof.
  intros Ha.
  assert (Hn : a + config.seconds
               == inject_Z (Z.of_nat (S k)) * config.seconds).
  { rewrite Ha, Nat2Z.inj_succ, <- Z.add_1_r, inject_Z_plus.
    change (inject_Z 1) with 1. ring. }
  rewrite !Qle_bool_iff, Hn. pose proof tick_60 as H60.
  set (tick := config.seconds) in *. clearbody tick.
  assert (H59 : (59 <= k)%nat ↔ inject_Z 60 <= inject_Z (Z.of_nat (S k)))
    by (rewrite <- Zle_Qle; lia).
  assert (H299 : (299 <= k)%nat ↔ inject_Z 300 <= inject_Z (Z.of_nat (S k)))
    by (rewrite <- Zle_Qle; lia).
  rewrite H59, H299. change (inject_Z 60) with 60.
  change (inject_Z 300) with 300.
  set (m := inject_Z (Z.of_nat (S k))) in *. clearbody m.
  split; [|split; [|reflexivity]]; split; intros; nra.
Qed.

(** While [action_1] stays set, from an accumulator at 0 and with ticks
    of 1/60 s, the first 59 updates of the player make nothing. *)
Lemma hold_fire this w b k :
  heap w !! this = Some b -> this ≠ running_id w ->
  action_1 (controller b) = true -> accumulator b == 0 ->
  (k <= 59)%nat ->
  let wk := Nat.iter k (Player_update config.seconds this) w in
  running_id wk = running_id w ∧
  ∃ bk, heap wk !! this = Some bk ∧ controller bk = controller b ∧
        accumulator bk == inject_Z (Z.of_nat k) * config.seconds.
Proof.
  intros Hb Hne Hact Hacc. cbv zeta. induction k as [|k IH]; intros Hk.
  - cbn [Nat.iter]. split; [done|]. exists b. split; [done|].
    split; [done|]. rewrite Hacc. change (inject_Z (Z.of_nat 0)) with 0. ring.
  - destruct IH as (Hr & bk & Hbk & Hc & Ha); [lia|].
    rewrite Nat.iter_succ. set (wk := Nat.iter k _ w) in *.
    rewrite <- Hr in Hne.
    destruct (Player_update_effect config.seconds this wk bk Hbk Hne)
      as (Hr' & (b' & Hb' & Ha' & _ & Hc') & _).
    destruct (tick_count k (accumulator bk) Ha) as (Hfire & _ & Hnext).
    assert (Hf : action_1 (controller bk)
                 && Qle_bool 1 (accumulator bk + config.seconds) = false).
    { rewrite Hc, Hact. cbn [andb]. apply not_true_iff_false.
      rewrite Hfire. lia. }
    rewrite Hf in Hr', Ha'. split; [congruence|].
    exists b'. split; [done|]. split; [congruence|]. by rewrite Ha'.
Qed.

(** With [action_1] set, the update that brings the accumulator to one
    second shoots. *)
Lemma fire_sixtieth this w b :
  heap w !! this = Some b -> this ≠ running_id w ->
  action_1 (controller b) = true -> accumulator b == 0 ->
  let w' := Nat.iter 60 (Player_update config.seconds this) w in
  running_id w' = S (running_id w) ∧
  (type <$> heap w' !! running_id w) = Some Projectile ∧
  ∃ b', heap w' !! this = Some b' ∧ accumulator b' = 0.
Proof.
  intros Hb Hne Hact Hacc.
  destruct (hold_fire this w b 59 Hb Hne Hact Hacc) as (Hr & bk & Hbk & Hc & Ha);
    [lia|].
  cbv zeta. rewrite (Nat.iter_succ 59).
  set (wk := Nat.iter 59 _ w) in *.
  rewrite <- Hr in Hne |- *.
  destruct (Player_update_effect config.seconds this wk bk Hbk Hne)
    as (Hr' & (b' & Hb' & Ha' & _) & Hnew).
  destruct (tick_count 59 (accumulator bk) Ha) as (Hfire & _).
  assert (Hf : action_1 (controller bk)
               && Qle_bool 1 (accumulator bk + config.seconds) = true).
  { rewrite Hc, Hact. cbn [andb]. apply Hfire. lia. }
  rewrite Hf in Hr', Ha', Hnew. destruct Hnew as [Ht _].
  split; [exact Hr'|]. split; [exact Ht|]. by exists b'.
Qed.

(** X7.  Holding fire shoots once a second: from an accumulator at 0,
    with [action_1] set and ticks of 1/60 s, none of the first 59
    updates of the player makes a projectile, and the first 61 make
    exactly one.  (The 60th update brings the accumulator to one second,
    up to the rounding of the sixty additions.) *)
Theorem X7_fire_rate (this : nat) (w : World) (b : Body) :
  heap w !! this = Some b -> (this < running_id w)%nat ->
  action_1 (controller b) = true -> accumulator b == 0 ->
  (∀ k, (k < 60)%nat ->
     running_id (Nat.iter k (Player_update config.seconds this) w)
     = running_id w) ∧
  let w' := Nat.iter 61 (Player_update config.seconds this) w in
  running_id w' = S (running_id w) ∧
  (type <$> heap w' !! running_id w) = Some Projectile.
Proof.
  intros Hb Hlt Hact Hacc.
  assert (Hne : this ≠ running_id w) by lia. split.
  - intros k Hk. apply (hold_fire this w b k); try done. lia.
  - destruct (fire_sixtieth this w b Hb Hne Hact Hacc)
      as (Hr & Ht & b' & Hb' & Ha').
    cbv zeta. rewrite (Nat.iter_succ 60).
    set (w60 := Nat.iter 60 _ w) in *.
    assert (Hne' : this ≠ running_id w60) by lia.
    destruct (Player_update_effect config.seconds this w60 b' Hb' Hne')
      as (Hr' & _ & Hnew).
    assert (Hf : action_1 (controller b')
                 && Qle_bool 1 (accumulator b' + config.seconds) = false)
      by (rewrite Ha'; apply andb_false_r).
    rewrite Hf in Hr', Hnew. destruct Hnew as [_ Hother].
    split; [congruence|]. rewrite Hother by lia. exact Ht.
Qed.

(** Space is down from the start of a game: one shot in the first 61
    updates. *)
Lemma X7_fire_rate_witness :
  let w := poll_input (keydown 32 (boot (λ _, 1 # 2))) in
  (heap w !! 0%nat = Some (body_at w 0) ∧ (0 < running_id w)%nat ∧
   action_1 (controller (body_at w 0)) = true ∧
   accumulator (body_at w 0) == 0) ∧
  running_id (Nat.iter 61 (Player_update config.seconds 0) w)
  = S (running_id w).
Proof.
  intros w.
  assert (Hb : heap w !! 0%nat = Some (body_at w 0)) by (by vm_compute).
  assert (Hlt : (0 < running_id w)%nat) by (vm_compute; lia).
  assert (Hact : action_1 (controller (body_at w 0)) = true)
    by (by vm_compute).
  assert (Hacc : accumulator (body_at w 0) == 0) by (by vm_compute).
  split; [by repeat split|].
  exact (proj1 (proj2 (X7_fire_rate 0 w (body_at w 0) Hb Hlt Hact Hacc))).
Defined.

(** ** Whole parts *)

Lemma Qfloor_shift (n : Z) (q : Q) :
  Qfloor (inject_Z n + q) = (n + Qfloor q)%Z.
Proof.
  pose proof (Qfloor_le q) as H1. pose proof (Qlt_floor q) as H2.
  pose proof (Qfloor_le (inject_Z n + q)) as H3.
  pose proof (Qlt_floor (inject_Z n + q)) as H4.
  rewrite inject_Z_plus in H2, H4. change (inject_Z 1) with 1 in *.
  set (a := Qfloor q) in *. set (c := Qfloor (inject_Z n + q)) in *.
  clearbody a c.
  assert (Ha : inject_Z (n + a) < inject_Z (c + 1))
    by (rewrite !inject_Z_plus; change (inject_Z 1) with 1; lra).
  assert (Hc : inject_Z c < inject_Z (n + a + 1))
    by (rewrite !inject_Z_plus; change (inject_Z 1) with 1; lra).
  rewrite <- Zlt_Qlt in Ha, Hc. lia.
Qed.

(** ** Projectiles in flight *)

Lemma Projectile_step_rise delta_time b :
  0 <= delta_time -> y (velocity b) <= -100 -> (0 <= acceleration b)%Z ->
  let b' := Projectile_step delta_time b in
  type b' = type b ∧ acceleration b' = acceleration b ∧
  x (velocity b') = x (velocity b) ∧
  y (velocity b') <= -100 ∧
  y (position b') <= y (position b) - delta_time * 100 ∧
  x (position b') = x (position b) + delta_time * x (velocity b).
Proof.
  intros Hdt Hv Ha b'. subst b'.
  assert (Ha' : 0 <= inject_Z (acceleration b))
    by (change 0 with (inject_Z 0); by rewrite <- Zle_Qle).
  unfold Projectile_step, Body_update.
  cbn [type acceleration velocity position set_position set_velocity x y].
  set (a := inject_Z (acceleration b)) in *. clearbody a.
  set (vy := y (velocity b)) in *. clearbody vy.
  repeat split; try lra. nra.
Qed.

Lemma Projectile_steps_rise delta_time n :
  0 <= delta_time ->
  ∀ b, y (velocity b) <= -100 -> (0 <= acceleration b)%Z ->
    let b' := Projectile_steps n delta_time b in
    type b' = type b ∧
    y (position b')
    <= y (position b) - inject_Z (Z.of_nat n) * (delta_time * 100) ∧
    (x (velocity b) == 0 -> x (position b') == x (position b)).
Proof.
  intros Hdt. induction n as [|n IH]; intros b Hv Ha.
  - cbn [Projectile_steps]. split; [done|].
    change (inject_Z (Z.of_nat 0)) with 0. split; [lra|done].
  - cbn [Projectile_steps].
    destruct (Projectile_step_rise delta_time b Hdt Hv Ha)
      as (Ht & Hacc & Hvx & Hvy & Hy & Hx).
    rewrite <- Hacc in Ha.
    destruct (IH (Projectile_step delta_time b) Hvy Ha) as (Ht' & Hy' & Hx').
    cbv zeta. split; [congruence|]. split.
    + rewrite Nat2Z.inj_succ, <- Z.add_1_r, inject_Z_plus.
      change (inject_Z 1) with 1.
      set (m := inject_Z (Z.of_nat n)) in *. clearbody m. lra.
    + intros H0. rewrite Hx', Hx by (by rewrite Hvx). rewrite H0. ring.
Qed.

(** X8.  A projectile that goes up at 100 or more, with an acceleration
    that is not negative, is higher by at least [100 * delta_time] after
    each [update]; with no horizontal velocity its [x] never changes;
    and after enough updates it is at the top boundary, [y <= -5], where
    its next [update] removes it. *)
Theorem X8_projectile_flight (delta_time : Q) (b : Body) :
  0 < delta_time -> type b = Projectile ->
  y (velocity b) <= -100 -> (0 <= acceleration b)%Z ->
  (∀ n, y (position (Projectile_steps n delta_time b))
        <= y (position b) - inject_Z (Z.of_nat n) * (delta_time * 100)) ∧
  (x (velocity b) == 0 ->
   ∀ n, x (position (Projectile_steps n delta_time b)) == x (position b)) ∧
  ∃ n, leaves (Projectile_steps n delta_time b) = true.
Proof.
  intros Hdt Ht Hv Ha.
  assert (Hdt' : 0 <= delta_time) by lra.
  split; [|split].
  - intros n. apply (Projectile_steps_rise delta_time n Hdt' b Hv Ha).
  - intros H0 n. by apply (Projectile_steps_rise delta_time n Hdt' b Hv Ha).
  - destruct (rounds_enough (delta_time * 100) (y (position b) + 5))
      as [n Hn]; [lra|].
    exists n.
    destruct (Projectile_steps_rise delta_time n Hdt' b Hv Ha)
      as (Ht' & Hy & _).
    unfold leaves. rewrite Ht', Ht. apply Qle_bool_iff.
    set (m := inject_Z (Z.of_nat n) * (delta_time * 100)) in *. clearbody m.
    lra.
Qed.

(** The projectile of the arena, at ticks of 1/60 s. *)
Lemma X8_projectile_flight_witness :
  let b := body_at arena 1 in
  (0 < config.seconds ∧ type b = Projectile ∧ y (velocity b) <= -100 ∧
   (0 <= acceleration b)%Z) ∧
  ∃ n, leaves (Projectile_steps n config.seconds b) = true.
Proof.
  intros b.
  assert (Hdt : 0 < config.seconds) by done.
  assert (Ht : type b = Projectile) by (by vm_compute).
  assert (Hv : y (velocity b) <= -100) by (by vm_compute).
  assert (Ha : (0 <= acceleration b)%Z) by (by vm_compute).
  split; [by repeat split|].
  exact (proj2 (proj2 (X8_projectile_flight config.seconds b Hdt Ht Hv Ha))).
Defined.

(** ** Mobs *)

(** X9.  With [Math.random] in [0, 1), the constructor of [Mob] makes,
    under the next identity and in the registry, a mob at a whole [x]
    between 20 and [width - 20] and at [y = -12], 10 by 10, with health
    100, heading straight down, due to switch after a tenth of a
    second; it is above the bottom boundary and in its lane; and exactly
    one random number was drawn. *)
Theorem X9_mob_spawn (w : World) :
  0 <= rand_src (rng w) (rand_pos (rng w)) < 1 ->
  let w' := (Mob_new w).2 in
  (Mob_new w).1 = running_id w ∧
  live w' (running_id w) ∧
  rand_src (rng w') = rand_src (rng w) ∧
  rand_pos (rng w') = S (rand_pos (rng w)) ∧
  ∃ b, heap w' !! running_id w = Some b ∧ type b = Mob ∧
       (∃ z, (20 <= z <= config.canvas_width - 20)%Z ∧
             position b = mkVec (inject_Z z) (-12)) ∧
       size b = mkSize 10 10 ∧ health b = 100%Z ∧
       velocity b = mkVec 0 100 ∧
       switchTime b = 1 # 10 ∧ accumulator b = 0 ∧
       leaves b = false ∧ ∀ delta_time, 0 <= delta_time -> in_lane delta_time b.
Proof.
  intros Hr w'.
  pose proof (randomInt_range 20 (config.canvas_width - 20) (rng w)
                ltac:(done) Hr) as Hz.
  pose proof (Mob_new_body w) as Hb.
  destruct (Mob_new_registry w) as [He _].
  assert (H1 : (Mob_new w).1 = running_id w).
  { unfold Mob_new, Body_new. cbv beta iota zeta. by destruct (randomInt 20 _ _). }
  assert (Hg : rng w' = (randomInt 20 (config.canvas_width - 20) (rng w)).2).
  { unfold w', Mob_new, Body_new. cbv beta iota zeta.
    cbn [rng set_entities set_heap set_running_id].
    by destruct (randomInt 20 _ _). }
  rewrite H1 in Hb. fold w' in Hb.
  split; [done|]. split; [unfold live, w'; rewrite He; apply array_set_lookup_eq|].
  split; [by rewrite Hg|]. split; [by rewrite Hg|].
  eexists. split; [exact Hb|].
  set (z := (randomInt 20 (config.canvas_width - 20) (rng w)).1) in *.
  clearbody z. cbn.
  split; [done|]. split; [by exists z|]. do 6 (split; [done|]).
  intros delta_time Hdt. unfold in_lane. cbn.
  assert (H20 : inject_Z 20 <= inject_Z z) by (rewrite <- Zle_Qle; lia).
  assert (H280 : inject_Z z <= inject_Z (config.canvas_width - 20))
    by (rewrite <- Zle_Qle; lia).
  change (inject_Z 20) with 20 in H20.
  change (inject_Z (config.canvas_width - 20)) with 280 in H280.
  change (inject_Z config.canvas_width) with 300.
  set (q := inject_Z z) in *. clearbody q.
  split; [reflexivity|]. split; [split; lra|]. split; nra.
Qed.

(** A game has just begun, the oracle gives 1/2. *)
Lemma X9_mob_spawn_witness :
  let w := boot (λ _, 1 # 2) in
  0 <= rand_src (rng w) (rand_pos (rng w)) < 1 ∧
  live (Mob_new w).2 (running_id w).
Proof.
  intros w.
  assert (Hr : 0 <= rand_src (rng w) (rand_pos (rng w)) < 1)
    by (by vm_compute).
  split; [exact Hr|].
  exact (proj1 (proj2 (X9_mob_spawn w Hr))).
Defined.

Lemma Mob_bounce_lane b :
  speed b == 100 ->
  let b' := Mob_bounce b in
  speed b' = speed b ∧ position b' = position b ∧
  (inject_Z config.canvas_width - 5 <= x (position b) ->
   x (velocity b') == -100) ∧
  (x (position b) < inject_Z config.canvas_width - 5 ->
   x (position b) <= 5 -> x (velocity b') == 100) ∧
  (5 < x (position b) < inject_Z config.canvas_width - 5 ->
   x (velocity b') = x (velocity b)).
Proof.
  intros Hs b'. subst b'. unfold Mob_bounce.
  destruct (Qle_bool (inject_Z config.canvas_width - 5) (x (position b)))
    eqn:Hr;
    [|destruct (Qle_bool (x (position b)) 5) eqn:Hl];
    cbn [speed position velocity set_velocity x];
    repeat split; intros;
    try apply Qle_bool_iff in Hr; try apply Qle_bool_iff in Hl;
    try (apply not_true_iff_false in Hr; rewrite Qle_bool_iff in Hr);
    try (apply not_true_iff_false in Hl; rewrite Qle_bool_iff in Hl);
    try lra.
Qed.

Lemma half_heading : 0 <= 100 * SQRT1_2 <= 100.
Proof. split; by vm_compute. Qed.

Lemma Mob_switch_lane b g :
  speed b == 100 -> -100 <= x (velocity b) <= 100 ->
  let b' := (Mob_switch b g).1 in
  speed b' = speed b ∧ position b' = position b ∧
  -100 <= x (velocity b') <= 100.
Proof.
  intros Hs Hv. cbv zeta. unfold Mob_switch.
  destruct (randomInt 1 3 g) as [n g1].
  destruct (randomInt 0 2 g1) as [t g2]. cbn [fst].
  pose proof half_heading as Hh.
  assert (H1 : speed b * SQRT1_2 == 100 * SQRT1_2) by (by rewrite Hs).
  assert (H2 : - speed b * SQRT1_2 == - (100 * SQRT1_2))
    by (rewrite Hs; ring).
  set (c := 100 * SQRT1_2) in *. clearbody c.
  destruct n as [|[[]|[]|]|];
    cbn [speed position velocity set_velocity set_accumulator set_switchTime x];
    (split; [done|]); (split; [done|]); lra.
Qed.

Lemma Mob_step_lane delta_time b g :
  0 <= delta_time -> in_lane delta_time b ->
  in_lane delta_time (Mob_step delta_time b g).1.1.
Proof.
  intros Hdt (Hs & Hv & Hx).
  unfold Mob_step. cbv zeta.
  set (b1 := set_accumulator _ b).
  destruct (Mob_bounce_lane b1 Hs) as (Hs1 & Hp1 & Hr & Hl & Hm).
  set (b2 := Body_update delta_time (Mob_bounce b1)).
  assert (Hb2 : in_lane delta_time b2).
  { unfold in_lane, b2, Body_update.
    cbn [speed velocity position set_position x]. rewrite Hs1, Hp1.
    change (speed b1) with (speed b). change (position b1) with (position b) in *.
    change (velocity b1) with (velocity b) in *.
    change (inject_Z config.canvas_width) with 300 in *.
    set (v := x (velocity (Mob_bounce b1))) in *. clearbody v.
    set (p := x (position b)) in *. clearbody p.
    split; [done|].
    destruct (Qlt_le_dec p 295) as [H295|H295].
    - destruct (Qlt_le_dec 5 p) as [H5|H5].
      + rewrite Hm in * by lra. split; [lra|]. split; nra.
      + specialize (Hl H295 H5). split; [lra|]. rewrite Hl. split; nra.
    - specialize (Hr H295). split; [lra|]. rewrite Hr. split; nra. }
  destruct (Qle_bool (switchTime b2) (accumulator b2)); [|exact Hb2].
  cbn [fst]. destruct Hb2 as (Hs2 & Hv2 & Hx2).
  destruct (Mob_switch_lane b2 g Hs2 Hv2) as (Hs3 & Hp3 & Hv3).
  unfold in_lane. by rewrite Hs3, Hp3.
Qed.

(** X10.  A mob stays in its lane: once its speed is 100, its sideways
    velocity is the speed at most and its [x] is within one tick of
    travel of the walls at 5 and [width - 5], that is so after every
    number of updates, whatever the random numbers; with ticks of at
    most 1/20 s it is never off the canvas. *)
Theorem X10_mob_stays_in_lane (delta_time : Q) (n : nat) (b : Body)
    (g : Rng) :
  0 <= delta_time -> in_lane delta_time b ->
  let b' := (Mob_steps n delta_time b g).1 in
  in_lane delta_time b' ∧
  (delta_time * 20 <= 1 ->
   0 <= x (position b') <= inject_Z config.canvas_width).
Proof.
  intros Hdt Hb b'.
  assert (Hl : in_lane delta_time b').
  { subst b'. revert b g Hb. induction n as [|n IH]; intros b g Hb; [done|].
    cbn [Mob_steps].
    pose proof (Mob_step_lane delta_time b g Hdt Hb) as H.
    destruct (Mob_step delta_time b g) as [[b1 g1] gone]. by apply IH. }
  split; [exact Hl|]. intros H20. destruct Hl as (_ & _ & Hx).
  change (inject_Z config.canvas_width) with 300 in *.
  set (p := x (position b')) in *. clearbody p. split; lra.
Qed.

(** The mob of the arena, 600 ticks of 1/60 s later. *)
Lemma X10_mob_stays_in_lane_witness :
  let b := body_at arena 2 in
  let g := mkRng (λ _, 1 # 2) 0 in
  (0 <= config.seconds ∧ in_lane config.seconds b) ∧
  in_lane config.seconds (Mob_steps 600 config.seconds b g).1.
Proof.
  intros b g.
  assert (Hdt : 0 <= config.seconds) by done.
  assert (Hb : in_lane config.seconds b) by (repeat split; by vm_compute).
  split; [by split|].
  exact (proj1 (X10_mob_stays_in_lane config.seconds 600 b g Hdt Hb)).
Defined.

(** ** The spawner *)

(** [Enemy_Spawner.update] adds the tick to its accumulator.
    Below 5 seconds that is all it does.  From 5 seconds on it makes one
    [Mob] under the next identity, in the registry, adds one to the mob
    count of [player], changes no other body, queues nothing, and sets
    the accumulator to 0: what was over 5 seconds is dropped. *)
Lemma Enemy_Spawner_update_effect (delta_time : Q) (w : World) :
  let acc := enemy_spawner w + delta_time in
  let w' := Enemy_Spawner_update delta_time w in
  if Qle_bool 5 acc then
    enemy_spawner w' = 0 ∧ running_id w' = S (running_id w) ∧
    (type <$> heap w' !! running_id w) = Some Mob ∧
    live w' (running_id w) ∧
    queued_entities_for_removal w' = queued_entities_for_removal w ∧
    (∀ r, r ≠ running_id w -> r ≠ player w -> heap w' !! r = heap w !! r) ∧
    (player w ≠ running_id w ->
     heap w' !! player w
     = (λ p, set_mobCount (mobCount p + 1) p) <$> heap w !! player w)
  else w' = set_enemy_spawner acc w.
Proof.
  intros acc w'. subst w'. unfold Enemy_Spawner_update. fold acc.
  destruct (Qle_bool 5 acc); [|done]. cbv zeta.
  set (w0 := set_enemy_spawner acc w).
  pose proof (Mob_new_body w0) as Hb.
  destruct (Mob_new_registry w0) as [He Hq].
  assert (H1 : (Mob_new w0).1 = running_id w).
  { unfold Mob_new, Body_new. cbv beta iota zeta. by destruct (randomInt 20 _ _). }
  assert (Hrest : running_id (Mob_new w0).2 = S (running_id w) ∧
                  player (Mob_new w0).2 = player w ∧
                  ∀ r, r ≠ running_id w ->
                       heap (Mob_new w0).2 !! r = heap w !! r).
  { unfold Mob_new, Body_new. cbv beta iota zeta.
    destruct (randomInt 20 _ _) as [rx g].
    cbn [snd running_id player set_rng modify set_heap set_entities
         set_running_id heap set_enemy_spawner w0].
    split; [done|]. split; [done|]. intros r Hr.
    rewrite lookup_alter_ne, lookup_insert_ne; done. }
  destruct Hrest as (Hid & Hpl & Hother). rewrite H1 in Hb.
  set (w1 := (Mob_new w0).2) in *. change (snd (Mob_new w0)) with w1.
  rewrite Hpl.
  cbn [enemy_spawner running_id queued_entities_for_removal set_enemy_spawner
       modify set_heap heap].
  split; [done|]. split; [done|]. split.
  { destruct (decide (player w = running_id w)) as [->|Hne].
    - by rewrite lookup_alter_eq, Hb.
    - by rewrite lookup_alter_ne, Hb. }
  split.
  { unfold live.
    cbn [entities set_enemy_spawner modify set_heap].
    rewrite He. apply array_set_lookup_eq. }
  split; [exact Hq|]. split.
  - intros r Hr Hp. rewrite lookup_alter_ne by done. by apply Hother.
  - intros Hne. rewrite lookup_alter_eq. by rewrite Hother.
Qed.

(** X11.  [Enemy_Spawner.update] adds the tick to its accumulator.
    Below 5 seconds that is all it does.  From 5 seconds on it makes one
    [Mob] under the next identity, in the registry, adds one to the mob
    count of [player], changes no other body, queues nothing, and sets
    the accumulator to 0: what was over 5 seconds is dropped. *)
Theorem X11_spawner_update (delta_time : Q) (w : World) :
  let acc := enemy_spawner w + delta_time in
  let w' := Enemy_Spawner_update delta_time w in
  if Qle_bool 5 acc then
    enemy_spawner w' = 0 ∧ running_id w' = S (running_id w) ∧
    (type <$> heap w' !! running_id w) = Some Mob ∧
    live w' (running_id w) ∧
    queued_entities_for_removal w' = queued_entities_for_removal w ∧
    (∀ r, r ≠ running_id w -> r ≠ player w -> heap w' !! r = heap w !! r) ∧
    (player w ≠ running_id w ->
     heap w' !! player w
     = (λ p, set_mobCount (mobCount p + 1) p) <$> heap w !! player w)
  else w' = set_enemy_spawner acc w.
Proof. apply Enemy_Spawner_update_effect. Qed.

(** With ticks of 1/60 s and from an accumulator at 0, the first 299
    updates of the spawner only count. *)
Lemma spawner_waits w k :
  enemy_spawner w == 0 -> (k <= 299)%nat ->
  let wk := Nat.iter k (Enemy_Spawner_update config.seconds) w in
  wk = set_enemy_spawner (enemy_spawner wk) w ∧
  enemy_spawner wk == inject_Z (Z.of_nat k) * config.seconds.
Proof.
  intros H0. cbv zeta. induction k as [|k IH]; intros Hk.
  - cbn [Nat.iter nat_rect]. split; [by destruct w|]. rewrite H0.
    change (inject_Z (Z.of_nat 0)) with 0. ring.
  - destruct IH as (Hw & Ha); [lia|]. rewrite Nat.iter_succ.
    set (wk := Nat.iter k _ w) in *.
    destruct (tick_count k (enemy_spawner wk) Ha) as (_ & Hspawn & Hnext).
    assert (Hstep : Enemy_Spawner_update config.seconds wk
                    = set_enemy_spawner (enemy_spawner wk + config.seconds) wk).
    { unfold Enemy_Spawner_update.
      replace (Qle_bool 5 (enemy_spawner wk + config.seconds)) with false;
        [done|].
      symmetry. apply not_true_iff_false. rewrite Hspawn. lia. }
    rewrite Hstep. cbn [enemy_spawner set_enemy_spawner].
    split; [|exact Hnext].
    set (a := enemy_spawner wk + config.seconds). clearbody a.
    rewrite Hw. by destruct w.
Qed.

Lemma spawner_fires w n :
  enemy_spawner w == 0 -> n = 299%nat ->
  let w' := Nat.iter (S (S n)) (Enemy_Spawner_update config.seconds) w in
  running_id w' = S (running_id w) ∧
  (type <$> heap w' !! running_id w) = Some Mob ∧
  live w' (running_id w).
Proof.
  intros H0 Hn. cbv zeta. rewrite !Nat.iter_succ.
  destruct (spawner_waits w n H0) as (Hw & Ha); [lia|].
  set (wk := Nat.iter n _ w) in *.
  destruct (tick_count n (enemy_spawner wk) Ha) as (_ & Hspawn & _).
  pose proof (Enemy_Spawner_update_effect config.seconds wk) as H.
  cbv zeta in H.
  replace (Qle_bool 5 (enemy_spawner wk + config.seconds)) with true in H
    by (symmetry; apply Hspawn; lia).
  destruct H as (He & Hid & Ht & Hl & _).
  assert (Hr : running_id wk = running_id w) by (rewrite Hw; by destruct w).
  rewrite Hr in *.
  set (w300 := Enemy_Spawner_update config.seconds wk) in *.
  assert (Hlast : Enemy_Spawner_update config.seconds w300
                  = set_enemy_spawner (0 + config.seconds) w300).
  { unfold Enemy_Spawner_update at 1. by rewrite He. }
  rewrite Hlast. done.
Qed.

(** X12.  The spawner makes one mob every 5 seconds: with ticks of
    1/60 s and from an accumulator at 0, the first 299 updates of the
    spawner change nothing but its accumulator, and the first 301 make
    exactly one [Mob].  (The 300th update brings the accumulator to 5
    seconds, up to the rounding of the additions.) *)
Theorem X12_spawner_period (w : World) :
  enemy_spawner w == 0 ->
  (∀ k, (k < 300)%nat ->
     let wk := Nat.iter k (Enemy_Spawner_update config.seconds) w in
     wk = set_enemy_spawner (enemy_spawner wk) w) ∧
  let w' := Nat.iter 301 (Enemy_Spawner_update config.seconds) w in
  running_id w' = S (running_id w) ∧
  (type <$> heap w' !! running_id w) = Some Mob ∧
  live w' (running_id w).
Proof.
  intros H0. split.
  - intros k Hk. apply spawner_waits; [done|lia].
  - exact (spawner_fires w 299 H0 eq_refl).
Qed.

(** From the start of a game. *)
Lemma X12_spawner_period_witness :
  let w := boot (λ _, 1 # 2) in
  enemy_spawner w == 0 ∧
  running_id (Nat.iter 301 (Enemy_Spawner_update config.seconds) w)
  = S (running_id w).
Proof.
  intros w.
  assert (H0 : enemy_spawner w == 0) by (by vm_compute).
  split; [exact H0|].
  exact (proj1 (proj2 (X12_spawner_period w H0))).
Defined.

(** ** The rectangle test *)



(** ** What the scan leaves alone *)

Lemma hurt_nothing b : hurt 0 0 b = b.
Proof.
  destruct b. unfold hurt, set_mobsKilled, set_health. cbn. f_equal; lia.
Qed.

Lemma blows_none w r b ps :
  heap w !! r = Some b -> type b ≠ Player -> blows w r ps = 0%nat.
Proof.
  intros Hb Ht. unfold blows. induction ps as [|p ps IH]; [done|].
  rewrite filter_cons. case_decide as Hp; [|exact IH].
  exfalso. destruct Hp as [<- Hp]. unfold hit in Hp. rewrite Hb in Hp.
  destruct (heap w !! p.2); [|done].
  destruct (type b); try done; by rewrite andb_false_r in Hp.
Qed.

Lemma no_mob_no_hit t w p :
  (∀ b, heap w !! p.2 = Some b -> type b ≠ Mob) -> hit t Mob w p = false.
Proof.
  intros H. unfold hit. destruct (heap w !! p.1) as [a|]; [|done].
  destruct (heap w !! p.2) as [b|]; [|done].
  specialize (H b eq_refl). destruct (type b); try done;
    by rewrite andb_false_r.
Qed.

(** X14.  The collision scan changes nothing of the world but the store
    and the removal queue, which only grows.  Of a body it changes
    nothing but the health, which can only fall, by a multiple of 20,
    and only for a Player; and the kill count, which can only rise, and
    only for [player].  With no Mob in the registry the scan changes
    nothing at all. *)
Theorem X14_scan_frame (delta_time : Q) (w : World) :
  let w' := CollissionChecker_update delta_time w in
  (∃ new,
     w' = set_queue (queued_entities_for_removal w ++ new) (set_heap (heap w') w)) ∧
  (∀ r b, heap w !! r = Some b ->
     ∃ n k : nat,
       heap w' !! r
       = Some (set_mobsKilled (mobsKilled b + Z.of_nat k)
                 (set_health (health b - 20 * Z.of_nat n) b)) ∧
       (type b ≠ Player -> n = 0%nat) ∧ (r ≠ player w -> k = 0%nat)) ∧
  (∀ r, heap w !! r = None -> heap w' !! r = None) ∧
  ((∀ r b, r ∈ Object_values (entities w) -> heap w !! r = Some b ->
           type b ≠ Mob) ->
   w' = w).
Proof.
  intros w'. subst w'. rewrite scan_ordered_pairs.
  set (ps := ordered_pairs (Object_values (entities w))).
  split; [|split; [|split]].
  - rewrite scanned_world. eexists. reflexivity.
  - intros r b Hb. rewrite scanned_world. cbn [heap set_queue set_heap].
    rewrite scanned_heap_lookup, Hb. cbn [fmap option_fmap option_map].
    destruct (decide (r = player w)) as [Hp|Hp].
    + exists (blows w r ps), (kills w ps). split; [done|].
      split; [|done]. intros Ht. by apply (blows_none w r b).
    + exists (blows w r ps), 0%nat. split; [done|].
      split; [|done]. intros Ht. by apply (blows_none w r b).
  - intros r Hr. rewrite scanned_world. cbn [heap set_queue set_heap].
    by rewrite scanned_heap_lookup, Hr.
  - intros Hno.
    assert (Hps : ∀ p, p ∈ ps -> collide_pair w p = w).
    { intros p Hp. apply elem_ordered_pairs in Hp as [_ H2].
      rewrite collide_pair_hit.
      by rewrite !no_mob_no_hit by (intros b Hb; by apply (Hno p.2)). }
    clearbody ps. induction ps as [|p ps IH]; [done|].
    cbn [foldl]. rewrite Hps by apply list_elem_of_here.
    apply IH. intros q Hq. apply Hps. by apply list_elem_of_further.
Qed.

(** ** A new game *)

Lemma Object_values_holes n (a : list (option nat)) :
  Object_values (replicate n None ++ a) = Object_values a.
Proof. unfold Object_values. induction n as [|n IH]; [done | exact IH]. Qed.

(** X15.  [start()] makes a fresh game around a new player: the player
    gets the next identity and is the only body of the registry, which
    is an array with holes below it; the removal queue is empty and the
    spawner at 0; the clock of the loop and the random numbers go on.
    The new player is alive, at the middle of the width and 100 above
    the bottom, 11 by 10, at rest, with no key down, no kill and no
    score. *)
Theorem X15_start_fresh (w : World) :
  let w' := start w in
  let n := running_id w in
  player w' = n ∧ running_id w' = S n ∧
  entities w' = replicate n None ++ [Some n] ∧
  Object_values (entities w') = [n] ∧
  queued_entities_for_removal w' = [] ∧ enemy_spawner w' = 0 ∧
  clock w' = clock w ∧ rng w' = rng w ∧
  (∀ r, r ≠ n -> heap w' !! r = heap w !! r) ∧
  ∃ p, heap w' !! n = Some p ∧ id p = n ∧ type p = Player ∧
       x (position p) == inject_Z config.canvas_width / 2 ∧
       y (position p) == inject_Z config.canvas_height - 100 ∧
       size p = mkSize 11 10 ∧ velocity p = mkVec 0 0 ∧
       health p = 100%Z ∧ isDead p = false ∧ speed p = 120 ∧
       raw_input p = ∅ ∧ controller p = mkController 0 0 false ∧
       accumulator p = 0 ∧ mobsKilled p = 0%Z ∧ lifeTime p = 0 ∧
       score p = 0%Z.
Proof.
  intros w' n. subst w' n. unfold start, Player_new, Body_new.
  cbv beta iota zeta.
  cbn [player running_id entities queued_entities_for_removal enemy_spawner
       clock last_time loop_count rng heap set_enemy_spawner set_player modify
       set_heap set_entities set_running_id set_queue fst snd].
  assert (He : array_set (running_id w) (running_id w) []
               = replicate (running_id w) None ++ [Some (running_id w)]).
  { unfold array_set. cbn [length]. rewrite decide_False by lia.
    by rewrite Nat.sub_0_r. }
  rewrite He, Object_values_holes.
  do 8 (split; [done|]). split.
  - intros r Hr. by rewrite lookup_alter_ne, lookup_insert_ne.
  - rewrite lookup_alter_eq, lookup_insert_eq. eexists. split; [done|].
    cbn. repeat split; reflexivity.
Qed.

(** ** What a body can become *)

Lemma evolves_refl b : evolves b b.
Proof. evolve_fields. Qed.

Lemma evolves_trans a b c : evolves a b -> evolves b c -> evolves a c.
Proof.
  intros (?&?&?&?&?&?&?) (?&?&?&?&?&?&?). unfold evolves.
  repeat split; try congruence; try lia. lra.
Qed.

Lemma extends_refl w : extends w w.
Proof. intros r b Hb. exists b. split; [done | apply evolves_refl]. Qed.

Lemma extends_trans w1 w2 w3 : extends w1 w2 -> extends w2 w3 -> extends w1 w3.
Proof.
  intros H12 H23 r b Hb. destruct (H12 r b Hb) as (b2 & Hb2 & E2).
  destruct (H23 r b2 Hb2) as (b3 & Hb3 & E3). exists b3.
  split; [done | by apply (evolves_trans b b2 b3)].
Qed.

Lemma extends_heap w w' : heap w' = heap w -> extends w w'.
Proof. intros H r b Hb. exists b. rewrite H. split; [done | apply evolves_refl]. Qed.

Lemma extends_modify r f w :
  (∀ b, heap w !! r = Some b -> evolves b (f b)) -> extends w (modify r f w).
Proof.
  intros Hf r' b Hb. destruct (decide (r = r')) as [->|Hne].
  - exists (f b). rewrite modify_lookup, Hb. split; [done | by apply Hf].
  - exists b. rewrite modify_lookup_ne by done.
    split; [done | apply evolves_refl].
Qed.

(** A constructor changes no body that was there. *)
Lemma extends_other w w' :
  wf w -> (∀ r, r ≠ running_id w -> heap w' !! r = heap w !! r) ->
  extends w w'.
Proof.
  intros Hw H r b Hb. destruct (wf_lookup w r b Hw Hb) as (Hlt & _).
  exists b. rewrite H by lia. split; [done | apply evolves_refl].
Qed.

Lemma Mob_new_other w r :
  r ≠ running_id w -> heap (Mob_new w).2 !! r = heap w !! r.
Proof.
  intros Hr. unfold Mob_new.
  set (w1 := (Body_new w).2). change (Body_new w) with (running_id w, w1).
  cbv beta iota. destruct (randomInt 20 _ (rng w1)) as [a g].
  cbn [fst snd set_rng heap]. rewrite modify_lookup_ne by done.
  unfold w1. rewrite Body_new_heap. by rewrite decide_False.
Qed.

Lemma start_other w r :
  r ≠ running_id w -> heap (start w) !! r = heap w !! r.
Proof.
  intros Hr. unfold start, Player_new, Body_new. cbv beta iota zeta.
  cbn [heap set_enemy_spawner set_player modify set_heap set_entities
       set_running_id set_queue running_id].
  by rewrite lookup_alter_ne, lookup_insert_ne.
Qed.

Lemma start_player w :
  player (start w) = running_id w ∧
  queued_entities_for_removal (start w) = [] ∧
  (type <$> heap (start w) !! running_id w) = Some Player.
Proof.
  unfold start, Player_new, Body_new. cbv beta iota zeta.
  cbn [heap player queued_entities_for_removal set_enemy_spawner set_player
       modify set_heap set_entities set_running_id set_queue running_id].
  by rewrite lookup_alter_eq, lookup_insert_eq.
Qed.

Lemma Player_steer_evolves delta_time b :
  0 <= delta_time -> evolves b (Player_steer delta_time b).
Proof.
  intros Hdt. unfold Player_steer. cbv zeta. destruct (steer _ _ _ _ _).
  evolve_fields.
Qed.

Lemma Mob_step_evolves delta_time b g :
  evolves b (Mob_step delta_time b g).1.1.
Proof.
  unfold Mob_step. cbv zeta.
  assert (H2 : evolves b (Body_update delta_time
                            (Mob_bounce
                               (set_accumulator (accumulator b + delta_time) b)))).
  { unfold Mob_bounce. repeat case_match; evolve_fields. }
  destruct (Qle_bool _ _); cbn [fst]; [|exact H2].
  eapply evolves_trans; [exact H2|]. unfold Mob_switch.
  destruct (randomInt 1 3 g) as [n g1]. destruct (randomInt 0 2 g1) as [t g2].
  cbn [fst]. destruct n as [|[[]|[]|]|]; evolve_fields.
Qed.

Lemma hurt_evolves (n k : nat) b :
  evolves b (hurt (Z.of_nat n) (Z.of_nat k) b).
Proof. evolve_fields. Qed.

(** ** What a tick does to the bodies and to [player] *)

Lemma Projectile_new_player w : player (Projectile_new w).2 = player w.
Proof.
  unfold Projectile_new, Body_new. cbv beta iota zeta.
  by destruct (randomInt 0 6 _).
Qed.

Lemma Mob_new_player w : player (Mob_new w).2 = player w.
Proof.
  unfold Mob_new, Body_new. cbv beta iota zeta.
  by destruct (randomInt 20 _ _).
Qed.

Lemma Player_update_grows delta_time this w b :
  0 <= delta_time -> wf w -> heap w !! this = Some b -> type b = Player ->
  extends w (Player_update delta_time this w) ∧
  player (Player_update delta_time this w) = player w.
Proof.
  intros Hdt Hw Hb Ht. unfold Player_update.
  set (w1 := modify this (Player_steer delta_time) w).
  assert (Hw1 : wf w1).
  { apply wf_modify; [done|]. intros b0 Hb0.
    destruct (Player_steer_keeps delta_time b0) as [Hi Hty].
    split; [done|]. apply heads_down_other. rewrite Hty.
    replace b0 with b by congruence. by rewrite Ht. }
  assert (E1 : extends w w1).
  { apply extends_modify. intros. by apply Player_steer_evolves. }
  assert (Hmove : ∀ w0, extends w0 (modify this (Player_move delta_time) w0)).
  { intros w0. apply extends_modify. intros. evolve_fields. }
  destruct (heap w1 !! this) as [b1|]; [destruct (Player_fires b1)|].
  - split; [|exact (Projectile_new_player w1)].
    eapply extends_trans; [exact E1|].
    eapply extends_trans; [|apply Hmove].
    eapply extends_trans;
      [apply (extends_other w1); [done | apply Projectile_new_other]|].
    apply extends_modify. intros. evolve_fields.
  - split; [|done]. eapply extends_trans; [exact E1 | apply Hmove].
  - split; [|done]. eapply extends_trans; [exact E1 | apply Hmove].
Qed.

Lemma entity_update_grows delta_time this w :
  0 <= delta_time -> wf w ->
  extends w (entity_update delta_time this w) ∧
  player (entity_update delta_time this w) = player w.
Proof.
  intros Hdt Hw. unfold entity_update.
  destruct (heap w !! this) as [b|] eqn:Hb; [|split; [apply extends_refl|done]].
  destruct (type b) eqn:Ht.
  - by apply (Player_update_grows _ _ _ b).
  - unfold Projectile_update. rewrite Hb. split; [|by destruct (Qle_bool _ _)].
    eapply extends_trans; [|apply extends_modify; intros; evolve_fields].
    apply extends_heap. by destruct (Qle_bool _ _).
  - unfold Mob_update. rewrite Hb.
    pose proof (Mob_step_evolves delta_time b (rng w)) as He.
    destruct (Mob_step delta_time b (rng w)) as [[b' g] gone]. cbn [fst] in He.
    split; [|by destruct gone].
    assert (Hput : ∀ w0, heap w0 = heap w ->
                         extends w (set_rng g (modify this (λ _, b') w0))).
    { intros w0 H0. eapply extends_trans; [by apply (extends_heap w w0)|].
      eapply extends_trans; [|by apply extends_heap].
      apply extends_modify. intros b0 Hb0. rewrite H0 in Hb0.
      by replace b0 with b by congruence. }
    destruct gone; by apply Hput.
Qed.

Lemma move_entities_grows delta_time w :
  0 <= delta_time -> wf w ->
  extends w (move_entities delta_time w) ∧
  player (move_entities delta_time w) = player w.
Proof.
  intros Hdt. unfold move_entities. generalize (Object_values (entities w)) as l.
  intros l. revert w. induction l as [|r l IH]; intros w Hw;
    [split; [apply extends_refl | done]|].
  cbn [foldl]. destruct (entity_update_wf delta_time r w Hw) as [H1 _].
  destruct (entity_update_grows delta_time r w Hdt Hw) as [E1 P1].
  destruct (IH _ H1) as [E2 P2].
  split; [by eapply extends_trans | congruence].
Qed.

Lemma scan_grows delta_time w :
  extends w (CollissionChecker_update delta_time w) ∧
  player (CollissionChecker_update delta_time w) = player w.
Proof.
  rewrite scan_ordered_pairs, scanned_world. split; [|done].
  intros r b Hb. cbn [heap set_queue set_heap].
  rewrite scanned_heap_lookup, Hb. eexists. split; [done|].
  case_decide; [apply hurt_evolves | apply (hurt_evolves _ 0)].
Qed.

Lemma Enemy_Spawner_grows delta_time w :
  wf w ->
  extends w (Enemy_Spawner_update delta_time w) ∧
  player (Enemy_Spawner_update delta_time w) = player w ∧
  queued_entities_for_removal (Enemy_Spawner_update delta_time w)
  = queued_entities_for_removal w.
Proof.
  intros Hw. unfold Enemy_Spawner_update.
  destruct (Qle_bool _ _); [|split; [by apply extends_heap | done]].
  set (w0 := set_enemy_spawner _ w).
  destruct (Mob_new_registry w0) as [_ Hq].
  split; [|split; [exact (Mob_new_player w0) | exact Hq]].
  eapply extends_trans; [|by apply extends_heap].
  eapply extends_trans; [|apply extends_modify; intros; evolve_fields].
  eapply extends_trans; [apply (extends_heap w w0); done|].
  apply extends_other; [by apply wf_set_enemy_spawner | apply Mob_new_other].
Qed.

Lemma start_extends w : wf w -> extends w (start w).
Proof. intros Hw. apply extends_other; [done | apply start_other]. Qed.

Lemma player_there_grows w w' :
  extends w w' -> player w' = player w -> player_there w -> player_there w'.
Proof.
  intros He Hp (p & Hb & Ht). destruct (He _ _ Hb) as (p' & Hb' & E).
  exists p'. rewrite Hp. split; [done|]. destruct E as (_ & -> & _). done.
Qed.

Lemma update_grows delta_time w :
  0 <= delta_time -> wf w ->
  extends w (update delta_time w) ∧
  queued_entities_for_removal (update delta_time w) = [] ∧
  (player_there w -> player_there (update delta_time w)).
Proof.
  intros Hdt Hw. unfold update. cbv zeta.
  pose proof (poll_input_wf w Hw) as H1.
  destruct (move_entities_wf delta_time _ H1) as [H2 _].
  destruct (CollissionChecker_wf delta_time _ H2) as [H3 _].
  destruct (purge_wf _ H3) as [H4 _].
  destruct (Enemy_Spawner_wf delta_time _ H4) as [H5 _].
  assert (E1 : extends w (poll_input w))
    by (apply extends_modify; intros; evolve_fields).
  destruct (move_entities_grows delta_time _ Hdt H1) as [E2 P2].
  destruct (scan_grows delta_time (move_entities delta_time (poll_input w)))
    as [E3 P3].
  set (w3 := CollissionChecker_update _ _) in *.
  assert (E4 : extends w3 (purge w3)) by (by apply extends_heap).
  destruct (Enemy_Spawner_grows delta_time _ H4) as (E5 & P5 & Q5).
  set (w5 := Enemy_Spawner_update _ _) in *.
  assert (E : extends w w5).
  { eapply extends_trans; [exact E1|]. eapply extends_trans; [exact E2|].
    eapply extends_trans; [exact E3|].
    eapply extends_trans; [exact E4 | exact E5]. }
  assert (P : player w5 = player w).
  { rewrite P5. change (player (purge w3)) with (player w3).
    by rewrite P3, P2. }
  unfold restart_if_asked.
  destruct (heap w5 !! player w5) as [p|];
    [destruct (isDead p && action_1 (controller p))|].
  - destruct (start_player w5) as (Sp & Sq & St).
    split; [eapply extends_trans; [exact E | by apply start_extends]|].
    split; [done|]. intros _. unfold player_there. rewrite Sp.
    destruct (heap (start w5) !! running_id w5) as [p'|]; [|done].
    exists p'. split; [done|]. by injection St.
  - split; [done|]. split; [by rewrite Q5|]. by apply player_there_grows.
  - split; [done|]. split; [by rewrite Q5|]. by apply player_there_grows.
Qed.

Lemma draw_settled w :
  queued_entities_for_removal w = [] -> settled (draw w).
Proof.
  intros Hq. unfold draw, settled.
  destruct (heap w !! player w) as [p|] eqn:Hp; [|by left].
  destruct (isDead p) eqn:Hd; [|by left]. right.
  cbn [Body_remove queued_entities_for_removal set_queue player heap].
  rewrite Hq. split; [done|]. by exists p.
Qed.

(** What holds between two events of a session. *)
Lemma tick_session w :
  wf w -> player_there w ->
  let w' := draw (update config.seconds w) in
  extends w w' ∧ player_there w' ∧ settled w'.
Proof.
  intros Hw Hp. cbv zeta.
  destruct (update_grows config.seconds w) as (E & Q & P); [done..|].
  assert (Hh : heap (draw (update config.seconds w))
               = heap (update config.seconds w)).
  { unfold draw. destruct (heap _ !! _) as [p|]; [|done]. by destruct (isDead p). }
  assert (Hpl : player (draw (update config.seconds w))
                = player (update config.seconds w)).
  { unfold draw. destruct (heap _ !! _) as [p|]; [|done]. by destruct (isDead p). }
  split; [eapply extends_trans; [exact E | by apply extends_heap]|].
  split; [|by apply draw_settled].
  destruct (P Hp) as (p & Hb & Ht). exists p. by rewrite Hpl, Hh.
Qed.

Lemma frame_session w w' :
  heap w' = heap w -> player w' = player w ->
  queued_entities_for_removal w' = queued_entities_for_removal w ->
  (player_there w ∧ settled w) -> player_there w' ∧ settled w'.
Proof.
  intros Hh Hp Hq [Hpt Hs]. unfold player_there, settled.
  by rewrite Hh, Hp, Hq.
Qed.

Lemma loop_while_session fuel curr_time :
  ∀ delta_time w,
    wf w -> player_there w ∧ settled w ->
    let w' := (loop_while fuel curr_time delta_time w).1 in
    extends w w' ∧ player_there w' ∧ settled w'.
Proof.
  induction fuel as [|fuel IH]; intros d w Hw Hs;
    [split; [apply extends_refl | done]|].
  cbn [loop_while]. destruct (Qltb config.seconds d);
    [|split; [apply extends_refl | done]].
  destruct (update_wf config.seconds w Hw) as [H1 _].
  destruct (draw_wf _ H1) as [H2 _].
  destruct (tick_session w Hw (proj1 Hs)) as (E & Hs').
  set (w1 := set_loop_count _ _).
  assert (Hw1 : wf w1) by (by eapply wf_frame; [..|exact H2]).
  destruct (IH (d - config.seconds) w1 Hw1) as [E' Hs''].
  { by apply (frame_session (draw (update config.seconds w))). }
  split; [|exact Hs'']. eapply extends_trans; [exact E|].
  eapply extends_trans; [|exact E']. by apply extends_heap.
Qed.

Lemma key_session (f : Body -> Body) w :
  (∀ b, evolves b (f b) ∧ isDead (f b) = isDead b) ->
  player_there w ∧ settled w ->
  let w' := set_heap ((λ b, match type b with Player => f b | _ => b end)
                        <$> heap w) w in
  extends w w' ∧ player_there w' ∧ settled w'.
Proof.
  intros Hf [(p & Hb & Ht) Hs]. cbv zeta.
  assert (Hl : ∀ r b, heap w !! r = Some b ->
     ∃ b', heap (set_heap ((λ b, match type b with Player => f b | _ => b end)
                             <$> heap w) w) !! r = Some b' ∧
           evolves b b' ∧ isDead b' = isDead b).
  { intros r b Hr. cbn [heap set_heap]. rewrite lookup_fmap, Hr.
    eexists. split; [done|].
    destruct (type b); [apply Hf | split; [apply evolves_refl | done]..]. }
  split; [|split].
  - intros r b Hr. destruct (Hl r b Hr) as (b' & H' & E & _). by exists b'.
  - destruct (Hl _ _ Hb) as (p' & H' & E & _). exists p'.
    split; [exact H'|]. destruct E as (_ & -> & _). done.
  - destruct Hs as [Hq | (Hq & p0 & Hb0 & Hd)]; [by left | right].
    split; [exact Hq|]. destruct (Hl _ _ Hb0) as (p' & H' & _ & Hd').
    exists p'. split; [exact H' | congruence].
Qed.

Lemma step_session w e :
  wf w -> player_there w ∧ settled w ->
  extends w (step w e) ∧ player_there (step w e) ∧ settled (step w e).
Proof.
  intros Hw Hs. destruct e as [k|k|t]; cbn [step].
  - apply (key_session (λ b, set_raw_input _ b)); [|done].
    intros b. split; [evolve_fields | done].
  - apply (key_session (λ b, set_raw_input _ b)); [|done].
    intros b. split; [evolve_fields | done].
  - unfold loop. cbv zeta.
    set (w1 := match last_time w with None => _ | Some _ => w end).
    assert (Hw1 : wf w1 ∧ heap w1 = heap w ∧ player w1 = player w ∧
                  queued_entities_for_removal w1
                  = queued_entities_for_removal w).
    { unfold w1. destruct (last_time w); [done|].
      split; [|done]. by eapply wf_frame; [..|exact Hw]. }
    destruct Hw1 as (Hw1 & Hh & Hp & Hq).
    destruct (loop_while_session
                (loop_fuel (t / 1000 - match last_time w1 with
                                       | Some l => l | None => 0 end))
                (t / 1000)
                (t / 1000 - match last_time w1 with
                            | Some l => l | None => 0 end) w1 Hw1)
      as [E Hs'].
    { by apply (frame_session w). }
    split; [|exact Hs']. eapply extends_trans; [|exact E].
    by apply extends_heap.
Qed.

Lemma run_session es :
  ∀ w, wf w -> player_there w ∧ settled w ->
    extends w (run w es) ∧ player_there (run w es) ∧ settled (run w es).
Proof.
  induction es as [|e es IH]; intros w Hw Hs;
    [split; [apply extends_refl | done]|].
  cbn [run foldl]. destruct (step_wf w e Hw) as [H1 _].
  destruct (step_session w e Hw Hs) as [E1 Hs1].
  destruct (IH _ H1 Hs1) as [E2 Hs2].
  split; [by eapply extends_trans | exact Hs2].
Qed.

Lemma boot_session random :
  player_there (boot random) ∧ settled (boot random).
Proof.
  unfold boot. destruct (start_player (globals random)) as (Sp & Sq & St).
  split; [|by left]. unfold player_there. rewrite Sp.
  destruct (heap (start (globals random)) !! _) as [p|]; [|done].
  exists p. split; [done|]. by injection St.
Qed.

Lemma score_evolves b b' : evolves b b' -> (score b <= score b')%Z.
Proof.
  intros (_ & _ & _ & _ & _ & Hk & Hl). unfold score.
  apply Qfloor_resp_le. rewrite Zle_Qle in Hk.
  set (k := inject_Z (mobsKilled b)) in *.
  set (k' := inject_Z (mobsKilled b')) in *. clearbody k k'. lra.
Qed.

(** ** Sessions *)

(** X16.  Between two events of a session, whatever the events: a slot
    of the registry that is filled holds the body of that identity,
    which is in the store; no body is twice in the registry; [player] is
    a body of the store of class Player; and the removal queue is empty,
    or holds just [player], who is then dead. *)
Theorem X16_session_invariant (random : nat -> Q) (es : list Event) :
  let w := run (boot random) es in
  (∀ j r, entities w !! j = Some (Some r) ->
          j = r ∧ is_Some (heap w !! r)) ∧
  NoDup (Object_values (entities w)) ∧
  (∀ r, r ∈ Object_values (entities w) ↔ live w r) ∧
  player_there w ∧ settled w.
Proof.
  intros w.
  destruct (run_wf es _ (boot_wf random)) as [Hw _]. fold w in Hw.
  destruct (run_session es _ (boot_wf random) (boot_session random))
    as (_ & Hp & Hs).
  split; [|split; [by apply registry_NoDup | split; [|by split]]].
  - intros j r Hj. destruct Hw as [[[_ Hd] Hsl _] _].
    destruct (Hsl j r Hj) as [-> Hlt]. split; [done | by apply Hd].
  - intros r. split; [by apply Object_values_live|].
    intros Hl. unfold Object_values. apply list_elem_of_omap.
    exists (Some r). split; [|done]. by apply list_elem_of_lookup_2 in Hl.
Qed.

(** X17.  Over a session, whatever the events, a body stays in the
    store under its identity and keeps its class, size and speed; its
    health never rises, its kill count and its life time never fall, and
    so the score it would show never falls. *)
Theorem X17_bodies_evolve (random : nat -> Q) (es es' : list Event)
    (r : nat) (b : Body) :
  heap (run (boot random) es) !! r = Some b ->
  ∃ b', heap (run (boot random) (es ++ es')) !! r = Some b' ∧
        evolves b b' ∧ (score b <= score b')%Z.
Proof.
  intros Hb. unfold run. rewrite foldl_app. fold (run (boot random) es).
  fold (run (run (boot random) es) es').
  destruct (run_wf es _ (boot_wf random)) as [Hw _].
  destruct (run_session es _ (boot_wf random) (boot_session random))
    as (_ & Hs).
  destruct (run_session es' _ Hw Hs) as (E & _).
  destruct (E r b Hb) as (b' & Hb' & Eb). exists b'.
  split; [done|]. split; [done | by apply score_evolves].
Qed.

(** The player, from the start of a game to a key press. *)
Lemma X17_bodies_evolve_witness :
  let w := boot (λ _, 1 # 2) in
  heap (run w []) !! 0%nat = Some (body_at w 0) ∧
  ∃ b', heap (run w ([] ++ [KeyDown 32])) !! 0%nat = Some b' ∧
        evolves (body_at w 0) b'.
Proof.
  intros w.
  assert (Hb : heap (run w []) !! 0%nat = Some (body_at w 0))
    by (by vm_compute).
  split; [exact Hb|].
  destruct (X17_bodies_evolve (λ _, 1 # 2) [] [KeyDown 32] 0 (body_at w 0) Hb)
    as (b' & Hb' & E & _).
  exists b'. split; [exact Hb' | exact E].
Defined.

(** X18.  The score [draw] shows counts 30 for each kill and one for
    each whole second of life time, or one more than that.  (In exact
    arithmetic it is the lower of the two.  The source adds
    [30 * mobsKilled] and [lifeTime] in binary64 before it takes the
    floor, and a life time just below a whole second can round the sum
    up to the next whole number; the statement leaves room for that.) *)
Theorem X18_score (p : Body) :
  (30 * mobsKilled p + Qfloor (lifeTime p) <= score p
   <= 30 * mobsKilled p + Qfloor (lifeTime p) + 1)%Z.
Proof.
  assert (H : score p = (30 * mobsKilled p + Qfloor (lifeTime p))%Z).
  { unfold score. rewrite <- Qfloor_shift. apply Qfloor_comp.
    rewrite inject_Z_mult. reflexivity. }
  lia.
Qed.

(** ** The main loop *)

Lemma loop_while_iter fuel curr_time :
  ∀ delta_time w,
    delta_time <= inject_Z (Z.of_nat fuel) * config.seconds ->
    ∃ k : nat,
      (loop_while fuel curr_time delta_time w).1
      = Nat.iter k (one_tick curr_time) w ∧
      (k = 0%nat ↔ delta_time <= config.seconds).
Proof.
  pose proof tick_positive as Ht.
  induction fuel as [|fuel IH]; intros d w Hd.
  - exists 0%nat. split; [done|].
    change (inject_Z (Z.of_nat 0)) with 0 in Hd. split; [lra | done].
  - cbn [loop_while]. destruct (Qltb config.seconds d) eqn:Hlt.
    + apply Qltb_lt in Hlt.
      destruct (IH (d - config.seconds) (one_tick curr_time w)) as (k & Hk & _).
      { rewrite Nat2Z.inj_succ, <- Z.add_1_r, inject_Z_plus in Hd.
        change (inject_Z 1) with 1 in Hd.
        set (m := inject_Z (Z.of_nat fuel)) in *. clearbody m. lra. }
      exists (S k). split; [by rewrite Nat.iter_succ_r|].
      split; [done | lra].
    + apply Qltb_ge in Hlt. exists 0%nat. by split.
Qed.


(** ** Random integers *)

(** X20.  [randomInt(min, max)] draws one random number [r].  With
    [r] in [0, 1) the result is a whole number from [min] to [max + 1],
    and from [min] to [max] in the four calls the game makes; a larger
    [r] never gives a smaller result; and every number from [min] to
    [max] is the result of a draw in [0, 1), the one in the middle of
    its band.  (In exact arithmetic the result is at most [max] for
    every [min <= max] and [r < 1], [randomInt_range].  The source
    rounds [r * (max - min + 1) + min] to binary64 before it takes the
    floor, and for an [r] just below 1 the rounded sum can be
    [max + 1]; the statement leaves room for that.) *)
Theorem X20_randomInt (lo hi : Z) (g : Rng) :
  (lo <= hi)%Z ->
  let r := rand_src g (rand_pos g) in
  let n := inject_Z (hi - lo + 1) in
  (randomInt lo hi g).2 = mkRng (rand_src g) (S (rand_pos g)) ∧
  (0 <= r < 1 -> (lo <= (randomInt lo hi g).1 <= hi + 1)%Z) ∧
  (0 <= r < 1 ->
   (lo, hi) ∈ [(0, 6); (20, config.canvas_width - 20); (1, 3); (0, 2)]%Z ->
   (lo <= (randomInt lo hi g).1 <= hi)%Z) ∧
  (∀ g', rand_src g' (rand_pos g') <= r ->
         ((randomInt lo hi g').1 <= (randomInt lo hi g).1)%Z) ∧
  (∀ z, (lo <= z <= hi)%Z -> r == (inject_Z (z - lo) + (1 # 2)) / n ->
        0 <= r < 1 ∧ (randomInt lo hi g).1 = z).
Proof.
  intros Hlh r n.
  assert (Hn : 0 < n)
    by (change 0 with (inject_Z 0); unfold n; rewrite <- Zlt_Qlt; lia).
  split; [done|]. split; [|split; [|split]].
  - intros Hr. pose proof (randomInt_range lo hi g Hlh Hr). lia.
  - intros Hr _. by apply randomInt_range.
  - intros g' Hle.
    change (randomInt lo hi g).1 with (Qfloor (r * n + inject_Z lo)).
    change (randomInt lo hi g').1
      with (Qfloor (rand_src g' (rand_pos g') * n + inject_Z lo)).
    apply Qfloor_resp_le.
    set (r' := rand_src g' (rand_pos g')) in *. clearbody r r' n. nra.
  - intros z Hz Hr.
    assert (Hz0 : 0 <= inject_Z (z - lo))
      by (change 0 with (inject_Z 0); rewrite <- Zle_Qle; lia).
    assert (Hz1 : inject_Z (z - lo) + 1 <= n).
    { change 1 with (inject_Z 1). unfold n.
      rewrite <- inject_Z_plus, <- Zle_Qle. lia. }
    assert (Hmul : r * n == inject_Z (z - lo) + (1 # 2)).
    { rewrite Hr. field. lra. }
    split.
    + set (m := inject_Z (z - lo)) in *. clearbody n m r. split.
      * destruct (Qlt_le_dec r 0) as [Hneg|]; [|done]. nra.
      * destruct (Qlt_le_dec r 1) as [|Hge]; [done|]. nra.
    + change (randomInt lo hi g).1 with (Qfloor (r * n + inject_Z lo)).
      rewrite Qplus_comm, Qfloor_shift.
      rewrite (Qfloor_comp _ _ Hmul), Qfloor_shift.
      change (Qfloor (1 # 2)) with 0%Z. lia.
Qed.

(** The draw of [Mob]'s constructor, at 1/2. *)
Lemma X20_randomInt_witness :
  let g := mkRng (λ _, 1 # 2) 0 in
  (20 <= 280)%Z ∧
  (randomInt 20 280 g).2 = mkRng (rand_src g) (S (rand_pos g)) ∧
  (20 <= (randomInt 20 280 g).1 <= 280)%Z.
Proof.
  intros g.
  assert (H : (20 <= 280)%Z) by lia.
  split; [exact H|].
  destruct (X20_randomInt 20 280 g H) as (H1 & _ & H3 & _).
  split; [exact H1|]. apply H3; [by vm_compute|].
  apply list_elem_of_further, list_elem_of_here.
Defined.

(** ** Game over *)

Lemma update_removes delta_time w i :
  wf w -> i ∈ queued_entities_for_removal w ->
  ¬ live (update delta_time w) i.
Proof.
  intros Hw Hi.
  pose proof (poll_input_wf w Hw) as Hw1.
  destruct (move_entities_wf delta_time _ Hw1) as [Hw2 R2].
  destruct (CollissionChecker_wf delta_time _ Hw2) as [Hw3 R3].
  destruct (move_entities_registry delta_time _ Hw1) as (_ & new1 & Hq1 & _).
  destruct (scan_queue delta_time _ Hw2) as (new2 & Hq2 & _).
  set (w3 := CollissionChecker_update delta_time
               (move_entities delta_time (poll_input w))) in *.
  assert (Hi3 : i ∈ queued_entities_for_removal w3).
  { rewrite Hq2, Hq1. apply elem_of_app. left. apply elem_of_app. by left. }
  assert (Hlt : (i < running_id w3)%nat).
  { destruct Hw3 as [[_ _ Hq] _]. rewrite Forall_forall in Hq. by apply Hq. }
  unfold update. fold w3. intros H.
  apply restart_live in H as [H|H].
  - apply Enemy_Spawner_live in H as [H|H].
    + unfold live, purge in H. cbn [entities set_queue set_entities] in H.
      by apply deleted_lookup in H as [_ H].
    + change (running_id (purge w3)) with (running_id w3) in H. lia.
  - destruct (Enemy_Spawner_wf delta_time (purge w3)) as [_ R5];
      [by apply purge_wf|].
    change (running_id (purge w3)) with (running_id w3) in R5. lia.
Qed.

(** X21.  [draw] changes nothing of the world but the removal queue: it
    queues [player] when [player] is dead, on every frame that finds it
    dead, and nothing otherwise.  The tick after that, the dead player
    is out of the registry. *)
Theorem X21_game_over (w : World) (p : Body) :
  heap w !! player w = Some p ->
  draw w
  = set_queue (queued_entities_for_removal w
               ++ if isDead p then [player w] else []) w ∧
  (isDead p = true -> wf w ->
   ∀ delta_time, ¬ live (update delta_time (draw w)) (player w)).
Proof.
  intros Hp. split.
  - unfold draw. rewrite Hp. destruct (isDead p); [done|].
    rewrite app_nil_r. by destruct w.
  - intros Hd Hw delta_time. apply update_removes; [by apply draw_wf|].
    unfold draw. rewrite Hp, Hd.
    cbn [Body_remove queued_entities_for_removal set_queue].
    apply elem_of_app. right. apply list_elem_of_here.
Qed.

(** The player of the arena, hit to death. *)
Lemma X21_game_over_witness :
  let w := modify 0 (set_health 0) arena in
  heap w !! player w = Some (body_at w 0) ∧
  queued_entities_for_removal (draw w) = [0%nat].
Proof.
  intros w.
  assert (Hp : heap w !! player w = Some (body_at w 0)) by (by vm_compute).
  split; [exact Hp|].
  rewrite (proj1 (X21_game_over w (body_at w 0) Hp)).
  by vm_compute.
Defined.

(** ** The one player *)

Lemma one_player_grows w w' :
  wf w -> extends w w' -> player w' = player w ->
  (∀ i, live w' i -> live w i ∨ (type <$> heap w' !! i) ≠ Some Player) ->
  one_player w -> one_player w'.
Proof.
  intros Hw He Hp Hnew H1 r b' Hl Hb' Ht. rewrite Hp.
  destruct (Hnew r Hl) as [Hl0 | Hn];
    [|rewrite Hb' in Hn; cbn in Hn; by rewrite Ht in Hn].
  destruct Hw as [[[_ Hd] Hs _] _]. destruct (Hs r r Hl0) as [_ Hlt].
  destruct (Hd r Hlt) as [b Hb]. destruct (He r b Hb) as (b2 & Hb2 & E).
  apply (H1 r b); [done..|]. destruct E as (_ & <- & _). congruence.
Qed.

Lemma one_player_frame w w' :
  heap w' = heap w -> entities w' = entities w -> player w' = player w ->
  one_player w -> one_player w'.
Proof.
  intros Hh He Hp H r b. unfold live. rewrite Hh, He, Hp. apply H.
Qed.

Lemma entity_update_new delta_time this w :
  wf w ->
  ∀ i, live (entity_update delta_time this w) i ->
       live w i ∨
       (type <$> heap (entity_update delta_time this w) !! i) ≠ Some Player.
Proof.
  intros Hw i. unfold entity_update.
  destruct (heap w !! this) as [b|] eqn:Hb; [|by left].
  destruct (wf_lookup w this b Hw Hb) as (Hlt & _).
  destruct (type b).
  - assert (Hne : this ≠ running_id w) by lia.
    pose proof (Player_update_effect delta_time this w b Hb Hne) as H.
    cbv zeta in H. destruct H as (_ & _ & H).
    destruct (action_1 (controller b) && Qle_bool 1 (accumulator b + delta_time)).
    + destruct H as (Ht & _ & He & _). unfold live. rewrite He.
      destruct (decide (i = running_id w)) as [->|Hi].
      * right. by rewrite Ht.
      * left. by apply array_set_lookup_ne in H.
    + destruct H as [He _]. unfold live. rewrite He. by left.
  - unfold Projectile_update. rewrite Hb. left. by destruct (Qle_bool _ _).
  - unfold Mob_update. rewrite Hb.
    destruct (Mob_step delta_time b (rng w)) as [[b' g] gone]. left.
    by destruct gone.
Qed.

Lemma move_entities_one_player delta_time w :
  0 <= delta_time -> wf w -> one_player w ->
  one_player (move_entities delta_time w).
Proof.
  intros Hdt. unfold move_entities. generalize (Object_values (entities w)) as l.
  intros l. revert w. induction l as [|r l IH]; intros w Hw H1; [done|].
  cbn [foldl]. destruct (entity_update_wf delta_time r w Hw) as [Hw1 _].
  destruct (entity_update_grows delta_time r w Hdt Hw) as [E1 P1].
  apply IH; [done|].
  apply (one_player_grows w); [done..|by apply entity_update_new|done].
Qed.

Lemma Enemy_Spawner_new delta_time w :
  wf w ->
  ∀ i, live (Enemy_Spawner_update delta_time w) i ->
       live w i ∨
       (type <$> heap (Enemy_Spawner_update delta_time w) !! i) ≠ Some Player.
Proof.
  intros Hw i Hi. destruct (Enemy_Spawner_wf delta_time w Hw) as [Hw' _].
  pose proof (Enemy_Spawner_update_effect delta_time w) as H. cbv zeta in H.
  destruct (Qle_bool 5 (enemy_spawner w + delta_time)).
  - destruct H as (_ & Hr & Ht & _).
    destruct (Enemy_Spawner_live _ _ _ Hi) as [Hl|Hge]; [by left|].
    destruct Hw' as [[_ Hs _] _]. destruct (Hs i i Hi) as [_ Hlt].
    rewrite Hr in Hlt. replace i with (running_id w) by lia.
    right. by rewrite Ht.
  - rewrite H in Hi. by left.
Qed.

Lemma start_one_player w : wf_store w -> one_player (start w).
Proof.
  intros Hh. destruct (start_wf w Hh) as (Hw' & Hr & Hp).
  intros r b Hl _ _. rewrite Hp.
  pose proof (start_live w r Hl) as Hge.
  destruct Hw' as [[_ Hs _] _]. destruct (Hs r r Hl) as [_ Hlt]. lia.
Qed.

Lemma update_one_player delta_time w :
  0 <= delta_time -> wf w -> one_player w -> one_player (update delta_time w).
Proof.
  intros Hdt Hw H0. unfold update. cbv zeta.
  pose proof (poll_input_wf w Hw) as H1.
  destruct (move_entities_wf delta_time _ H1) as [H2 _].
  destruct (CollissionChecker_wf delta_time _ H2) as [H3 _].
  destruct (purge_wf _ H3) as [H4 _].
  destruct (Enemy_Spawner_wf delta_time _ H4) as [H5 _].
  assert (J1 : one_player (poll_input w)).
  { apply (one_player_grows w); [done| |done|by left|done].
    apply extends_modify; intros; evolve_fields. }
  pose proof (move_entities_one_player delta_time _ Hdt H1 J1) as J2.
  destruct (scan_grows delta_time (move_entities delta_time (poll_input w)))
    as [E3 P3].
  assert (J3 : one_player (CollissionChecker_update delta_time
                             (move_entities delta_time (poll_input w)))).
  { apply (one_player_grows _ _ H2 E3 P3); [|done].
    intros i Hi. left. unfold live in *.
    by rewrite CollissionChecker_entities in Hi. }
  set (w3 := CollissionChecker_update _ _) in *.
  assert (J4 : one_player (purge w3)).
  { apply (one_player_grows w3); [done|by apply extends_heap|done| |done].
    intros i Hi. left. unfold live, purge in Hi.
    cbn [entities set_queue set_entities] in Hi.
    by apply deleted_lookup in Hi as [Hi _]. }
  destruct (Enemy_Spawner_grows delta_time _ H4) as (E5 & P5 & _).
  assert (J5 : one_player (Enemy_Spawner_update delta_time (purge w3))).
  { apply (one_player_grows (purge w3)); [done..| |done].
    by apply Enemy_Spawner_new. }
  unfold restart_if_asked.
  destruct (heap _ !! player _) as [p|]; [|done].
  destruct (isDead p && action_1 (controller p)); [|done].
  apply start_one_player. by destruct H5 as [[Hh _ _] _].
Qed.

Lemma loop_while_one_player fuel curr_time :
  ∀ delta_time w,
    wf w -> one_player w ->
    one_player (loop_while fuel curr_time delta_time w).1.
Proof.
  induction fuel as [|fuel IH]; intros d w Hw H1; [done|].
  cbn [loop_while]. destruct (Qltb config.seconds d); [|done].
  destruct (update_wf config.seconds w Hw) as [Hu _].
  destruct (draw_wf _ Hu) as [Hd _].
  set (w1 := set_loop_count _ _).
  assert (Hw1 : wf w1) by (by eapply wf_frame; [..|exact Hd]).
  apply IH; [done|].
  assert (Hdraw : ∀ w0, heap (draw w0) = heap w0 ∧
                        entities (draw w0) = entities w0 ∧
                        player (draw w0) = player w0).
  { intros w0. unfold draw. destruct (heap w0 !! player w0) as [p|]; [|done].
    by destruct (isDead p). }
  destruct (Hdraw (update config.seconds w)) as (Dh & De & Dp).
  apply (one_player_frame (update config.seconds w)); [done..|].
  by apply update_one_player.
Qed.

Lemma step_one_player w e :
  wf w -> one_player w -> one_player (step w e).
Proof.
  intros Hw H1. destruct e as [k|k|t]; cbn [step].
  - intros r b Hl Hb Ht. cbn [keydown heap set_heap] in Hb.
    rewrite lookup_fmap in Hb. destruct (heap w !! r) as [b0|] eqn:Hb0; [|done].
    apply (H1 r b0); [done..|]. injection Hb as <-.
    destruct (type b0) eqn:E; [done | congruence..].
  - intros r b Hl Hb Ht. cbn [keyup heap set_heap] in Hb.
    rewrite lookup_fmap in Hb. destruct (heap w !! r) as [b0|] eqn:Hb0; [|done].
    apply (H1 r b0); [done..|]. injection Hb as <-.
    destruct (type b0) eqn:E; [done | congruence..].
  - unfold loop. cbv zeta.
    set (w1 := match last_time w with None => _ | Some _ => w end).
    assert (Hw1 : wf w1 ∧ one_player w1).
    { unfold w1. destruct (last_time w); [done|].
      split; [by eapply wf_frame; [..|exact Hw]|].
      by apply (one_player_frame w). }
    destruct Hw1 as [Hw1 J1]. by apply loop_while_one_player.
Qed.

Lemma run_one_player es :
  ∀ w, wf w -> one_player w -> one_player (run w es).
Proof.
  induction es as [|e es IH]; intros w Hw H1; [done|].
  cbn [run foldl]. destruct (step_wf w e Hw) as [Hw' _].
  apply IH; [done | by apply step_one_player].
Qed.

Lemma blows_zero w r ps :
  (∀ p, p ∈ ps -> p.1 = r -> hit Player Mob w p = false) ->
  blows w r ps = 0%nat.
Proof.
  unfold blows. induction ps as [|p ps IH]; intros H; [done|].
  rewrite filter_cons. case_decide as Hp.
  - destruct Hp as [Hr Hp]. rewrite H in Hp; [done | apply list_elem_of_here | done].
  - apply IH. intros q Hq. apply H. by apply list_elem_of_further.
Qed.

Lemma scan_only_player delta_time w r :
  wf w -> one_player w -> r ≠ player w ->
  heap (CollissionChecker_update delta_time w) !! r = heap w !! r.
Proof.
  intros Hw H1 Hr.
  rewrite scan_ordered_pairs, scanned_world. cbn [heap set_queue set_heap].
  rewrite scanned_heap_lookup, decide_False by done.
  destruct (heap w !! r) as [b|] eqn:Hb; [|done].
  cbn [fmap option_fmap option_map]. f_equal.
  rewrite blows_zero; [apply hurt_nothing|].
  intros p Hp Hp1. apply elem_ordered_pairs in Hp as [Hin _].
  rewrite Hp1 in Hin. apply Object_values_live in Hin; [|done].
  unfold hit. rewrite Hp1, Hb. destruct (heap w !! p.2) as [b2|]; [|done].
  destruct (type b) eqn:Ht; [|by rewrite andb_false_r..].
  by destruct Hr; apply (H1 r b).
Qed.

(** X22.  In every world of a session no Player is in the registry but
    [player], and that is still so in a tick when the bodies have moved
    and the collision scan starts; so the scan changes no body but
    [player]: mobs and projectiles are queued for removal, never
    changed. *)
Theorem X22_one_player (random : nat -> Q) (es : list Event) :
  let w := run (boot random) es in
  one_player w ∧
  ∀ delta_time, 0 <= delta_time ->
    let w2 := move_entities delta_time (poll_input w) in
    one_player w2 ∧
    ∀ r, r ≠ player w2 ->
         heap (CollissionChecker_update delta_time w2) !! r = heap w2 !! r.
Proof.
  intros w.
  destruct (run_wf es _ (boot_wf random)) as [Hw _]. fold w in Hw.
  assert (H1 : one_player w).
  { apply run_one_player; [apply boot_wf|].
    apply start_one_player. split.
    - intros r b H. cbn [globals heap] in H. by rewrite lookup_empty in H.
    - intros r Hr. cbn [globals running_id] in Hr. lia. }
  split; [exact H1|]. intros delta_time Hdt w2.
  pose proof (poll_input_wf w Hw) as Hw1.
  destruct (move_entities_wf delta_time _ Hw1) as [Hw2 _]. fold w2 in Hw2.
  assert (J2 : one_player w2).
  { apply move_entities_one_player; [done..|].
    apply (one_player_grows w); [done| |done|by left|done].
    apply extends_modify; intros; evolve_fields. }
  split; [exact J2|]. intros r Hr. by apply scan_only_player.
Qed.

(** * The update of the player *)

(** The body [Player.update] leaves behind [this]: steered, with the
    accumulator back at 0 when it fired, moved and clipped. *)
Lemma Player_update_body delta_time this w b :
  heap w !! this = Some b -> this ≠ running_id w ->
  let s := Player_steer delta_time b in
  heap (Player_update delta_time this w) !! this
  = Some (Player_move delta_time
            (if Player_fires s then set_accumulator 0 s else s)).
Proof.
  intros Hb Hne s. unfold Player_update.
  set (w1 := modify this (Player_steer delta_time) w).
  assert (H1 : heap w1 !! this = Some s)
    by (unfold w1; by rewrite modify_lookup, Hb).
  change (running_id w) with (running_id w1) in Hne.
  rewrite H1. destruct (Player_fires s).
  - rewrite !modify_lookup, Projectile_new_other by done. by rewrite H1.
  - by rewrite modify_lookup, H1.
Qed.

Lemma Player_update_velocity delta_time this w b :
  heap w !! this = Some b -> this ≠ running_id w ->
  ∃ b', heap (Player_update delta_time this w) !! this = Some b' ∧
        position b'
        = position (Player_move delta_time (Player_steer delta_time b)) ∧
        (x (velocity b'), y (velocity b'))
        = steer Qmult inject_Z SQRT1_2 (speed b) (controller b).
Proof.
  intros Hb Hne. eexists. split; [by apply Player_update_body|].
  rewrite <- (Player_steer_velocity delta_time b).
  by destruct (Player_fires (Player_steer delta_time b)).
Qed.

(** ** The player of a session *)

Lemma start_fast w : player_fast (start w).
Proof.
  unfold player_fast, start, Player_new, Body_new. cbv beta iota zeta.
  cbn [heap player set_enemy_spawner set_player modify set_heap set_entities
       set_running_id set_queue running_id].
  rewrite lookup_alter_eq, lookup_insert_eq. eexists. by split.
Qed.

Lemma player_fast_grows w w' :
  extends w w' -> player w' = player w -> player_fast w -> player_fast w'.
Proof.
  intros He Hp (p & Hb & Ht & Hs). destruct (He _ _ Hb) as (p' & Hb' & E).
  exists p'. rewrite Hp. split; [done|].
  destruct E as (_ & -> & _ & -> & _). done.
Qed.

(** A tick either keeps [player] and every body, evolved, or ends in
    [start()]. *)
Lemma update_cases delta_time w :
  0 <= delta_time -> wf w ->
  (extends w (update delta_time w) ∧
   player (update delta_time w) = player w) ∨
  ∃ w5, update delta_time w = start w5.
Proof.
  intros Hdt Hw. unfold update. cbv zeta.
  pose proof (poll_input_wf w Hw) as H1.
  destruct (move_entities_wf delta_time _ H1) as [H2 _].
  destruct (CollissionChecker_wf delta_time _ H2) as [H3 _].
  destruct (purge_wf _ H3) as [H4 _].
  assert (E1 : extends w (poll_input w))
    by (apply extends_modify; intros; evolve_fields).
  destruct (move_entities_grows delta_time _ Hdt H1) as [E2 P2].
  destruct (scan_grows delta_time (move_entities delta_time (poll_input w)))
    as [E3 P3].
  set (w3 := CollissionChecker_update _ _) in *.
  assert (E4 : extends w3 (purge w3)) by (by apply extends_heap).
  destruct (Enemy_Spawner_grows delta_time _ H4) as (E5 & P5 & _).
  set (w5 := Enemy_Spawner_update _ _) in *.
  assert (E : extends w w5).
  { eapply extends_trans; [exact E1|]. eapply extends_trans; [exact E2|].
    eapply extends_trans; [exact E3|].
    eapply extends_trans; [exact E4 | exact E5]. }
  assert (P : player w5 = player w).
  { rewrite P5. change (player (purge w3)) with (player w3).
    by rewrite P3, P2. }
  unfold restart_if_asked.
  destruct (heap w5 !! player w5) as [p|];
    [destruct (isDead p && action_1 (controller p))|].
  - right. by exists w5.
  - by left.
  - by left.
Qed.

Lemma one_tick_session curr_time w :
  wf w -> player_fast w ->
  wf (one_tick curr_time w) ∧ player_fast (one_tick curr_time w).
Proof.
  intros Hw Hp. unfold one_tick. cbv zeta.
  destruct (update_wf config.seconds w Hw) as [Hu _].
  destruct (draw_wf _ Hu) as [Hd _].
  split; [by eapply wf_frame; [..|exact Hd]|].
  assert (Hdraw : heap (draw (update config.seconds w))
                  = heap (update config.seconds w) ∧
                  player (draw (update config.seconds w))
                  = player (update config.seconds w)).
  { unfold draw. destruct (heap _ !! _) as [p|]; [|done].
    by destruct (isDead p). }
  destruct Hdraw as [Dh Dp].
  assert (Hup : player_fast (update config.seconds w)).
  { destruct (update_cases config.seconds w) as [[E P] | [w5 ->]]; [done..| |].
    - by apply (player_fast_grows w).
    - apply start_fast. }
  unfold player_fast in *.
  cbn [heap player set_loop_count set_last_time]. by rewrite Dh, Dp.
Qed.

Lemma ticks_session curr_time w k :
  wf w -> player_fast w ->
  wf (Nat.iter k (one_tick curr_time) w) ∧
  player_fast (Nat.iter k (one_tick curr_time) w).
Proof.
  intros Hw Hp. induction k as [|k [IH1 IH2]]; [done|].
  rewrite Nat.iter_succ. by apply one_tick_session.
Qed.

Lemma step_fast w e : wf w -> player_fast w -> player_fast (step w e).
Proof.
  intros Hw Hp. destruct e as [k|k|t]; cbn [step].
  - destruct Hp as (p & Hb & Ht & Hs). unfold player_fast.
    cbn [keydown heap player set_heap]. rewrite lookup_fmap, Hb.
    eexists. split; [done|]. by rewrite Ht.
  - destruct Hp as (p & Hb & Ht & Hs). unfold player_fast.
    cbn [keyup heap player set_heap]. rewrite lookup_fmap, Hb.
    eexists. split; [done|]. by rewrite Ht.
  - unfold loop. cbv zeta.
    set (w1 := match last_time w with None => _ | Some _ => w end).
    assert (Hw1 : wf w1 ∧ player_fast w1).
    { unfold w1. destruct (last_time w); [done|].
      split; [by eapply wf_frame; [..|exact Hw] | exact Hp]. }
    destruct Hw1 as [Hw1 Hp1].
    set (d := t / 1000 - _).
    destruct (loop_while_iter (loop_fuel d) (t / 1000) d w1
                (loop_fuel_enough d)) as (k & -> & _).
    by apply ticks_session.
Qed.

Lemma run_fast es : ∀ w, wf w -> player_fast w -> player_fast (run w es).
Proof.
  induction es as [|e es IH]; intros w Hw Hp; [done|].
  cbn [run foldl]. destruct (step_wf w e Hw) as [Hw' _].
  apply IH; [done | by apply step_fast].
Qed.

(** The world a tick of a session starts from, once the keys are
    polled: [player] is there, not the next body to be made, a Player
    with speed 120 and each axis of its controller at -1, 0 or 1. *)
Lemma polled_player random es k curr_time :
  let w := poll_input
             (Nat.iter k (one_tick curr_time) (run (boot random) es)) in
  player w ≠ running_id w ∧
  ∃ p, heap w !! player w = Some p ∧ type p = Player ∧ speed p = 120 ∧
       (move_x (controller p) = -1 ∨ move_x (controller p) = 0 ∨
        move_x (controller p) = 1)%Z ∧
       (move_y (controller p) = -1 ∨ move_y (controller p) = 0 ∨
        move_y (controller p) = 1)%Z.
Proof.
  cbv zeta.
  destruct (run_wf es _ (boot_wf random)) as [Hw _].
  pose proof (run_fast es _ (boot_wf random) (start_fast _)) as Hp.
  destruct (ticks_session curr_time _ k Hw Hp) as [Hw' (p & Hb & Ht & Hs)].
  set (w0 := Nat.iter k _ _) in *.
  split.
  - destruct Hw' as [_ Hlt]. cbn [poll_input modify set_heap player running_id].
    lia.
  - exists (pollController p). unfold poll_input. rewrite modify_lookup, Hb.
    split; [done|]. split; [done|]. split; [done|].
    apply pollController_axes.
Qed.

(** ** The length of the velocity *)

Lemma steer_cases (speed_ : Q) (c : Controller) :
  let v := steer Qmult inject_Z SQRT1_2 speed_ c in
  ((move_x c ≠ 0 ∧ move_y c ≠ 0)%Z ->
   v = (speed_ * inject_Z (move_x c) * SQRT1_2,
        speed_ * inject_Z (move_y c) * SQRT1_2)) ∧
  ((move_x c = 0 ∨ move_y c = 0)%Z ->
   v = (speed_ * inject_Z (move_x c), speed_ * inject_Z (move_y c))).
Proof.
  unfold steer. split.
  - intros [Hx Hy].
    apply Z.eqb_neq in Hx, Hy. by rewrite Hx, Hy.
  - intros [H|H]; apply Z.eqb_eq in H; rewrite H; cbn [negb andb];
      [done | by rewrite andb_false_r].
Qed.

Lemma steer_R_length (c : Controller) :
  (move_x c = -1 ∨ move_x c = 0 ∨ move_x c = 1)%Z ->
  (move_y c = -1 ∨ move_y c = 0 ∨ move_y c = 1)%Z ->
  ((move_x c ≠ 0 ∨ move_y c ≠ 0)%Z -> magnitude (steer_R c) = 120%R) ∧
  ((move_x c ≠ 0 ∧ move_y c ≠ 0)%Z ->
   steer_R c = ((120 * IZR (move_x c) * / sqrt 2)%R,
                (120 * IZR (move_y c) * / sqrt 2)%R) ∧
   magnitude (120 * IZR (move_x c), 120 * IZR (move_y c))%R
   = (120 * sqrt 2)%R).
Proof.
  intros Hx Hy. destruct c as [mx my a].
  cbn [move_x move_y] in *. unfold magnitude, steer_R, steer.
  cbn [move_x move_y fst snd].
  pose proof inv_sqrt2_sqr as Hs.
  assert (H2 : (sqrt 2 * sqrt 2 = 2)%R) by (apply sqrt_sqrt; Lra.lra).
  assert (Hd : ∀ s t : R, (s * s = 1 -> t * t = 1 ->
            sqrt (120 * s * (120 * s) + 120 * t * (120 * t))
            = 120 * sqrt 2)%R).
  { intros s t Hs1 Ht1.
    replace (120 * s * (120 * s) + 120 * t * (120 * t))%R
      with ((120 * 120) * 2)%R by Lra.nra.
    rewrite sqrt_mult by Lra.lra. f_equal. apply sqrt_square. Lra.lra. }
  split.
  - intros Hnz.
    destruct Hx as [-> | [-> | ->]], Hy as [-> | [-> | ->]];
      cbn [Z.eqb negb andb fst snd];
      try (apply sqrt_120; Lra.nra); by destruct Hnz.
  - intros [Hx0 Hy0].
    destruct Hx as [-> | [-> | ->]], Hy as [-> | [-> | ->]]; try done;
      cbn [Z.eqb negb andb fst snd];
      (split; [reflexivity | apply Hd; Lra.lra]).
Qed.

(** C7.  [Player.update] stores on the player the velocity of its
    velocity rule, [speed * axis] on each axis, both multiplied by
    [Math.SQRT1_2] exactly when both axes of the controller are not
    zero.  In every tick of a session, when the keys are polled,
    [player] has the speed 120 and each axis of its controller is -1, 0
    or 1; so whenever an axis is not zero the velocity that the update
    of that tick stores has the length 120, the speed constant: on a
    diagonal the length is 120 and not 120·√2.  The lengths are for
    numbers read as reals, with [Math.SQRT1_2] the real 1/√2; with the
    binary64 value of [Math.SQRT1_2] and exact arithmetic, the square of
    the length of the stored velocity is within 10^-11 of 120². *)
Theorem C7_player_speed :
  (∀ delta_time this w b,
     heap w !! this = Some b -> this ≠ running_id w ->
     ∃ b', heap (Player_update delta_time this w) !! this = Some b' ∧
       let c := controller b in
       (x (velocity b'), y (velocity b'))
       = steer Qmult inject_Z SQRT1_2 (speed b) c ∧
       ((move_x c ≠ 0 ∧ move_y c ≠ 0)%Z ->
        x (velocity b') = speed b * inject_Z (move_x c) * SQRT1_2 ∧
        y (velocity b') = speed b * inject_Z (move_y c) * SQRT1_2) ∧
       ((move_x c = 0 ∨ move_y c = 0)%Z ->
        x (velocity b') = speed b * inject_Z (move_x c) ∧
        y (velocity b') = speed b * inject_Z (move_y c))) ∧
  (∀ random es k curr_time delta_time,
     let w := poll_input
                (Nat.iter k (one_tick curr_time) (run (boot random) es)) in
     ∃ p p', heap w !! player w = Some p ∧ type p = Player ∧
       speed p = 120 ∧
       heap (Player_update delta_time (player w) w) !! player w = Some p' ∧
       let c := controller p in
       (move_x c = -1 ∨ move_x c = 0 ∨ move_x c = 1)%Z ∧
       (move_y c = -1 ∨ move_y c = 0 ∨ move_y c = 1)%Z ∧
       (x (velocity p'), y (velocity p'))
       = steer Qmult inject_Z SQRT1_2 120 c ∧
       ((move_x c ≠ 0 ∨ move_y c ≠ 0)%Z ->
        magnitude (steer_R c) = 120%R ∧
        Qabs (x (velocity p') * x (velocity p')
              + y (velocity p') * y (velocity p') - 120 * 120)
        < 1 # 100000000000)) ∧
  (∀ c,
     (move_x c = -1 ∨ move_x c = 0 ∨ move_x c = 1)%Z ->
     (move_y c = -1 ∨ move_y c = 0 ∨ move_y c = 1)%Z ->
     ((move_x c ≠ 0 ∨ move_y c ≠ 0)%Z -> magnitude (steer_R c) = 120%R) ∧
     ((move_x c ≠ 0 ∧ move_y c ≠ 0)%Z ->
      steer_R c = ((120 * IZR (move_x c) * / sqrt 2)%R,
                   (120 * IZR (move_y c) * / sqrt 2)%R) ∧
      magnitude (120 * IZR (move_x c), 120 * IZR (move_y c))%R
      = (120 * sqrt 2)%R)).
Proof.
  split; [|split; [|apply steer_R_length]].
  - intros delta_time this w b Hb Hne.
    destruct (Player_update_velocity delta_time this w b Hb Hne)
      as (b' & Hb' & _ & Hv).
    exists b'. split; [exact Hb'|]. cbv zeta. split; [exact Hv|].
    destruct (steer_cases (speed b) (controller b)) as [Hd Ha].
    cbv zeta in Hd, Ha. split; intros H.
    + rewrite (Hd H) in Hv. by injection Hv.
    + rewrite (Ha H) in Hv. by injection Hv.
  - intros random es k curr_time delta_time w.
    destruct (polled_player random es k curr_time)
      as (Hne & p & Hp & Ht & Hs & Hx & Hy).
    fold w in Hne, Hp.
    destruct (Player_update_velocity delta_time (player w) w p Hp Hne)
      as (p' & Hp' & _ & Hv).
    rewrite Hs in Hv.
    exists p, p'. do 4 (split; [done|]). cbv zeta.
    split; [exact Hx|]. split; [exact Hy|]. split; [exact Hv|].
    intros Hnz. split; [by apply steer_R_length|].
    pose proof (steer_Q_close (controller p) Hx Hy Hnz) as Hc.
    cbv zeta in Hc. rewrite <- Hv in Hc. exact Hc.
Qed.

(** A game has just begun, right (68) and up (87) are down and polled:
    the player has the speed 120, and its update stores the velocity of
    the diagonal, 120 long. *)
Lemma C7_player_speed_witness :
  let w := poll_input (keydown 87 (keydown 68 (boot (λ _, 1 # 2)))) in
  let c := mkController 1 (-1) false in
  (heap w !! 0%nat = Some (body_at w 0) ∧ 0%nat ≠ running_id w ∧
   speed (body_at w 0) = 120 ∧ controller (body_at w 0) = c) ∧
  (∃ b', heap (Player_update config.seconds 0 w) !! 0%nat = Some b' ∧
         x (velocity b') = 120 * inject_Z 1 * SQRT1_2 ∧
         y (velocity b') = 120 * inject_Z (-1) * SQRT1_2) ∧
  magnitude (steer_R c) = 120%R.
Proof.
  intros w c.
  assert (Hb : heap w !! 0%nat = Some (body_at w 0)) by (by vm_compute).
  assert (Hne : 0%nat ≠ running_id w) by (by vm_compute).
  assert (Hs : speed (body_at w 0) = 120) by (by vm_compute).
  assert (Hc : controller (body_at w 0) = c) by (by vm_compute).
  split; [by repeat split|].
  destruct C7_player_speed as (HA & _ & HC).
  split.
  - destruct (HA config.seconds 0%nat w (body_at w 0) Hb Hne)
      as (b' & Hb' & _ & Hd & _).
    exists b'. split; [exact Hb'|].
    rewrite Hs, Hc in Hd. apply Hd. by split.
  - refine (proj1 (HC c _ _) _); [right; by right | by left | by left].
Defined.

(** ** The clip to the screen *)

(** C8.  After [Player.update] the player is inside the playfield,
    [0 <= x <= width] and [0 <= y <= height].  With [b] the player
    before the update, and [(px, py)] where the move of this update
    takes it, [position + delta_time * velocity] with the velocity this
    update has just set: each coordinate after the update is the one the
    move computed when that is inside, and exactly the boundary it
    passed when it is not; the velocity is left as it was set, not
    turned round. *)
Theorem C8_player_clamped (delta_time : Q) (this : nat) (w : World) :
  (∀ b', heap (Player_update delta_time this w) !! this = Some b' ->
         0 <= x (position b') <= inject_Z config.canvas_width ∧
         0 <= y (position b') <= inject_Z config.canvas_height) ∧
  (∀ b, heap w !! this = Some b -> this ≠ running_id w ->
     ∃ b', heap (Player_update delta_time this w) !! this = Some b' ∧
       let v := steer Qmult inject_Z SQRT1_2 (speed b) (controller b) in
       let px := x (position b) + delta_time * v.1 in
       let py := y (position b) + delta_time * v.2 in
       (x (velocity b'), y (velocity b')) = v ∧
       (px < 0 -> x (position b') == 0) ∧
       (inject_Z config.canvas_width < px ->
          x (position b') == inject_Z config.canvas_width) ∧
       (0 <= px <= inject_Z config.canvas_width -> x (position b') == px) ∧
       (py < 0 -> y (position b') == 0) ∧
       (inject_Z config.canvas_height < py ->
          y (position b') == inject_Z config.canvas_height) ∧
       (0 <= py <= inject_Z config.canvas_height -> y (position b') == py)).
Proof.
  assert (Hw : 0 <= inject_Z config.canvas_width) by done.
  assert (Hh : 0 <= inject_Z config.canvas_height) by done.
  split.
  - intros b'. unfold Player_update. rewrite modify_lookup.
    set (w2 := match _ with Some _ => _ | None => _ end). clearbody w2.
    destruct (heap w2 !! this) as [b|]; [|done].
    intros [= <-].
    destruct (clip_spec (x (position b) + delta_time * x (velocity b)) _ Hw)
      as (Hx & _).
    destruct (clip_spec (y (position b) + delta_time * y (velocity b)) _ Hh)
      as (Hy & _).
    split; [exact Hx | exact Hy].
  - intros b Hb Hne.
    destruct (Player_update_velocity delta_time this w b Hb Hne)
      as (b' & Hb' & Hpos & Hv).
    exists b'. split; [exact Hb'|]. cbv zeta. split; [exact Hv|].
    pose proof (Player_steer_velocity delta_time b) as Hs.
    assert (Hps : position (Player_steer delta_time b) = position b)
      by (unfold Player_steer; by destruct (steer _ _ _ _ _)).
    destruct (steer Qmult inject_Z SQRT1_2 (speed b) (controller b))
      as [vx vy]. injection Hs as Hsx Hsy. cbn [fst snd].
    rewrite Hpos. unfold Player_move, Body_update.
    cbn [position set_position x y velocity].
    rewrite Hps, Hsx, Hsy.
    destruct (clip_spec (x (position b) + delta_time * vx) _ Hw)
      as (_ & Hx1 & Hx2 & Hx3).
    destruct (clip_spec (y (position b) + delta_time * vy) _ Hh)
      as (_ & Hy1 & Hy2 & Hy3).
    tauto.
Qed.

(** The player one pixel from the left edge, steering left (65): the
    move of a tick of 1/60 s would take it to x = -1, and the update
    leaves it on the edge, at x = 0. *)
Lemma C8_player_clamped_witness :
  let w := poll_input
             (keydown 65 (modify 0 (set_position (mkVec 1 400))
                            (boot (λ _, 1 # 2)))) in
  (heap w !! 0%nat = Some (body_at w 0) ∧ 0%nat ≠ running_id w) ∧
  x (position (body_at w 0)) == 1 ∧
  ∃ b', heap (Player_update config.seconds 0 w) !! 0%nat = Some b' ∧
        x (position b') == 0.
Proof.
  intros w.
  assert (Hb : heap w !! 0%nat = Some (body_at w 0)) by (by vm_compute).
  assert (Hne : 0%nat ≠ running_id w) by (by vm_compute).
  split; [by split|]. split; [by vm_compute|].
  destruct (proj2 (C8_player_clamped config.seconds 0 w) (body_at w 0) Hb Hne)
    as (b' & Hb' & H).
  cbv zeta in H. destruct H as (_ & Hleft & _).
  exists b'. split; [exact Hb'|]. apply Hleft. by vm_compute.
Defined.
